(** * The CSV-to-relational loader of KRA_repos: row processor, reference
      cache, page and category repositories, batch driver.

    Sources embedded here:
    - [complete_etl.py]: [RepositoryBasedETL] and [run_simple_etl];
    - [repositories/base_repository.py]: [Page], [Category],
      [DatabaseConnection.get_session], [_execute_query];
    - [repositories/page_repository.py]: [get_by_title], [create];
    - [repositories/category_repository.py]: [get_by_name], [create],
      [get_or_create_by_name], [link_page_to_category].

    Python exceptions are results of a small state-and-error monad over the
    whole program state (the database, the heap of [Page] objects that are
    mutated through a reference, and the two dictionaries of the loader).

    Conventions of the model:
    - a string is a sequence of code points below 256;
    - a session on the database is one atomic step: it either runs its
      statement and commits, or meets a storage error (SQLAlchemyError),
      writes nothing and raises; which sessions fail is given by an oracle
      [fails] on the number of the session, so every statement below holds
      for a storage that fails at any chosen points unless it assumes
      otherwise;
    - the row that an INSERT ... RETURNING gives back is read as the code
      reads it, after the commit;
    - the frame that [pd.read_csv] returns is an input. *)

From Stdlib Require Import ZArith Lia Ascii String.
From stdpp Require Import base option list strings gmap pretty sorting.

Local Open Scope string_scope.
Local Open Scope list_scope.
Local Open Scope Z_scope.

(** ** Python values and strings *)

Module Py.

(** Code points below 256 that [str.isspace] accepts; [str.strip] removes
    exactly these at both ends. *)
Definition isspace (c : ascii) : bool :=
  let n := Ascii.N_of_ascii c in
  ((9 <=? n) && (n <=? 13) || (28 <=? n) && (n <=? 32)
   || (n =? 133) || (n =? 160))%N.

Fixpoint lstrip (s : string) : string :=
  match s with
  | String c s' => if isspace c then lstrip s' else s
  | EmptyString => EmptyString
  end.

Definition rstrip (s : string) : string := String.rev (lstrip (String.rev s)).

(** [s.strip()] *)
Definition strip (s : string) : string := rstrip (lstrip s).

(** [s.split(sep)] for a one-character separator: never the empty list. *)
Fixpoint split (sep : ascii) (s : string) : list string :=
  match s with
  | EmptyString => [EmptyString]
  | String c s' =>
      if decide (c = sep) then EmptyString :: split sep s'
      else match split sep s' with
           | h :: t => String c h :: t
           | [] => [String c EmptyString]
           end
  end.

(** Simple lower-casing of the code points below 256: A-Z and the Latin-1
    capitals (all of 192..222 but the multiplication sign 215). Used for
    [str.lower] and for SQL [LOWER]. *)
Definition lower_char (c : ascii) : ascii :=
  let n := Ascii.N_of_ascii c in
  if ((65 <=? n) && (n <=? 90)
      || (192 <=? n) && (n <=? 222) && negb (n =? 215))%N
  then Ascii.ascii_of_N (n + 32) else c.

Fixpoint lower (s : string) : string :=
  match s with
  | EmptyString => EmptyString
  | String c s' => String (lower_char c) (lower s')
  end.

(** [s.replace(a, b)] for single characters. *)
Fixpoint replace (a b : ascii) (s : string) : string :=
  match s with
  | EmptyString => EmptyString
  | String c s' => String (if decide (c = a) then b else c) (replace a b s')
  end.

(** The values a cell of a row can hold: [None], a float NaN (what pandas
    stores for an empty cell), an integer, a string. Finite non-integral
    floats and booleans are outside this model. *)
Inductive value :=
  | VNone
  | VNaN
  | VInt (z : Z)
  | VStr (s : string).

Global Instance value_eq_dec : EqDecision value.
Proof. solve_decision. Defined.

(** Truth value of an object in a condition: NaN is a non-zero float. *)
Definition truthy (v : value) : bool :=
  match v with
  | VNone => false
  | VNaN => true
  | VInt z => negb (z =? 0)
  | VStr s => negb (String.eqb s "")
  end.

(** [pd.isna] on a scalar. *)
Definition isna (v : value) : bool :=
  match v with
  | VNone | VNaN => true
  | _ => false
  end.

(** [str(v)] *)
Definition str (v : value) : string :=
  match v with
  | VNone => "None"
  | VNaN => "nan"
  | VInt z => pretty z
  | VStr s => s
  end.

(** [a or b] *)
Definition or (a b : value) : value := if truthy a then a else b.

Definition digit (c : ascii) : option Z :=
  let n := Ascii.N_of_ascii c in
  if ((48 <=? n) && (n <=? 57))%N then Some (Z.of_N n - 48) else None.

(** Digits of a decimal literal after its sign: at least one digit, single
    underscores allowed between digits only. [acc] is the value read so far,
    [prev] tells whether the previous character was a digit. *)
Fixpoint digits (acc : Z) (prev : bool) (s : string) : option Z :=
  match s with
  | EmptyString => if prev then Some acc else None
  | String c s' =>
      match digit c with
      | Some d => digits (10 * acc + d) true s'
      | None =>
          if decide (c = "_"%char) then
            if prev then
              match s' with
              | EmptyString => None
              | _ => digits acc false s'
              end
            else None
          else None
      end
  end.

(** The code points below 256 that [int(str)] skips at both ends: the ASCII
    white space 9..13 and 32, and NEL (133) and NBSP (160), which it turns
    into blanks first. The separators 28..31, which [str.strip] removes, are
    not skipped: [int] rejects a string that has one. *)
Definition int_space (c : ascii) : bool :=
  let n := Ascii.N_of_ascii c in
  ((9 <=? n) && (n <=? 13) || (n =? 32) || (n =? 133) || (n =? 160))%N.

Fixpoint int_lstrip (s : string) : string :=
  match s with
  | String c s' => if int_space c then int_lstrip s' else s
  | EmptyString => EmptyString
  end.

Definition int_strip (s : string) : string :=
  String.rev (int_lstrip (String.rev (int_lstrip s))).

(** [int(s)] for a string, base 10: surrounding white space, an optional
    sign, digits. [None] stands for [ValueError]. *)
Definition int_of_string (s : string) : option Z :=
  match int_strip s with
  | String "-" r => Z.opp <$> digits 0 false r
  | String "+" r => digits 0 false r
  | r => digits 0 false r
  end.

End Py.

(** ** Entities (base_repository.py) *)

Module Page.
Record t := mk {
  id : option Z;
  title : string;
  project_id : option Z;
  views : Z;
  status : string;
  namespace_id : option Z;
  text : string;
  created_at : option Z;
  updated_at : option Z }.

(** [page.id = i] *)
Definition set_id (i : option Z) (p : t) : t :=
  mk i (title p) (project_id p) (views p) (status p) (namespace_id p)
     (text p) (created_at p) (updated_at p).
End Page.

Module Category.
Record t := mk {
  id : option Z;
  name : string;
  text_content : string;
  status : string }.

Definition set_id (i : option Z) (c : t) : t :=
  mk i (name c) (text_content c) (status c).
End Category.

Record Page_Category := mkPage_Category { pc_page_id : Z; pc_category_id : Z }.

(** [if x.id:] on an optional integer identifier. *)
Definition id_truthy (i : option Z) : bool :=
  match i with
  | Some z => negb (z =? 0)
  | None => false
  end.

(** ** The database *)

Module Db.

(** Modelled from the spec: the schema of the five tables is not in the
    sources. Section 3 of the specification gives the columns; the statements
    of the repositories name them. Identifiers are assigned by a sequence per
    table. No uniqueness or foreign-key constraint is built into the tables:
    a statement that the storage rejects (a constraint, a lost connection) is
    a session that the fault oracle makes fail. *)
Record page_row := mkPageRow {
  p_id : Z;
  p_title : string;
  p_project_id : option Z;
  p_views : Z;
  p_status : string;
  p_namespace_id : option Z;
  p_text : string }.

Record category_row := mkCategoryRow {
  c_id : Z;
  c_name : string;
  c_text_content : string;
  c_status : string }.

Record name_row := mkNameRow { n_id : Z; n_name : string }.

Record store := mkStore {
  page : list page_row;
  project : list name_row;
  namespace : list name_row;
  category : list category_row;
  page_category : list (Z * Z);
  page_seq : Z;
  project_seq : Z;
  namespace_seq : Z;
  category_seq : Z;
  (** number of sessions opened so far *)
  sessions : nat }.

Inductive table := TProject | TNamespace.

Definition tick (d : store) : store :=
  mkStore (page d) (project d) (namespace d) (category d) (page_category d)
          (page_seq d) (project_seq d) (namespace_seq d) (category_seq d)
          (S (sessions d)).

(** [SELECT * FROM page WHERE LOWER(title) = LOWER(:title) LIMIT 1]: of the
    matching rows, the one inserted first. *)
Definition select_page_by_title (title : string) (d : store) : list page_row :=
  take 1 (filter (λ r, Py.lower (p_title r) = Py.lower title) (page d)).

(** [SELECT * FROM category WHERE LOWER(name) = LOWER(:name) LIMIT 1] *)
Definition select_category_by_name (name : string) (d : store)
  : list category_row :=
  take 1 (filter (λ r, Py.lower (c_name r) = Py.lower name) (category d)).

(** [SELECT id, name FROM project] and the same for namespace. *)
Definition select_names (t : table) (d : store) : list name_row :=
  match t with
  | TProject => project d
  | TNamespace => namespace d
  end.

(** The columns given to an [INSERT INTO page]: the dictionary built by
    [PageRepository._from_entity], where [None] is a column left out. *)
Record page_data := mkPageData {
  d_id : option Z;
  d_title : string;
  d_project_id : option Z;
  d_views : Z;
  d_status : string;
  d_namespace_id : option Z;
  d_text : string }.

(** [INSERT INTO page (...) VALUES (...) RETURNING id]: a row without an
    explicit id takes the next value of the sequence. *)
Definition insert_page (data : page_data) (d : store) : Z * store :=
  let new_id := default (page_seq d) (d_id data) in
  let seq := if d_id data is Some _ then page_seq d else page_seq d + 1 in
  (new_id,
   mkStore (page d ++ [mkPageRow new_id (d_title data) (d_project_id data)
                         (d_views data) (d_status data) (d_namespace_id data)
                         (d_text data)])
           (project d) (namespace d) (category d) (page_category d)
           seq (project_seq d) (namespace_seq d) (category_seq d)
           (sessions d)).

(** [INSERT INTO {table} (name) VALUES (:name) RETURNING id] *)
Definition insert_name (t : table) (name : string) (d : store) : Z * store :=
  match t with
  | TProject =>
      (project_seq d,
       mkStore (page d) (project d ++ [mkNameRow (project_seq d) name])
               (namespace d) (category d) (page_category d)
               (page_seq d) (project_seq d + 1) (namespace_seq d)
               (category_seq d) (sessions d))
  | TNamespace =>
      (namespace_seq d,
       mkStore (page d) (project d)
               (namespace d ++ [mkNameRow (namespace_seq d) name])
               (category d) (page_category d)
               (page_seq d) (project_seq d) (namespace_seq d + 1)
               (category_seq d) (sessions d))
  end.

(** The columns given to an [INSERT INTO category]. *)
Record category_data := mkCategoryData {
  e_id : option Z;
  e_name : string;
  e_status : string;
  e_text_content : string }.

(** [INSERT INTO category (...) VALUES (...) RETURNING id] *)
Definition insert_category (data : category_data) (d : store) : Z * store :=
  let new_id := default (category_seq d) (e_id data) in
  let seq := if e_id data is Some _ then category_seq d
             else category_seq d + 1 in
  (new_id,
   mkStore (page d) (project d) (namespace d)
           (category d ++ [mkCategoryRow new_id (e_name data)
                             (e_text_content data) (e_status data)])
           (page_category d)
           (page_seq d) (project_seq d) (namespace_seq d) seq (sessions d)).

(** [INSERT INTO page_category (page_id, category_id) VALUES (...)] *)
Definition insert_page_category (page_id category_id : Z) (d : store)
  : unit * store :=
  (tt,
   mkStore (page d) (project d) (namespace d) (category d)
           (page_category d ++ [(page_id, category_id)])
           (page_seq d) (project_seq d) (namespace_seq d) (category_seq d)
           (sessions d)).

(** The names that a LEFT JOIN on a reference gives: the name of every row
    of the table [t] with that identifier, and no name when there is none. *)
Definition left_names (ref : option Z) (t : list name_row)
  : list (option string) :=
  match filter (λ x, Some (n_id x) = ref) t with
  | [] => [None]
  | rows => (λ x, Some (n_name x)) <$> rows
  end.

(** [SELECT p.*, pr.name as project_name, n.name as namespace_name
     FROM page p LEFT JOIN project pr ON p.project_id = pr.id
                 LEFT JOIN namespace n ON p.namespace_id = n.id
     WHERE p.id = :page_id] *)
Definition select_page_by_id (page_id : Z) (d : store)
  : list (page_row * option string * option string) :=
  p ← filter (λ r, p_id r = page_id) (page d);
  pr ← left_names (p_project_id p) (project d);
  n ← left_names (p_namespace_id p) (namespace d);
  [(p, pr, n)].

(** [ORDER BY id] and [ORDER BY views DESC]: rows with equal keys come in
    the order that the merge sort gives them. *)
Definition id_le (a b : page_row) : Prop := p_id a ≤ p_id b.
Definition views_ge (a b : page_row) : Prop := p_views b ≤ p_views a.
Definition cid_le (a b : category_row) : Prop := c_id a ≤ c_id b.

Global Instance id_le_dec : RelDecision id_le.
Proof. intros a b. unfold id_le. apply _. Defined.
Global Instance views_ge_dec : RelDecision views_ge.
Proof. intros a b. unfold views_ge. apply _. Defined.
Global Instance cid_le_dec : RelDecision cid_le.
Proof. intros a b. unfold cid_le. apply _. Defined.

Definition order_by_id : list page_row → list page_row := merge_sort id_le.
Definition order_by_views_desc : list page_row → list page_row :=
  merge_sort views_ge.

(** [SELECT * FROM page ORDER BY id LIMIT :limit OFFSET :offset], for a
    limit and an offset that are not negative. *)
Definition select_pages (limit offset : nat) (d : store) : list page_row :=
  take limit (drop offset (order_by_id (page d))).

(** [SELECT * FROM page WHERE project_id = :project_id
     ORDER BY views DESC LIMIT :limit] *)
Definition select_pages_by_project (project_id : Z) (limit : nat) (d : store)
  : list page_row :=
  take limit
    (order_by_views_desc
       (filter (λ r, p_project_id r = Some project_id) (page d))).

(** [SELECT * FROM page ORDER BY views DESC LIMIT :limit] *)
Definition select_top_viewed (limit : nat) (d : store) : list page_row :=
  take limit (order_by_views_desc (page d)).

(** [SELECT COUNT( * ) as count FROM page]: one row. *)
Definition count_pages (d : store) : list Z :=
  [Z.of_nat (length (page d))].

Definition with_pages (pages : list page_row) (d : store) : store :=
  mkStore pages (project d) (namespace d) (category d) (page_category d)
          (page_seq d) (project_seq d) (namespace_seq d) (category_seq d)
          (sessions d).

(** [UPDATE page SET views = views + :increment WHERE id = :page_id], with
    the number of rows it matched. *)
Definition update_page_views (page_id increment : Z) (d : store)
  : nat * store :=
  (length (filter (λ r, p_id r = page_id) (page d)),
   with_pages
     ((λ r, if decide (p_id r = page_id)
            then mkPageRow (p_id r) (p_title r) (p_project_id r)
                           (p_views r + increment) (p_status r)
                           (p_namespace_id r) (p_text r)
            else r) <$> page d) d).

(** [UPDATE page SET text = :new_text WHERE id = :page_id] *)
Definition update_page_text (page_id : Z) (new_text : string) (d : store)
  : nat * store :=
  (length (filter (λ r, p_id r = page_id) (page d)),
   with_pages
     ((λ r, if decide (p_id r = page_id)
            then mkPageRow (p_id r) (p_title r) (p_project_id r)
                           (p_views r) (p_status r)
                           (p_namespace_id r) new_text
            else r) <$> page d) d).

(** [DELETE FROM page WHERE id = :page_id] *)
Definition delete_page (page_id : Z) (d : store) : nat * store :=
  (length (filter (λ r, p_id r = page_id) (page d)),
   with_pages (filter (λ r, p_id r ≠ page_id) (page d)) d).

(** [DELETE FROM page WHERE project_id = :project_id] *)
Definition delete_pages_by_project (project_id : Z) (d : store)
  : nat * store :=
  (length (filter (λ r, p_project_id r = Some project_id) (page d)),
   with_pages (filter (λ r, p_project_id r ≠ Some project_id) (page d)) d).

(** [SELECT c.*, name, text_content FROM category c
     WHERE c.id = :category_id] *)
Definition select_category_by_id (category_id : Z) (d : store)
  : list category_row :=
  filter (λ r, c_id r = category_id) (category d).

(** [SELECT * FROM category ORDER BY id LIMIT :limit OFFSET :offset] *)
Definition select_categories (limit offset : nat) (d : store)
  : list category_row :=
  take limit
    (drop offset (merge_sort cid_le (category d))).

(** [SELECT COUNT( * ) as count FROM category] *)
Definition count_categories (d : store) : list Z :=
  [Z.of_nat (length (category d))].

Definition with_categories (categories : list category_row) (d : store)
  : store :=
  mkStore (page d) (project d) (namespace d) categories (page_category d)
          (page_seq d) (project_seq d) (namespace_seq d) (category_seq d)
          (sessions d).

(** [UPDATE category SET text_content = :new_text WHERE id = :category_id] *)
Definition update_category_text (category_id : Z) (new_text : string)
    (d : store) : nat * store :=
  (length (filter (λ r, c_id r = category_id) (category d)),
   with_categories
     ((λ r, if decide (c_id r = category_id)
            then mkCategoryRow (c_id r) (c_name r) new_text (c_status r)
            else r) <$> category d) d).

(** [DELETE FROM category WHERE id = :category_id] *)
Definition delete_category (category_id : Z) (d : store) : nat * store :=
  (length (filter (λ r, c_id r = category_id) (category d)),
   with_categories (filter (λ r, c_id r ≠ category_id) (category d)) d).

Definition empty : store := mkStore [] [] [] [] [] 1 1 1 1 0.

End Db.

(** ** Program state and the monad of the embedding *)

Inductive exn := SQLAlchemyError | ValueError | TypeError | AttributeError.

Global Instance exn_eq_dec : EqDecision exn.
Proof. solve_decision. Defined.

Inductive res (A : Type) :=
  | Ok (a : A)
  | Raise (e : exn).
Arguments Ok {A} a.
Arguments Raise {A} e.

(** A reference to a [Page] object on the heap. *)
Definition loc := nat.

Record world := mkWorld {
  db : Db.store;
  (** the [Page] objects that are passed by reference and mutated *)
  heap : list Page.t;
  (** [self.project_cache] and [self.namespace_cache] of the loader *)
  project_cache : gmap string Z;
  namespace_cache : gmap string Z }.

Definition set_db (d : Db.store) (w : world) : world :=
  mkWorld d (heap w) (project_cache w) (namespace_cache w).
Definition set_heap (h : list Page.t) (w : world) : world :=
  mkWorld (db w) h (project_cache w) (namespace_cache w).

Definition M (A : Type) : Type := world → res A * world.

Definition ret {A} (a : A) : M A := λ w, (Ok a, w).
Definition raise {A} (e : exn) : M A := λ w, (Raise e, w).
(** A computation that does not touch the state. *)
Definition lift {A} (r : res A) : M A := λ w, (r, w).
Definition bind {A B} (m : M A) (k : A → M B) : M B :=
  λ w, match m w with
       | (Ok a, w') => k a w'
       | (Raise e, w') => (Raise e, w')
       end.

Notation "'let*' x ':=' m 'in' k" := (bind m (λ x, k))
  (at level 10, x name, m at level 100, k at level 200, only parsing).
Notation "m '>>' k" := (bind m (λ _, k))
  (at level 100, k at level 200, right associativity, only parsing).

(** [try: m  except E: h] for the exceptions [E] that [handles] accepts. *)
Definition try_except {A} (handles : exn → bool) (m : M A) (h : M A) : M A :=
  λ w, match m w with
       | (Ok a, w') => (Ok a, w')
       | (Raise e, w') => if handles e then h w' else (Raise e, w')
       end.

Definition is_SQLAlchemyError (e : exn) : bool :=
  bool_decide (e = SQLAlchemyError).
(** [except Exception]: every exception of the model. *)
Definition is_Exception (e : exn) : bool := true.

(** [Page(...)]: a new object, returned by reference. *)
Definition new_page (p : Page.t) : M loc :=
  λ w, (Ok (length (heap w)), set_heap (heap w ++ [p]) w).

(** Reading an attribute of the object behind a reference; a reference that
    denotes no [Page] has no such attribute. *)
Definition deref (l : loc) : M Page.t :=
  λ w, match heap w !! l with
       | Some p => (Ok p, w)
       | None => (Raise AttributeError, w)
       end.

(** [page.id = i] *)
Definition assign_id (l : loc) (i : Z) : M unit :=
  λ w, match heap w !! l with
       | Some p => (Ok tt, set_heap (<[l := Page.set_id (Some i) p]> (heap w)) w)
       | None => (Raise AttributeError, w)
       end.

Section Session.
(** The fault oracle: [fails n] tells whether the [n]-th session opened on
    the database meets a storage error. *)
Variable fails : nat → bool.

(** [with self.db.get_session() as session: body]: the statement of the
    body and its commit form one atomic step; on an error the session is
    rolled back, nothing is written, and the error is raised again. *)
Definition get_session {A} (body : Db.store → A * Db.store) : M A :=
  λ w, let n := Db.sessions (db w) in
       let d := Db.tick (db w) in
       if fails n then (Raise SQLAlchemyError, set_db d w)
       else let '(a, d') := body d in (Ok a, set_db d' w).

(** [BaseRepository._execute_query] *)
Definition _execute_query {A} (query : Db.store → list A) : M (list A) :=
  get_session (λ d, (query d, d)).

(** [BaseRepository._execute_update]: the number of rows of the result. *)
Definition _execute_update (statement : Db.store → nat * Db.store) : M nat :=
  get_session statement.
End Session.

(** ** repositories/page_repository.py *)

Module PageRepository.
Section Repo.
Variable fails : nat → bool.

Definition _to_entity (row : Db.page_row) : Page.t :=
  Page.mk (Some (Db.p_id row)) (Db.p_title row) (Db.p_project_id row)
          (Db.p_views row) (Db.p_status row) (Db.p_namespace_id row)
          (Db.p_text row) None None.

(** The id is a column only when it is set and not zero. *)
Definition _from_entity (page : Page.t) : Db.page_data :=
  Db.mkPageData (if id_truthy (Page.id page) then Page.id page else None)
                (Page.title page) (Page.project_id page) (Page.views page)
                (Page.status page) (Page.namespace_id page) (Page.text page).

Definition get_by_title (title : string) : M (option Page.t) :=
  try_except is_SQLAlchemyError
    (let* result := _execute_query fails (Db.select_page_by_title title) in
     match result with
     | r :: _ => ret (Some (_to_entity r))
     | [] => ret None
     end)
    (ret None).

(** [create] takes the page by reference, sets its id and returns the same
    reference. *)
Definition create (page : loc) : M (option loc) :=
  try_except is_SQLAlchemyError
    (let* p := deref page in
     let* existing := get_by_title (Page.title p) in
     if existing is Some _ then ret None
     else
       let data := _from_entity p in
       let* row_id := get_session fails (Db.insert_page data) in
       assign_id page row_id >>
       ret (Some page))
    (ret None).

(** [for page in pages: ...] of [create_batch]. *)
Fixpoint create_batch_loop (pages : list loc) (created_pages : list loc)
  : M (list loc) :=
  match pages with
  | [] => ret created_pages
  | page :: pages' =>
      let* created := create page in
      create_batch_loop pages'
        (match created with
         | Some created => created_pages ++ [created]
         | None => created_pages
         end)
  end.

Definition create_batch (pages : list loc) : M (list loc) :=
  create_batch_loop pages [].

(** The entity is built from the columns of the page; the two names that
    the join adds are not read. *)
Definition get_by_id (page_id : Z) : M (option Page.t) :=
  try_except is_SQLAlchemyError
    (let* result := _execute_query fails (Db.select_page_by_id page_id) in
     match result with
     | r :: _ => ret (Some (_to_entity r.1.1))
     | [] => ret None
     end)
    (ret None).

Definition get_all (limit offset : nat) : M (list Page.t) :=
  try_except is_SQLAlchemyError
    (let* result := _execute_query fails (Db.select_pages limit offset) in
     ret (_to_entity <$> result))
    (ret []).

Definition get_by_project (project_id : Z) (limit : nat) : M (list Page.t) :=
  try_except is_SQLAlchemyError
    (let* result :=
       _execute_query fails (Db.select_pages_by_project project_id limit) in
     ret (_to_entity <$> result))
    (ret []).

Definition get_top_viewed (limit : nat) : M (list Page.t) :=
  try_except is_SQLAlchemyError
    (let* result := _execute_query fails (Db.select_top_viewed limit) in
     ret (_to_entity <$> result))
    (ret []).

Definition update_views (page_id increment : Z) : M bool :=
  try_except is_SQLAlchemyError
    (let* rowcount :=
       _execute_update fails (Db.update_page_views page_id increment) in
     if (0 <? rowcount)%nat then ret true else ret false)
    (ret false).

Definition update_text (page_id : Z) (new_text : string) : M bool :=
  try_except is_SQLAlchemyError
    (let* rowcount :=
       _execute_update fails (Db.update_page_text page_id new_text) in
     if (0 <? rowcount)%nat then ret true else ret false)
    (ret false).

Definition delete (page_id : Z) : M bool :=
  try_except is_SQLAlchemyError
    (let* rowcount := _execute_update fails (Db.delete_page page_id) in
     if (0 <? rowcount)%nat then ret true else ret false)
    (ret false).

Definition delete_by_title (title : string) : M bool :=
  try_except is_SQLAlchemyError
    (let* page := get_by_title title in
     match page with
     | Some p =>
         match Page.id p with
         | Some page_id =>
             if negb (page_id =? 0) then delete page_id else ret false
         | None => ret false
         end
     | None => ret false
     end)
    (ret false).

Definition delete_by_project (project_id : Z) : M nat :=
  try_except is_SQLAlchemyError
    (_execute_update fails (Db.delete_pages_by_project project_id))
    (ret 0%nat).

Definition count : M Z :=
  try_except is_SQLAlchemyError
    (let* result := _execute_query fails Db.count_pages in
     match result with
     | c :: _ => ret c
     | [] => ret 0
     end)
    (ret 0).
End Repo.
End PageRepository.

(** ** repositories/category_repository.py

    A [Category] object is never reached through two names, so these
    methods take and return it by value. *)

Module CategoryRepository.
Section Repo.
Variable fails : nat → bool.

Definition _to_entity (row : Db.category_row) : Category.t :=
  Category.mk (Some (Db.c_id row)) (Db.c_name row) (Db.c_text_content row)
              (Db.c_status row).

Definition _from_entity (category : Category.t) : Db.category_data :=
  Db.mkCategoryData
    (if id_truthy (Category.id category) then Category.id category else None)
    (Category.name category) (Category.status category)
    (Category.text_content category).

Definition get_by_name (name : string) : M (option Category.t) :=
  try_except is_SQLAlchemyError
    (let* result := _execute_query fails (Db.select_category_by_name name) in
     match result with
     | r :: _ => ret (Some (_to_entity r))
     | [] => ret None
     end)
    (ret None).

Definition create (category : Category.t) : M (option Category.t) :=
  try_except is_SQLAlchemyError
    (let* existing := get_by_name (Category.name category) in
     if existing is Some _ then ret None
     else
       let data := _from_entity category in
       let* row_id := get_session fails (Db.insert_category data) in
       ret (Some (Category.set_id (Some row_id) category)))
    (ret None).

Definition link_page_to_category (page_id category_id : Z)
  : M (option Page_Category) :=
  try_except is_SQLAlchemyError
    (get_session fails (Db.insert_page_category page_id category_id) >>
     ret (Some (mkPage_Category page_id category_id)))
    (ret None).

(** [Category(name=name)] *)
Definition new_category (name : string) : Category.t :=
  Category.mk None name "" "stub".

Definition get_or_create_by_name (name : string) : M (option Category.t) :=
  let* category := get_by_name name in
  match category with
  | None =>
      create (new_category name) >>
      get_by_name name
  | Some c => ret (Some c)
  end.

(** [for category in categories: ...] of [create_batch]. *)
Fixpoint create_batch_loop (categories : list Category.t)
    (created_categories : list Category.t) : M (list Category.t) :=
  match categories with
  | [] => ret created_categories
  | category :: categories' =>
      let* created := create category in
      create_batch_loop categories'
        (match created with
         | Some created => created_categories ++ [created]
         | None => created_categories
         end)
  end.

Definition create_batch (categories : list Category.t)
  : M (list Category.t) :=
  create_batch_loop categories [].

Definition get_by_id (category_id : Z) : M (option Category.t) :=
  try_except is_SQLAlchemyError
    (let* result :=
       _execute_query fails (Db.select_category_by_id category_id) in
     match result with
     | r :: _ => ret (Some (_to_entity r))
     | [] => ret None
     end)
    (ret None).

Definition get_all (limit offset : nat) : M (list Category.t) :=
  try_except is_SQLAlchemyError
    (let* result := _execute_query fails (Db.select_categories limit offset) in
     ret (_to_entity <$> result))
    (ret []).

Definition update_text_content (category_id : Z) (new_text : string)
  : M bool :=
  try_except is_SQLAlchemyError
    (let* rowcount :=
       _execute_update fails (Db.update_category_text category_id new_text) in
     if (0 <? rowcount)%nat then ret true else ret false)
    (ret false).

Definition delete (category_id : Z) : M bool :=
  try_except is_SQLAlchemyError
    (let* rowcount := _execute_update fails (Db.delete_category category_id) in
     if (0 <? rowcount)%nat then ret true else ret false)
    (ret false).

Definition delete_by_title (name : string) : M bool :=
  try_except is_SQLAlchemyError
    (let* category := get_by_name name in
     match category with
     | Some c =>
         match Category.id c with
         | Some category_id =>
             if negb (category_id =? 0) then delete category_id
             else ret false
         | None => ret false
         end
     | None => ret false
     end)
    (ret false).

Definition count : M Z :=
  try_except is_SQLAlchemyError
    (let* result := _execute_query fails Db.count_categories in
     match result with
     | c :: _ => ret c
     | [] => ret 0
     end)
    (ret 0).
End Repo.
End CategoryRepository.

(** ** complete_etl.py *)

(** A row handed to the processor: the dictionary of [row.to_dict()]. *)
Abbreviation Row := (gmap string Py.value).

(** [row.get(key, default)] *)
Definition dict_get (row : Row) (key : string) (dflt : Py.value) : Py.value :=
  default dflt (row !! key).

(** [int(v)]: the integer, or the exception raised. *)
Definition int (v : Py.value) : res Z :=
  match v with
  | Py.VInt z => Ok z
  | Py.VStr s =>
      match Py.int_of_string s with
      | Some z => Ok z
      | None => Raise ValueError
      end
  | Py.VNaN => Raise ValueError
  | Py.VNone => Raise TypeError
  end.

(** [str(row.get('title', '')).strip()] *)
Definition title_of (row : Row) : string :=
  Py.strip (Py.str (dict_get row "title" (Py.VStr ""))).

(** [int(row.get('view_count', 0) or 0)] *)
Definition views_of (row : Row) : res Z :=
  int (Py.or (dict_get row "view_count" (Py.VInt 0)) (Py.VInt 0)).

(** Which of the two dictionaries of the loader a [cache] argument is. *)
Inductive cache_ref := ProjectCache | NamespaceCache.

Definition cache_of (c : cache_ref) (w : world) : gmap string Z :=
  match c with
  | ProjectCache => project_cache w
  | NamespaceCache => namespace_cache w
  end.

(** [cache[name] = entity_id] *)
Definition cache_store (c : cache_ref) (name : string) (entity_id : Z)
  : M unit :=
  λ w, (Ok tt,
        match c with
        | ProjectCache =>
            mkWorld (db w) (heap w) (<[name := entity_id]> (project_cache w))
                    (namespace_cache w)
        | NamespaceCache =>
            mkWorld (db w) (heap w) (project_cache w)
                    (<[name := entity_id]> (namespace_cache w))
        end).

(** [for x in xs: body(x)] *)
Fixpoint for_each {A} (xs : list A) (body : A → M unit) : M unit :=
  match xs with
  | [] => ret tt
  | x :: xs' => body x >> for_each xs' body
  end.

Module RepositoryBasedETL.
Section ETL.
Variable fails : nat → bool.

(** [__init__]: both caches start empty; no [Page] object exists yet. *)
Definition init (d : Db.store) : world := mkWorld d [] ∅ ∅.

Definition _cache_projects_and_namespaces : M unit :=
  let* result :=
    get_session fails
      (λ d, ((Db.select_names Db.TProject d,
              Db.select_names Db.TNamespace d), d)) in
  for_each (result.1)
    (λ row, cache_store ProjectCache (Db.n_name row) (Db.n_id row)) >>
  for_each (result.2)
    (λ row, cache_store NamespaceCache (Db.n_name row) (Db.n_id row)).

Definition _get_or_create_cached (name : string) (cache : cache_ref)
    (table : Db.table) : M (option Z) :=
  if negb (Py.truthy (Py.VStr name)) || Py.isna (Py.VStr name) then ret None
  else λ w,
    match cache_of cache w !! name with
    | Some i => (Ok (Some i), w)
    | None =>
        (let* entity_id := get_session fails (Db.insert_name table name) in
         cache_store cache name entity_id >>
         ret (Some entity_id)) w
    end.

(** [[cat.strip() for cat in categories_str.split(';') if cat.strip()]] *)
Definition category_names (categories_str : string) : list string :=
  Py.strip <$>
    filter (λ cat, Py.truthy (Py.VStr (Py.strip cat)) = true)
           (Py.split ";" categories_str).

(** The body of the loop of [_process_categories_for_page]. *)
Definition process_category (page_id : Z) (category_name : string)
  : M unit :=
  let* category :=
    CategoryRepository.get_or_create_by_name fails category_name in
  match category with
  | Some c =>
      match Category.id c with
      | Some category_id =>
          if negb (category_id =? 0) then
            CategoryRepository.link_page_to_category fails page_id
              category_id >>
            ret tt
          else ret tt
      | None => ret tt
      end
  | None => ret tt
  end.

Definition _process_categories_for_page (page_id : Z)
    (categories_str : string) : M unit :=
  let categories := category_names categories_str in
  for_each categories (process_category page_id).

(** The body of the [try] of [process_row_with_repository]. *)
Definition process_row_body (row : Row) : M bool :=
  let title := title_of row in
  if negb (Py.truthy (Py.VStr title)) then ret false
  else
    let* existing := PageRepository.get_by_title fails title in
    if existing is Some _ then ret false
    else
      let project_name := dict_get row "project_name" Py.VNone in
      let* project_id :=
        (if Py.truthy project_name && negb (Py.isna project_name) then
           _get_or_create_cached (Py.strip (Py.str project_name))
                                 ProjectCache Db.TProject
         else ret None) in
      let namespace_name := dict_get row "namespace_name" Py.VNone in
      let* namespace_id :=
        (if Py.truthy namespace_name && negb (Py.isna namespace_name) then
           _get_or_create_cached (Py.strip (Py.str namespace_name))
                                 NamespaceCache Db.TNamespace
         else ret None) in
      let text := Py.strip (Py.str (dict_get row "text" (Py.VStr ""))) in
      let* views := lift (views_of row) in
      let* page :=
        new_page (Page.mk None title project_id views "stub" namespace_id
                          text None None) in
      let* created := PageRepository.create fails page in
      match created with
      | None => ret false
      | Some created =>
          let* c := deref created in
          match Page.id c with
          | Some created_id =>
              if negb (created_id =? 0) then
                let categories := dict_get row "categories" Py.VNone in
                (if Py.truthy categories && negb (Py.isna categories) then
                   _process_categories_for_page created_id
                                                (Py.str categories)
                 else ret tt) >>
                ret true
              else ret false
          | None => ret false
          end
      end.

Definition process_row_with_repository (row : Row) : M bool :=
  try_except is_Exception (process_row_body row) (ret false).
End ETL.
End RepositoryBasedETL.

(** The frame read from the CSV file: its header and its data rows. *)
Record DataFrame := mkDataFrame {
  columns : list string;
  data : list (list Py.value) }.

Record Stats := mkStats {
  total_rows : Z;
  pages_created : Z;
  pages_skipped : Z }.

(** [col.strip().lower().replace(' ', '_')] *)
Definition normalize_column (col : string) : string :=
  Py.replace " " "_" (Py.lower (Py.strip col)).

(** [row.to_dict()]: of two columns with one name, the later one stays. *)
Definition to_dict (cols : list string) (cells : list Py.value) : Row :=
  foldl (λ (m : Row) kv, <[kv.1 := kv.2]> m) ∅ (zip cols cells).

Section Driver.
Variable fails : nat → bool.

(** The [for idx, row in df.iterrows()] loop on the counters. *)
Fixpoint iterrows (cols : list string) (rows : list (list Py.value))
    (stats : Stats) : M Stats :=
  match rows with
  | [] => ret stats
  | row :: rows' =>
      let* result :=
        RepositoryBasedETL.process_row_with_repository fails
          (to_dict cols row) in
      iterrows cols rows'
        (if result
         then mkStats (total_rows stats) (pages_created stats + 1)
                      (pages_skipped stats)
         else mkStats (total_rows stats) (pages_created stats)
                      (pages_skipped stats + 1))
  end.

(** [run_simple_etl], from the frame that [pd.read_csv] returned, on the
    database [d]. *)
Definition run_simple_etl (df : DataFrame) (d : Db.store)
  : res Stats * world :=
  let repositoryBasedETL := RepositoryBasedETL.init d in
  let cols := normalize_column <$> columns df in
  let stats := mkStats (Z.of_nat (length (data df))) 0 0 in
  iterrows cols (data df) stats repositoryBasedETL.
End Driver.

(** * Vocabulary of the properties *)

(** No session from the [k]-th on meets a storage error. *)
Definition quiet (fails : nat → bool) (k : nat) : Prop :=
  ∀ n, (k ≤ n)%nat → fails n = false.

(** [wp m Q w]: running [m] from [w] ends in a result and a world that
    satisfy [Q]. Every computation of the model ends. *)
Definition wp {A} (m : M A) (Q : res A → world → Prop) (w : world) : Prop :=
  Q (m w).1 (m w).2.

(** [steps R m]: [m] never raises and relates the world it starts from to
    the world it ends in by [R]. [moves R m] allows it to raise. *)
Definition moves {A} (R : relation world) (m : M A) : Prop :=
  ∀ w, wp m (λ _ w', R w w') w.
Definition steps {A} (R : relation world) (m : M A) : Prop :=
  ∀ w, wp m (λ r w', (∃ a, r = Ok a) ∧ R w w') w.

(** [keeps f]: the part [f] of the world is left as it was;
    [extends f]: the list [f] only gets rows appended;
    [later]: sessions are only ever opened. *)
Definition keeps {X} (f : world → X) : relation world := λ w w', f w' = f w.
Definition extends {X} (f : world → list X) : relation world :=
  λ w w', f w `prefix_of` f w'.
Definition later : relation world :=
  λ w w', (Db.sessions (db w) ≤ Db.sessions (db w'))%nat.
Definition both (R1 R2 : relation world) : relation world :=
  λ w w', R1 w w' ∧ R2 w w'.

(** The parts of the world the frames speak of. *)
Definition pages_of (w : world) := Db.page (db w).
Definition projects_of (w : world) := Db.project (db w).
Definition namespaces_of (w : world) := Db.namespace (db w).
Definition categories_of (w : world) := Db.category (db w).
Definition links_of (w : world) := Db.page_category (db w).

(** [R] holds across a session that fails, and across one that runs
    [body]. *)
Definition across_tick (R : relation world) : Prop :=
  ∀ w, R w (set_db (Db.tick (db w)) w).
Definition across {A} (R : relation world) (body : Db.store → A * Db.store)
  : Prop :=
  ∀ w, R w (set_db (body (Db.tick (db w))).2 w).

(** A relation that holds across every statement of the program. *)
Record framed (R : relation world) : Prop := mkFramed {
  framed_tick : across_tick R;
  framed_page : ∀ data, across R (Db.insert_page data);
  framed_name : ∀ t name, across R (Db.insert_name t name);
  framed_category : ∀ data, across R (Db.insert_category data);
  framed_link : ∀ p c, across R (Db.insert_page_category p c);
  framed_heap : ∀ h w, R w (set_heap h w) }.

(** A relation that holds across every assignment to a cache. *)
Definition cache_framed (R : relation world) : Prop :=
  ∀ c name i w, R w (cache_store c name i w).2.

(** One turn of the loop of the driver. *)
Definition count (result : bool) (stats : Stats) : Stats :=
  if result
  then mkStats (total_rows stats) (pages_created stats + 1)
               (pages_skipped stats)
  else mkStats (total_rows stats) (pages_created stats)
               (pages_skipped stats + 1).

(** The storage that never fails. *)
Definition no_faults : nat → bool := λ _, false.

(** A row whose title is white space only. *)
Definition blank_row : Row := {[ "title" := Py.VStr "  	 " ]}.

(** A page object as the row processor builds it, before [create]. *)
Definition sample_page : Page.t :=
  Page.mk None "Go" (Some 1) 5 "stub" None "lang" None None.

(** What the steps before the page insert leave alone: the page, category
    and link tables with their sequences, and the heap. *)
Definition core_of (w : world) :=
  (pages_of w, Db.page_seq (db w), categories_of w, Db.category_seq (db w),
   links_of w, heap w).

(** The category step of a record, once the page has its identifier. *)
Definition link_step (fails : nat → bool) (row : Row) (created_id : Z)
  : M unit :=
  let categories := dict_get row "categories" Py.VNone in
  if Py.truthy categories && negb (Py.isna categories) then
    RepositoryBasedETL._process_categories_for_page fails created_id
      (Py.str categories)
  else ret tt.

(** What the page insert leaves alone. *)
Definition cat_core_of (w : world) :=
  (categories_of w, Db.category_seq (db w), links_of w).

(** Why a record creates no page: its title is blank, a page answers to its
    title, its view count is no integer, or a session failed. *)
Definition skip_reason (fails : nat → bool) (row : Row) (w : world) : Prop :=
  title_of row = "" ∨
  Db.select_page_by_title (title_of row) (db w) ≠ [] ∨
  (∃ e, views_of row = Raise e) ∨
  (∃ n, (Db.sessions (db w) ≤ n)%nat ∧ fails n = true).

(** The two outcomes of a record: no page and not the answer true, or one
    page appended, the answer true exactly when its identifier is not zero,
    and then the category step run from the world [w5] after the insert. *)
Definition row_outcome (fails : nat → bool) (row : Row) (w : world)
    (r : res bool) (w' : world) : Prop :=
  later w w' ∧
  ((pages_of w' = pages_of w ∧ r ≠ Ok true ∧ skip_reason fails row w) ∨
   (∃ pr w5,
      pages_of w' = pages_of w ++ [pr] ∧
      Db.p_title pr = title_of row ∧
      Db.p_id pr = Db.page_seq (db w) ∧
      views_of row = Ok (Db.p_views pr) ∧
      Db.p_status pr = "stub" ∧
      title_of row ≠ "" ∧
      (fails (Db.sessions (db w)) = false →
       Db.select_page_by_title (title_of row) (db w) = []) ∧
      r = Ok (negb (Db.p_id pr =? 0)) ∧
      later w w5 ∧ keeps cat_core_of w w5 ∧
      (if negb (Db.p_id pr =? 0)
       then link_step fails row (Db.p_id pr) w5 = (Ok tt, w')
       else w' = w5))).

(** A row of a frame whose view-count cell is empty: pandas stores NaN. *)
Definition nan_views_row : Row :=
  {[ "title" := Py.VStr "Go"; "view_count" := Py.VNaN ]}.
(** A row whose view count is not a number. *)
Definition text_views_row : Row :=
  {[ "title" := Py.VStr "Go"; "view_count" := Py.VStr "many" ]}.
(** A row without a view-count column. *)
Definition no_views_row : Row := {[ "title" := Py.VStr "Go" ]}.

(** A store that already holds the project "Eng", and a frame with one new
    title of that project. *)
Definition seeded_store : Db.store :=
  Db.mkStore [] [Db.mkNameRow 1 "Eng"] [] [] [] 1 2 1 1 0.
Definition eng_frame : DataFrame :=
  mkDataFrame ["title"; "project_name"] [[Py.VStr "Go"; Py.VStr "Eng"]].

(** The oracle that makes exactly the [k]-th session fail. *)
Definition fails_at (k : nat) : nat → bool := λ n, Nat.eqb n k.

(** A row with one category, and a row with a project. *)
Definition cat_row : Row :=
  {[ "title" := Py.VStr "Go"; "categories" := Py.VStr "A" ]}.
Definition proj_row : Row :=
  {[ "title" := Py.VStr "Go"; "project_name" := Py.VStr "Eng" ]}.

(** The category that answers to a name: the first row whose lower-cased
    name is the lower-cased name asked for. *)
Definition category_named (name : string) (d : Db.store)
  : option Db.category_row :=
  head (Db.select_category_by_name name d).

(** Its identifier, 0 when there is none. *)
Definition category_id (name : string) (d : Db.store) : Z :=
  default 0 (Db.c_id <$> category_named name d).

(** Category identifiers come from a sequence that starts above 0. *)
Definition ids_ok (d : Db.store) : Prop :=
  Forall (λ c, Db.c_id c ≠ 0) (Db.category d) ∧ 0 < Db.category_seq d.

(** The [k] sessions from the [n]-th on meet no storage error. *)
Definition calm (fails : nat → bool) (n k : nat) : Prop :=
  ∀ i, (i < k)%nat → fails (n + i)%nat = false.

(** One turn of the category loop when its sessions meet no error: the
    category that answers to the name exists afterwards and gets the one new
    link. *)
Definition category_outcome (page_id : Z) (name : string) (w : world)
    (r : res unit) (w' : world) : Prop :=
  r = Ok tt ∧
  ∃ c,
    category_named name (db w') = Some c ∧
    links_of w' = links_of w ++ [(page_id, Db.c_id c)] ∧
    categories_of w `prefix_of` categories_of w' ∧
    ids_ok (db w') ∧
    later w w' ∧
    (category_named name (db w) = None →
       c = Db.mkCategoryRow (Db.category_seq (db w)) name "" "stub").

(** The loop over the category names on a quiet storage: one link per name,
    in the order of the names, each to the category that answers to the
    name. *)
Definition categories_outcome (page_id : Z) (names : list string) (w : world)
    (r : res unit) (w' : world) : Prop :=
  r = Ok tt ∧
  links_of w' =
    links_of w ++ ((λ name, (page_id, category_id name (db w'))) <$> names) ∧
  Forall (λ name, is_Some (category_named name (db w'))) names ∧
  categories_of w `prefix_of` categories_of w' ∧
  ids_ok (db w') ∧
  later w w'.

(** The categories that the loop adds are named by the tokens. *)
Definition named_by (names : list string) : relation world :=
  λ w w', ∀ c, c ∈ categories_of w' →
               c ∈ categories_of w ∨ Db.c_name c ∈ names.

(** The row of the fan-out example. *)
Definition abc_row : Row :=
  {[ "title" := Py.VStr "Go"; "categories" := Py.VStr "A; B ;C" ]}.


(** A record that would create a page in the store [d]: it has a title, no
    page answers to the title, and its view count is an integer. *)
Definition creatable (row : Row) (d : Db.store) : Prop :=
  title_of row ≠ "" ∧
  Db.select_page_by_title (title_of row) d = [] ∧
  ∃ v, views_of row = Ok v.

(** A frame with a record that is created, a blank title, a title that
    differs in case only, and an empty view-count cell. *)
Definition twice_frame : DataFrame :=
  mkDataFrame ["Title"; "View Count"]
    [[Py.VStr "Go"; Py.VInt 5]; [Py.VStr "  "; Py.VInt 1];
     [Py.VStr "GO"; Py.VStr "7"]; [Py.VStr "Rocq"; Py.VNaN]].

(** A cache holds identifiers that its sequence has already given out, one
    name per identifier. *)
Definition cache_ok (cache : gmap string Z) (seq : Z) : Prop :=
  (∀ name i, cache !! name = Some i → i < seq) ∧
  (∀ name1 name2 i,
     cache !! name1 = Some i → cache !! name2 = Some i → name1 = name2).

(** The table, the sequence and the other cache that go with a cache in the
    two calls of the row processor. *)
Definition table_of (c : cache_ref) : Db.table :=
  match c with
  | ProjectCache => Db.TProject
  | NamespaceCache => Db.TNamespace
  end.

Definition caches_ok (w : world) : Prop :=
  cache_ok (project_cache w) (Db.project_seq (db w)) ∧
  cache_ok (namespace_cache w) (Db.namespace_seq (db w)).


(** The caches stay well formed along a run. *)
Definition keeps_caches_ok : relation world :=
  λ w w', caches_ok w → caches_ok w'.

(** Every table only gets rows appended. *)
Definition grows : relation world :=
  both (extends pages_of)
    (both (extends projects_of)
       (both (extends namespaces_of)
          (both (extends categories_of) (extends links_of)))).

(** The sequence of the page identifiers never goes back. *)
Definition page_seq_grows : relation world :=
  λ w w', Db.page_seq (db w) ≤ Db.page_seq (db w').

(** The lower-cased titles of the pages of a store. *)
Definition lower_titles (d : Db.store) : list string :=
  (λ r, Py.lower (Db.p_title r)) <$> Db.page d.

(** A reference is backed by a table when a row of the table has its
    identifier; the absent reference is always backed. *)
Definition backed (rows : list Db.name_row) (ref : option Z) : Prop :=
  ∀ i, ref = Some i → i ∈ Db.n_id <$> rows.

(** The project and the namespace of a stored page are stored rows. *)
Definition page_refs_ok (d : Db.store) (r : Db.page_row) : Prop :=
  backed (Db.project d) (Db.p_project_id r) ∧
  backed (Db.namespace d) (Db.p_namespace_id r).

(** The references of every stored page and of every [Page] object are
    backed, and every cache entry is a row of its table. *)
Definition refs_ok (w : world) : Prop :=
  (∀ c name i, cache_of c w !! name = Some i →
     Db.mkNameRow i name ∈ Db.select_names (table_of c) (db w)) ∧
  Forall (page_refs_ok (db w)) (pages_of w) ∧
  Forall (λ p, backed (projects_of w) (Page.project_id p) ∧
               backed (namespaces_of w) (Page.namespace_id p)) (heap w).

Definition keeps_refs_ok : relation world :=
  λ w w', refs_ok w → refs_ok w'.

(** [Py.lstrip] on the list of the characters of a string, and a list that
    does not start with white space. *)
Fixpoint lstrip_list (l : list ascii) : list ascii :=
  match l with
  | c :: l' => if Py.isspace c then lstrip_list l' else l
  | [] => []
  end.

Definition starts_clean (l : list ascii) : Prop :=
  match l with
  | c :: _ => Py.isspace c = false
  | [] => True
  end.

Global Instance res_eq_dec {A} `{EqDecision A} : EqDecision (res A).
Proof. solve_decision. Defined.

(** The answers of the row processor to the records of a frame, taken one
    after the other, each from the state that the record before it left,
    and the state after the last record. The counters play no part in it. *)
Fixpoint answers (fails : nat → bool) (cols : list string)
    (rows : list (list Py.value)) (w : world) : list (res bool) * world :=
  match rows with
  | [] => ([], w)
  | cells :: rows' =>
      let r := RepositoryBasedETL.process_row_with_repository fails
                 (to_dict cols cells) w in
      let rest := answers fails cols rows' r.2 in
      (r.1 :: rest.1, rest.2)
  end.

(** The number of answers that are [True], and of those that are not. *)
Definition created_by (rs : list (res bool)) : Z :=
  Z.of_nat (length (filter (λ r, r = Ok true) rs)).
Definition skipped_by (rs : list (res bool)) : Z :=
  Z.of_nat (length (filter (λ r, r ≠ Ok true) rs)).

(** A row whose title cell is empty in the file: pandas stores NaN. A frame
    with such a record, an empty title and a title of blanks. *)
Definition nan_title_row : Row := {[ "title" := Py.VNaN ]}.
Definition empty_titles_frame : DataFrame :=
  mkDataFrame ["title"] [[Py.VNaN]; [Py.VStr ""]; [Py.VStr "  "]].

(** * Properties *)

(** ** What each repository method does, for any fault oracle *)

Lemma quiet_le fails k k' : quiet fails k → (k ≤ k')%nat → quiet fails k'.
Proof. intros H Hle n Hn. apply H. lia. Qed.

Lemma quiet_here fails k : quiet fails k → fails k = false.
Proof. intros H. apply H. lia. Qed.

Section RepositoryFacts.
Variable fails : nat → bool.

Lemma get_session_ok {A} (body : Db.store → A * Db.store) w :
  fails (Db.sessions (db w)) = false →
  get_session fails body w =
    (Ok (body (Db.tick (db w))).1, set_db (body (Db.tick (db w))).2 w).
Proof.
  intros Hf. unfold get_session. rewrite Hf.
  destruct (body (Db.tick (db w))); reflexivity.
Qed.

Lemma get_session_fail {A} (body : Db.store → A * Db.store) w :
  fails (Db.sessions (db w)) = true →
  get_session fails body w =
    (Raise SQLAlchemyError, set_db (Db.tick (db w)) w).
Proof. intros Hf. unfold get_session. rewrite Hf. reflexivity. Qed.

(** [get_by_title] never raises: a storage error is answered by [None]. *)
Lemma get_by_title_eq title w :
  PageRepository.get_by_title fails title w =
    (Ok (if fails (Db.sessions (db w)) then None
         else PageRepository._to_entity <$>
                head (Db.select_page_by_title title (db w))),
     set_db (Db.tick (db w)) w).
Proof.
  unfold PageRepository.get_by_title, try_except, bind, _execute_query,
    get_session.
  destruct (fails _); [reflexivity|].
  change (Db.select_page_by_title title (Db.tick (db w)))
    with (Db.select_page_by_title title (db w)).
  destruct (Db.select_page_by_title title (db w)); reflexivity.
Qed.

Lemma get_by_name_eq name w :
  CategoryRepository.get_by_name fails name w =
    (Ok (if fails (Db.sessions (db w)) then None
         else CategoryRepository._to_entity <$>
                head (Db.select_category_by_name name (db w))),
     set_db (Db.tick (db w)) w).
Proof.
  unfold CategoryRepository.get_by_name, try_except, bind, _execute_query,
    get_session.
  destruct (fails _); [reflexivity|].
  change (Db.select_category_by_name name (Db.tick (db w)))
    with (Db.select_category_by_name name (db w)).
  destruct (Db.select_category_by_name name (db w)); reflexivity.
Qed.

(** [link_page_to_category] never raises either. *)
Lemma link_page_to_category_eq page_id category_id w :
  CategoryRepository.link_page_to_category fails page_id category_id w =
    if fails (Db.sessions (db w)) then (Ok None, set_db (Db.tick (db w)) w)
    else (Ok (Some (mkPage_Category page_id category_id)),
          set_db (Db.insert_page_category page_id category_id
                    (Db.tick (db w))).2 w).
Proof.
  unfold CategoryRepository.link_page_to_category, try_except, bind,
    get_session.
  destruct (fails _); reflexivity.
Qed.
End RepositoryFacts.

(** ** Reasoning about computations: postconditions and frames *)

Lemma wp_run {A} (m : M A) Q w r w' : wp m Q w → m w = (r, w') → Q r w'.
Proof. unfold wp. intros H E. rewrite E in H. exact H. Qed.

Lemma wp_mono {A} (m : M A) (Q Q' : res A → world → Prop) w :
  wp m Q w → (∀ r w', Q r w' → Q' r w') → wp m Q' w.
Proof. unfold wp. auto. Qed.

Lemma wp_ret {A} (a : A) (Q : res A → world → Prop) w :
  Q (Ok a) w → wp (ret a) Q w.
Proof. auto. Qed.

Lemma wp_raise {A} e (Q : res A → world → Prop) w :
  Q (Raise e) w → wp (raise e) Q w.
Proof. auto. Qed.

Lemma wp_lift {A} (r : res A) (Q : res A → world → Prop) w :
  Q r w → wp (lift r) Q w.
Proof. auto. Qed.

Lemma wp_bind {A B} (m : M A) (k : A → M B) (Q : res B → world → Prop) w :
  wp m (λ r w', match r with
                | Ok a => wp (k a) Q w'
                | Raise e => Q (Raise e) w'
                end) w →
  wp (bind m k) Q w.
Proof.
  unfold wp, bind. destruct (m w) as [[a|e] w']; cbn; auto.
Qed.

Lemma wp_try_except {A} (handles : exn → bool) (m h : M A)
    (Q : res A → world → Prop) w :
  wp m (λ r w', match r with
                | Ok a => Q (Ok a) w'
                | Raise e =>
                    if handles e then wp h Q w' else Q (Raise e) w'
                end) w →
  wp (try_except handles m h) Q w.
Proof.
  unfold wp, try_except. destruct (m w) as [[a|e] w']; cbn; auto.
  destruct (handles e); auto.
Qed.

Lemma wp_get_session fails {A} (body : Db.store → A * Db.store)
    (Q : res A → world → Prop) w :
  (fails (Db.sessions (db w)) = true →
   Q (Raise SQLAlchemyError) (set_db (Db.tick (db w)) w)) →
  (fails (Db.sessions (db w)) = false →
   Q (Ok (body (Db.tick (db w))).1) (set_db (body (Db.tick (db w))).2 w)) →
  wp (get_session fails body) Q w.
Proof.
  intros Ht Hf. unfold wp, get_session.
  destruct (fails _); [auto|].
  destruct (body (Db.tick (db w))); cbn in *; auto.
Qed.

Lemma wp_for_each {A} (xs : list A) (body : A → M unit)
    (I : world → Prop) (Q : res unit → world → Prop) w :
  I w →
  (∀ x w0, x ∈ xs → I w0 →
     wp (body x) (λ r w', match r with
                          | Ok _ => I w'
                          | Raise e => Q (Raise e) w'
                          end) w0) →
  (∀ w', I w' → Q (Ok tt) w') →
  wp (for_each xs body) Q w.
Proof.
  revert w. induction xs as [|x xs IH]; intros w Hw Hbody Hend.
  - apply wp_ret. auto.
  - cbn [for_each]. apply wp_bind.
    eapply wp_mono; [apply (Hbody x w); [left|exact Hw]|].
    intros [[]|e] w' Hr; [|exact Hr].
    apply IH; [exact Hr| |exact Hend].
    intros y w0 Hy. apply Hbody. right; exact Hy.
Qed.

Lemma steps_moves {A} R (m : M A) : steps R m → moves R m.
Proof. intros H w. eapply wp_mono; [apply H|]. cbn. tauto. Qed.

Lemma steps_run {A} R (m : M A) w :
  steps R m → ∃ a w', m w = (Ok a, w') ∧ R w w'.
Proof.
  intros H. specialize (H w). unfold wp in H.
  destruct (m w) as [r w']. cbn in H. destruct H as [[a ->] HR]. eauto.
Qed.

Section Frames.
Context (R : relation world) `{!PreOrder R}.

Lemma moves_ret {A} (a : A) : moves R (ret a).
Proof. intros w. apply wp_ret. reflexivity. Qed.

Lemma moves_raise {A} e : moves R (@raise A e).
Proof. intros w. apply wp_raise. reflexivity. Qed.

Lemma moves_lift {A} (r : res A) : moves R (lift r).
Proof. intros w. apply wp_lift. reflexivity. Qed.

Lemma moves_bind {A B} (m : M A) (k : A → M B) :
  moves R m → (∀ a, moves R (k a)) → moves R (bind m k).
Proof.
  intros Hm Hk w. apply wp_bind. eapply wp_mono; [apply Hm|].
  intros [a|e] w' Hw; [|exact Hw].
  eapply wp_mono; [apply Hk|]. cbn. intros. etransitivity; eauto.
Qed.

Lemma moves_try_except {A} handles (m h : M A) :
  moves R m → moves R h → moves R (try_except handles m h).
Proof.
  intros Hm Hh w. apply wp_try_except. eapply wp_mono; [apply Hm|].
  intros [a|e] w' Hw; [exact Hw|].
  destruct (handles e); [|exact Hw].
  eapply wp_mono; [apply Hh|]. cbn. intros. etransitivity; eauto.
Qed.

Lemma moves_for_each {A} (xs : list A) (body : A → M unit) :
  (∀ x, moves R (body x)) → moves R (for_each xs body).
Proof.
  intros Hb. induction xs as [|x xs IH].
  - apply moves_ret.
  - cbn [for_each]. apply moves_bind; auto.
Qed.

Lemma moves_get_session fails {A} (body : Db.store → A * Db.store) :
  (∀ w, R w (set_db (Db.tick (db w)) w)) →
  (∀ w, R w (set_db (body (Db.tick (db w))).2 w)) →
  moves R (get_session fails body).
Proof. intros Ht Hb w. apply wp_get_session; auto. Qed.

Lemma steps_ret {A} (a : A) : steps R (ret a).
Proof. intros w. apply wp_ret. split; [eauto|reflexivity]. Qed.

Lemma steps_bind {A B} (m : M A) (k : A → M B) :
  steps R m → (∀ a, steps R (k a)) → steps R (bind m k).
Proof.
  intros Hm Hk w. apply wp_bind. eapply wp_mono; [apply Hm|].
  intros r w' [[a ->] Hw].
  eapply wp_mono; [apply Hk|]. cbn. intros r' w'' [Hr Hw'].
  split; [exact Hr|]. etransitivity; eauto.
Qed.

(** A handler for every exception turns a computation that may raise
    into one that does not. *)
Lemma steps_try_except {A} handles (m h : M A) :
  moves R m → (∀ e, handles e = true) → steps R h →
  steps R (try_except handles m h).
Proof.
  intros Hm Hall Hh w. apply wp_try_except. eapply wp_mono; [apply Hm|].
  intros [a|e] w' Hw; [eauto|].
  rewrite Hall. eapply wp_mono; [apply Hh|]. cbn.
  intros r' w'' [Hr Hw']. split; [exact Hr|]. etransitivity; eauto.
Qed.

Lemma steps_for_each_in {A} (xs : list A) (body : A → M unit) :
  (∀ x, x ∈ xs → steps R (body x)) → steps R (for_each xs body).
Proof.
  induction xs as [|x xs IH]; intros Hb.
  - apply steps_ret.
  - cbn [for_each]. apply steps_bind; [apply Hb; left|].
    intros _. apply IH. intros y Hy. apply Hb. right. exact Hy.
Qed.

Lemma steps_for_each {A} (xs : list A) (body : A → M unit) :
  (∀ x, steps R (body x)) → steps R (for_each xs body).
Proof.
  intros Hb. induction xs as [|x xs IH].
  - apply steps_ret.
  - cbn [for_each]. apply steps_bind; auto.
Qed.
End Frames.

(** ** Frame relations *)

Global Instance keeps_preorder {X} (f : world → X) : PreOrder (keeps f).
Proof.
  split; [intros w; reflexivity|].
  intros a b c H1 H2. unfold keeps in *. congruence.
Qed.

Global Instance extends_preorder {X} (f : world → list X) :
  PreOrder (extends f).
Proof.
  split; [intros w; unfold extends; reflexivity|].
  intros a b c H1 H2. unfold extends in *. etransitivity; eauto.
Qed.

Global Instance later_preorder : PreOrder later.
Proof.
  split; [intros w; unfold later; lia|].
  intros a b c H1 H2. unfold later in *. lia.
Qed.

Global Instance both_preorder R1 R2 :
  PreOrder R1 → PreOrder R2 → PreOrder (both R1 R2).
Proof.
  intros H1 H2. split.
  - intros w. split; reflexivity.
  - intros a b c [? ?] [? ?]. split; etransitivity; eauto.
Qed.

Section RepositoryFrames.
Variable fails : nat → bool.
Context (R : relation world) `{!PreOrder R}.
Hypothesis Htick : across_tick R.

Lemma steps_get_by_title title :
  steps R (PageRepository.get_by_title fails title).
Proof.
  intros w. unfold wp. rewrite get_by_title_eq. cbn. split; [eauto|].
  apply Htick.
Qed.

Lemma steps_get_by_name name :
  steps R (CategoryRepository.get_by_name fails name).
Proof.
  intros w. unfold wp. rewrite get_by_name_eq. cbn. split; [eauto|].
  apply Htick.
Qed.

Lemma steps_link_page_to_category page_id category_id :
  across R (Db.insert_page_category page_id category_id) →
  steps R (CategoryRepository.link_page_to_category fails page_id
             category_id).
Proof.
  intros Hb w. unfold wp. rewrite link_page_to_category_eq.
  destruct (fails _); cbn; (split; [eauto|]); [apply Htick|apply Hb].
Qed.

Lemma steps_category_create category :
  across R (Db.insert_category (CategoryRepository._from_entity category)) →
  steps R (CategoryRepository.create fails category).
Proof.
  intros Hb w. unfold CategoryRepository.create.
  apply wp_try_except, wp_bind.
  eapply wp_mono; [apply steps_get_by_name|].
  intros r w1 [[existing ->] Hw1].
  destruct existing as [c|].
  { apply wp_ret. split; eauto. }
  apply wp_bind, wp_get_session; intros Hf.
  - cbn. apply wp_ret. split; [eauto|].
    etransitivity; [exact Hw1|apply Htick].
  - apply wp_ret. split; [eauto|].
    etransitivity; [exact Hw1|apply Hb].
Qed.

Lemma steps_get_or_create_by_name name :
  across R (Db.insert_category
              (CategoryRepository._from_entity
                 (CategoryRepository.new_category name))) →
  steps R (CategoryRepository.get_or_create_by_name fails name).
Proof.
  intros Hb. unfold CategoryRepository.get_or_create_by_name.
  apply steps_bind; [done|apply steps_get_by_name|].
  intros [c|]; [apply steps_ret; done|].
  apply steps_bind; [done|apply steps_category_create; exact Hb|].
  intros _. apply steps_get_by_name.
Qed.

Lemma steps_process_category page_id name :
  across R (Db.insert_category
              (CategoryRepository._from_entity
                 (CategoryRepository.new_category name))) →
  (∀ category_id, across R (Db.insert_page_category page_id category_id)) →
  steps R (RepositoryBasedETL.process_category fails page_id name).
Proof.
  intros Hc Hl. unfold RepositoryBasedETL.process_category.
  apply steps_bind; [done|apply steps_get_or_create_by_name; exact Hc|].
  intros [[[cid|] ? ? ?]|]; cbn [Category.id]; try (apply steps_ret; done).
  destruct (negb _); [|apply steps_ret; done].
  apply steps_bind; [done|apply steps_link_page_to_category, Hl|].
  intros _. apply steps_ret; done.
Qed.

(** Category linking never raises, whatever the storage does. *)
Lemma steps_process_categories_for_page page_id categories_str :
  (∀ data, across R (Db.insert_category data)) →
  (∀ category_id, across R (Db.insert_page_category page_id category_id)) →
  steps R (RepositoryBasedETL._process_categories_for_page fails page_id
             categories_str).
Proof.
  intros Hc Hl. unfold RepositoryBasedETL._process_categories_for_page.
  apply steps_for_each; [done|].
  intros name. apply steps_process_category; [done..|apply Hc|exact Hl].
Qed.
End RepositoryFrames.

Ltac frame_side :=
  repeat match goal with
         | |- framed _ => split
         | |- cache_framed _ => unfold cache_framed
         | |- across_tick _ => intros ?
         | |- across _ _ => intros ?
         | |- ∀ _, _ => intros ?
         | |- both _ _ _ _ => split
         end;
  unfold keeps, extends, later, pages_of, projects_of, namespaces_of,
    categories_of, links_of;
  repeat match goal with
         | t : Db.table |- _ => destruct t
         | c : cache_ref |- _ => destruct c
         end;
  cbn;
  first [ reflexivity | lia | apply prefix_app_r; reflexivity ].

Lemma framed_later : framed later.
Proof. frame_side. Qed.
Lemma framed_pages : framed (extends pages_of).
Proof. frame_side. Qed.
Lemma framed_projects : framed (extends projects_of).
Proof. frame_side. Qed.
Lemma framed_namespaces : framed (extends namespaces_of).
Proof. frame_side. Qed.
Lemma framed_categories : framed (extends categories_of).
Proof. frame_side. Qed.
Lemma framed_links : framed (extends links_of).
Proof. frame_side. Qed.

Lemma framed_both R1 R2 : framed R1 → framed R2 → framed (both R1 R2).
Proof.
  intros H1 H2. split; repeat intro; (split; [apply H1|apply H2]).
Qed.

Section CacheFrames.
Variable fails : nat → bool.
Context (R : relation world) `{!PreOrder R}.
Hypothesis Htick : across_tick R.
Hypothesis Hname : ∀ t name, across R (Db.insert_name t name).
Hypothesis Hcache : ∀ c name i w, R w (cache_store c name i w).2.

Lemma moves_get_or_create_cached_gen name cache table :
  moves R (RepositoryBasedETL._get_or_create_cached fails name cache table).
Proof.
  unfold RepositoryBasedETL._get_or_create_cached.
  destruct (_ || _); [apply moves_ret; done|].
  intros w. destruct (cache_of cache w !! name) as [i|] eqn:E.
  - unfold wp. rewrite E. cbn. reflexivity.
  - unfold wp. rewrite E. apply moves_bind; [done..| |].
    + apply moves_get_session; [apply Htick|apply Hname].
    + intros i. apply moves_bind; [done..| |intros; apply moves_ret; done].
      intros w0. apply Hcache.
Qed.
End CacheFrames.

Section ProgramFrames.
Variable fails : nat → bool.
Context (R : relation world) `{!PreOrder R}.
Hypothesis HR : framed R.
Hypothesis Hproject : ∀ name,
  moves R (RepositoryBasedETL._get_or_create_cached fails name ProjectCache
             Db.TProject).
Hypothesis Hnamespace : ∀ name,
  moves R (RepositoryBasedETL._get_or_create_cached fails name NamespaceCache
             Db.TNamespace).

Lemma moves_deref l : moves R (deref l).
Proof.
  intros w. unfold wp, deref. destruct (heap w !! l); cbn; reflexivity.
Qed.

Lemma moves_assign_id l i : moves R (assign_id l i).
Proof.
  intros w. unfold wp, assign_id. destruct (heap w !! l); cbn.
  - apply (framed_heap _ HR).
  - reflexivity.
Qed.

Lemma moves_new_page p : moves R (new_page p).
Proof. intros w. apply (framed_heap _ HR). Qed.

Lemma moves_create page : moves R (PageRepository.create fails page).
Proof.
  unfold PageRepository.create.
  apply moves_try_except; [done..| |apply moves_ret; done].
  apply moves_bind; [done..|apply moves_deref|]. intros p.
  apply moves_bind; [done..| |].
  { apply steps_moves, steps_get_by_title; [done..|apply HR]. }
  intros [existing|]; [apply moves_ret; done|].
  apply moves_bind; [done..| |].
  { apply moves_get_session; apply HR. }
  intros i. apply moves_bind; [done..|apply moves_assign_id|].
  intros _. apply moves_ret; done.
Qed.

Lemma moves_process_row_body row :
  moves R (RepositoryBasedETL.process_row_body fails row).
Proof.
  unfold RepositoryBasedETL.process_row_body.
  destruct (negb _); [apply moves_ret; done|].
  apply moves_bind; [done..| |].
  { apply steps_moves, steps_get_by_title; [done..|apply HR]. }
  intros [existing|]; [apply moves_ret; done|].
  apply moves_bind; [done..| |].
  { destruct (_ && _); [apply Hproject|apply moves_ret; done]. }
  intros project_id. apply moves_bind; [done..| |].
  { destruct (_ && _); [apply Hnamespace|apply moves_ret; done]. }
  intros namespace_id.
  apply moves_bind; [done..|apply moves_lift; done|]. intros views.
  apply moves_bind; [done..|apply moves_new_page|]. intros page.
  apply moves_bind; [done..|apply moves_create|].
  intros [created|]; [|apply moves_ret; done].
  apply moves_bind; [done..|apply moves_deref|]. intros c.
  destruct (Page.id c) as [created_id|]; [|apply moves_ret; done].
  destruct (negb _); [|apply moves_ret; done].
  apply moves_bind; [done..| |intros; apply moves_ret; done].
  destruct (_ && _); [|apply moves_ret; done].
  apply steps_moves, steps_process_categories_for_page;
    [done..|apply HR|apply HR|intros; apply HR].
Qed.

(** The handler of [process_row_with_repository] takes every exception:
    the function returns a boolean, always. *)
Lemma steps_process_row row :
  steps R (RepositoryBasedETL.process_row_with_repository fails row).
Proof.
  unfold RepositoryBasedETL.process_row_with_repository.
  apply steps_try_except; [done..|apply moves_process_row_body|done|].
  apply steps_ret; done.
Qed.

Lemma steps_iterrows cols rows stats :
  steps R (iterrows fails cols rows stats).
Proof.
  revert stats. induction rows as [|row rows IH]; intros stats.
  - apply steps_ret; done.
  - cbn [iterrows]. apply steps_bind; [done..|apply steps_process_row|].
    intros result. apply IH.
Qed.
End ProgramFrames.

Lemma steps_process_row_framed fails R row :
  PreOrder R → framed R → cache_framed R →
  steps R (RepositoryBasedETL.process_row_with_repository fails row).
Proof.
  intros HP HR HC.
  apply steps_process_row; [exact HP|exact HR|..]; intros name;
    apply moves_get_or_create_cached_gen;
    solve [exact HP | apply HR | exact HC].
Qed.

(** ** The row processor returns, and the driver counts *)

Lemma process_row_returns fails row w :
  ∃ b w', RepositoryBasedETL.process_row_with_repository fails row w
          = (Ok b, w').
Proof.
  pose proof (steps_process_row_framed fails later row _ framed_later
                ltac:(frame_side) w) as H.
  unfold wp in H.
  destruct (RepositoryBasedETL.process_row_with_repository fails row w)
    as [r w'].
  cbn in H. destruct H as [[b ->] _]. eauto.
Qed.

Lemma iterrows_step fails cols row rows stats w :
  ∃ b w1,
    RepositoryBasedETL.process_row_with_repository fails (to_dict cols row) w
      = (Ok b, w1) ∧
    iterrows fails cols (row :: rows) stats w
      = iterrows fails cols rows (count b stats) w1.
Proof.
  destruct (process_row_returns fails (to_dict cols row) w) as (b & w1 & E).
  exists b, w1. split; [exact E|].
  cbn [iterrows]. unfold bind. rewrite E. destruct b; reflexivity.
Qed.

Lemma iterrows_counts fails cols rows stats w :
  ∃ stats' w',
    iterrows fails cols rows stats w = (Ok stats', w') ∧
    total_rows stats' = total_rows stats ∧
    pages_created stats' + pages_skipped stats'
      = pages_created stats + pages_skipped stats + Z.of_nat (length rows) ∧
    pages_created stats ≤ pages_created stats' ∧
    pages_skipped stats ≤ pages_skipped stats'.
Proof.
  revert stats w. induction rows as [|row rows IH]; intros stats w.
  - exists stats, w. cbn. repeat split; lia.
  - destruct (iterrows_step fails cols row rows stats w) as (b & w1 & _ & ->).
    destruct (IH (count b stats) w1) as (stats' & w' & E & Ht & Hsum & Hc & Hs).
    exists stats', w'. split; [exact E|].
    rewrite length_cons, Nat2Z.inj_succ.
    destruct b; cbn in *; repeat split; lia.
Qed.

(** The run ends with a summary whose counters add up. *)
Lemma run_summary fails df d :
  ∃ stats w',
    run_simple_etl fails df d = (Ok stats, w') ∧
    total_rows stats = Z.of_nat (length (data df)) ∧
    total_rows stats = pages_created stats + pages_skipped stats ∧
    0 ≤ pages_created stats ∧ 0 ≤ pages_skipped stats.
Proof.
  unfold run_simple_etl.
  destruct (iterrows_counts fails (normalize_column <$> columns df)
              (data df) (mkStats (Z.of_nat (length (data df))) 0 0)
              (RepositoryBasedETL.init d))
    as (stats & w' & E & Ht & Hsum & Hc & Hs).
  exists stats, w'. cbn in *. repeat split; [exact E|lia..].
Qed.

Lemma created_by_cons b rs :
  created_by (Ok b :: rs) = (if b then 1 else 0) + created_by rs ∧
  skipped_by (Ok b :: rs) = (if b then 0 else 1) + skipped_by rs.
Proof.
  unfold created_by, skipped_by. rewrite !filter_cons.
  destruct b.
  - destruct (decide (Ok true = Ok true)) as [_|H]; [|contradiction].
    destruct (decide (Ok true ≠ Ok true)) as [H|_]; [contradiction|].
    cbn [length]. split; lia.
  - destruct (decide (Ok false = Ok true)) as [H|_]; [discriminate|].
    destruct (decide (Ok false ≠ Ok true)) as [_|H];
      [|contradiction H; discriminate].
    cbn [length]. split; lia.
Qed.

(** The counters that the loop returns are its counters at the start plus
    the numbers of answers of the row processor that are and are not True,
    and the loop ends in the state that the last record left. *)
Lemma iterrows_answers fails cols rows stats w :
  let tr := answers fails cols rows w in
  iterrows fails cols rows stats w
  = (Ok (mkStats (total_rows stats)
                 (pages_created stats + created_by tr.1)
                 (pages_skipped stats + skipped_by tr.1)), tr.2) ∧
  length tr.1 = length rows ∧
  Forall (λ r, ∃ b, r = Ok b) tr.1.
Proof.
  revert stats w. induction rows as [|cells rows IH]; intros stats w.
  { cbn. unfold created_by, skipped_by. cbn. rewrite !Z.add_0_r.
    destruct stats. split; [reflexivity|]. split; [reflexivity|constructor]. }
  destruct (iterrows_step fails cols cells rows stats w) as (b & w1 & E & ->).
  cbn [answers]. cbv zeta. rewrite E. cbn [fst snd].
  destruct (IH (count b stats) w1) as (Hrun & Hlen & Hall).
  cbv zeta in Hrun, Hlen, Hall. rewrite Hrun.
  destruct (created_by_cons b (answers fails cols rows w1).1) as [-> ->].
  split; [|split].
  - destruct b; cbn [count total_rows pages_created pages_skipped];
      do 2 f_equal; f_equal; lia.
  - cbn [length]. rewrite Hlen. reflexivity.
  - constructor; [eauto|exact Hall].
Qed.

(** C9. The summary of [run_simple_etl] satisfies
    [total_rows = pages_created + pages_skipped], and [total_rows] is the
    number of data rows of the frame: the run always returns a summary, and
    every turn of the loop adds one to [pages_created] when the row
    processor returned true and one to [pages_skipped] otherwise. The
    summary is tied to the records: with the answers of the row processor
    to the records of the frame, taken in order from the empty caches on,
    there is one answer per record, each a boolean, [pages_created] is the
    number of answers that are True, [pages_skipped] the number of the
    others, and the run ends in the state that the last record left. *)
Theorem C9_summary_adds_up fails df d :
  (∃ stats w',
     run_simple_etl fails df d = (Ok stats, w') ∧
     total_rows stats = Z.of_nat (length (data df)) ∧
     total_rows stats = pages_created stats + pages_skipped stats ∧
     0 ≤ pages_created stats ∧ 0 ≤ pages_skipped stats) ∧
  (∀ cols row rows stats w,
     ∃ b w1,
       RepositoryBasedETL.process_row_with_repository fails
         (to_dict cols row) w = (Ok b, w1) ∧
       iterrows fails cols (row :: rows) stats w
         = iterrows fails cols rows
             (if b
              then mkStats (total_rows stats) (pages_created stats + 1)
                           (pages_skipped stats)
              else mkStats (total_rows stats) (pages_created stats)
                           (pages_skipped stats + 1)) w1) ∧
  (let tr := answers fails (normalize_column <$> columns df) (data df)
               (RepositoryBasedETL.init d) in
   ∃ stats,
     run_simple_etl fails df d = (Ok stats, tr.2) ∧
     length tr.1 = length (data df) ∧
     Forall (λ r, ∃ b, r = Ok b) tr.1 ∧
     total_rows stats = Z.of_nat (length (data df)) ∧
     pages_created stats = created_by tr.1 ∧
     pages_skipped stats = skipped_by tr.1).
Proof.
  split; [apply run_summary|].
  split; [intros cols row rows stats w; apply iterrows_step|].
  intros tr. unfold run_simple_etl.
  destruct (iterrows_answers fails (normalize_column <$> columns df)
              (data df) (mkStats (Z.of_nat (length (data df))) 0 0)
              (RepositoryBasedETL.init d)) as (Hrun & Hlen & Hall).
  eexists. split; [exact Hrun|]. split; [exact Hlen|].
  split; [exact Hall|]. cbn [total_rows pages_created pages_skipped].
  split; [reflexivity|]. split; reflexivity.
Qed.

Lemma C9_summary_adds_up_witness :
  (run_simple_etl no_faults twice_frame Db.empty).1 = Ok (mkStats 4 1 3) ∧
  (answers no_faults (normalize_column <$> columns twice_frame)
     (data twice_frame) (RepositoryBasedETL.init Db.empty)).1
  = [Ok true; Ok false; Ok false; Ok false].
Proof.
  destruct (C9_summary_adds_up no_faults twice_frame Db.empty)
    as (_ & _ & stats & E & _ & _ & Ht & Hc & Hs).
  assert (Ha : (answers no_faults (normalize_column <$> columns twice_frame)
                  (data twice_frame) (RepositoryBasedETL.init Db.empty)).1
               = [Ok true; Ok false; Ok false; Ok false])
    by (vm_compute; reflexivity).
  split; [|exact Ha].
  rewrite E. cbn [fst]. rewrite Ha in Hc, Hs.
  destruct stats as [t c k]. cbn in Ht, Hc, Hs. subst t c k.
  reflexivity.
Defined.

Lemma truthy_empty : Py.truthy (Py.VStr "") = false.
Proof. reflexivity. Qed.

Lemma process_row_blank fails row w :
  title_of row = "" →
  RepositoryBasedETL.process_row_with_repository fails row w = (Ok false, w).
Proof.
  intros Hblank.
  unfold RepositoryBasedETL.process_row_with_repository,
    RepositoryBasedETL.process_row_body, try_except.
  rewrite Hblank, truthy_empty. reflexivity.
Qed.

(** C8, with the failing input. What the guard [if not title] skips is a
    record whose title is the empty string once [str()] and [strip()] have
    been applied: a record without a title column, and a title cell that is
    a string of white space. Such a record makes the row processor return
    false with the whole program state as it was (no session is opened, the
    caches and the heap are untouched), and the driver adds one to
    [pages_skipped] and nothing to [pages_created]. An empty title cell of
    the file is not such a record: pandas stores NaN for it, [str()] turns
    the NaN into the title "nan", the guard lets it pass, and the record
    opens sessions and creates a page titled "nan". *)
Theorem C8_empty_title_cell_creates_page :
  (∀ fails row w,
     title_of row = "" →
     RepositoryBasedETL.process_row_with_repository fails row w
     = (Ok false, w) ∧
     ∀ cols cells rows stats,
       to_dict cols cells = row →
       iterrows fails cols (cells :: rows) stats w
       = iterrows fails cols rows
           (mkStats (total_rows stats) (pages_created stats)
                    (pages_skipped stats + 1)) w) ∧
  (∀ row,
     (row !! "title" = None ∨
      ∃ s, row !! "title" = Some (Py.VStr s) ∧ Py.strip s = "") →
     title_of row = "") ∧
  (∀ row, row !! "title" = Some Py.VNaN → title_of row = "nan") ∧
  (let r := RepositoryBasedETL.process_row_with_repository no_faults
              nan_title_row (RepositoryBasedETL.init Db.empty) in
   r.1 = Ok true ∧
   pages_of r.2 = [Db.mkPageRow 1 "nan" None 0 "stub" None ""] ∧
   Db.sessions (db r.2) = 3%nat) ∧
  (let r := run_simple_etl no_faults empty_titles_frame Db.empty in
   r.1 = Ok (mkStats 3 1 2) ∧
   pages_of r.2 = [Db.mkPageRow 1 "nan" None 0 "stub" None ""]).
Proof.
  split; [|split; [|split; [|split]]].
  - intros fails row w Hblank.
    split; [apply process_row_blank, Hblank|].
    intros cols cells rows stats E. cbn [iterrows]. unfold bind.
    rewrite E, process_row_blank by exact Hblank. reflexivity.
  - intros row [Hnone|(s & Hs & Hblank)]; unfold title_of, dict_get.
    + rewrite Hnone. reflexivity.
    + rewrite Hs. exact Hblank.
  - intros row Hnan. unfold title_of, dict_get. rewrite Hnan. reflexivity.
  - vm_compute. repeat split; reflexivity.
  - vm_compute. repeat split; reflexivity.
Qed.

Lemma C8_empty_title_cell_creates_page_witness :
  title_of blank_row = "" ∧
  RepositoryBasedETL.process_row_with_repository no_faults blank_row
    (RepositoryBasedETL.init Db.empty)
  = (Ok false, RepositoryBasedETL.init Db.empty).
Proof.
  destruct C8_empty_title_cell_creates_page as (Hskip & Hblank & _).
  assert (Ht : title_of blank_row = "").
  { apply Hblank. right. exists "  	 ". split; reflexivity. }
  split; [exact Ht|].
  apply (Hskip no_faults blank_row (RepositoryBasedETL.init Db.empty) Ht).
Defined.

(** ** [PageRepository.create] *)

(** The three ways [create] can go on a reference to a [Page]: the title is
    found, the insert fails, the insert succeeds. A storage error of the
    existence check is answered by [None] inside [get_by_title], so [create]
    goes on to the insert. *)
Lemma create_eq fails page p w :
  heap w !! page = Some p →
  PageRepository.create fails page w =
    let d := db w in
    if negb (fails (Db.sessions d)) &&
       bool_decide (Db.select_page_by_title (Page.title p) d ≠ [])
    then (Ok None, set_db (Db.tick d) w)
    else if fails (S (Db.sessions d))
    then (Ok None, set_db (Db.tick (Db.tick d)) w)
    else
      let r := Db.insert_page (PageRepository._from_entity p)
                              (Db.tick (Db.tick d)) in
      (Ok (Some page),
       mkWorld r.2 (<[page := Page.set_id (Some r.1) p]> (heap w))
               (project_cache w) (namespace_cache w)).
Proof.
  intros Hp.
  unfold PageRepository.create, try_except, bind, deref.
  rewrite Hp, get_by_title_eq.
  destruct (fails (Db.sessions (db w))) eqn:E1; cbn.
  - unfold get_session. cbn.
    destruct (fails (S (Db.sessions (db w)))); [reflexivity|].
    cbn. unfold assign_id. cbn. rewrite Hp. reflexivity.
  - destruct (Db.select_page_by_title (Page.title p) (db w)) eqn:E2; cbn.
    + unfold get_session. cbn.
      destruct (fails (S (Db.sessions (db w)))); [reflexivity|].
      cbn. unfold assign_id. cbn. rewrite Hp. reflexivity.
    + reflexivity.
Qed.



(** ** The row processor, whatever the storage does *)

Lemma moves_cached_core fails name cache table :
  moves (both later (keeps core_of))
    (RepositoryBasedETL._get_or_create_cached fails name cache table).
Proof.
  apply moves_get_or_create_cached_gen; [apply _|..];
    unfold core_of; frame_side.
Qed.

Lemma steps_categories_core fails page_id categories_str :
  steps (both later
           (keeps (λ w, (pages_of w, Db.page_seq (db w), heap w))))
    (RepositoryBasedETL._process_categories_for_page fails page_id
       categories_str).
Proof.
  apply steps_process_categories_for_page; [apply _|..]; frame_side.
Qed.

Lemma truthy_str s : Py.truthy (Py.VStr s) = true → s ≠ "".
Proof.
  cbn. intros H ->. discriminate.
Qed.

Lemma wp_moves_bind {A B} R (m : M A) (k : A → M B)
    (Q : res B → world → Prop) w :
  moves R m →
  (∀ a w', R w w' → wp (k a) Q w') →
  (∀ e w', R w w' → Q (Raise e) w') →
  wp (bind m k) Q w.
Proof.
  intros Hm Hk He. apply wp_bind. eapply wp_mono; [apply Hm|].
  intros [a|e] w' Hw; cbn; auto.
Qed.

Lemma moves_if {A} R (c : bool) (m1 m2 : M A) :
  moves R m1 → moves R m2 → moves R (if c then m1 else m2).
Proof. destruct c; auto. Qed.

Lemma core_pages w w' : keeps core_of w w' → pages_of w' = pages_of w.
Proof. unfold keeps, core_of. congruence. Qed.
Lemma core_seq w w' :
  keeps core_of w w' → Db.page_seq (db w') = Db.page_seq (db w).
Proof. unfold keeps, core_of. congruence. Qed.
Lemma core_cat_core w w' : keeps core_of w w' → keeps cat_core_of w w'.
Proof. unfold keeps, core_of, cat_core_of. congruence. Qed.

Lemma select_page_pages title d d' :
  Db.page d' = Db.page d →
  Db.select_page_by_title title d' = Db.select_page_by_title title d.
Proof. unfold Db.select_page_by_title. intros ->. reflexivity. Qed.

(** The reference cache raises only when its insert session fails. *)
Lemma cached_outcome fails name cache table w :
  wp (RepositoryBasedETL._get_or_create_cached fails name cache table)
     (λ r w', both later (keeps core_of) w w' ∧
              ((∃ a, r = Ok a) ∨ fails (Db.sessions (db w)) = true)) w.
Proof.
  unfold RepositoryBasedETL._get_or_create_cached.
  destruct (_ || _).
  { apply wp_ret. split; [reflexivity|eauto]. }
  unfold wp. destruct (cache_of cache w !! name) as [i|] eqn:E.
  { cbn. split; [reflexivity|eauto]. }
  change (wp (bind (get_session fails (Db.insert_name table name))
                (λ entity_id, bind (cache_store cache name entity_id)
                                (λ _, ret (Some entity_id))))
            (λ r w', both later (keeps core_of) w w' ∧
                     ((∃ a, r = Ok a) ∨ fails (Db.sessions (db w)) = true)) w).
  apply wp_bind, wp_get_session; intros Hf.
  - split; [unfold core_of; frame_side|auto].
  - apply wp_bind. unfold wp at 1. cbn [cache_store fst snd].
    apply wp_ret. split; [|eauto].
    destruct table, cache; unfold core_of; frame_side.
Qed.

Lemma process_row_body_outcome fails row w :
  wp (RepositoryBasedETL.process_row_body fails row)
     (row_outcome fails row w) w.
Proof.
  unfold RepositoryBasedETL.process_row_body.
  destruct (negb (Py.truthy (Py.VStr (title_of row)))) eqn:Ht.
  { apply wp_ret. split; [reflexivity|]. left.
    split; [reflexivity|]. split; [discriminate|]. left.
    apply negb_true_iff in Ht. cbn in Ht. apply negb_false_iff in Ht.
    apply String.eqb_eq in Ht. exact Ht. }
  apply negb_false_iff, truthy_str in Ht.
  apply wp_bind. unfold wp at 1. rewrite get_by_title_eq. cbn [fst snd].
  set (w1 := set_db (Db.tick (db w)) w).
  assert (H1 : both later (keeps core_of) w w1)
    by (unfold w1, core_of; frame_side).
  assert (Hskip : ∀ e w', both later (keeps core_of) w w' →
                    e ≠ Ok true → skip_reason fails row w →
                    row_outcome fails row w e w').
  { intros e w' [Hl Hc] He Hwhy. split; [exact Hl|]. left.
    split; [apply core_pages, Hc|]. split; [exact He|exact Hwhy]. }
  assert (Hfault : ∀ w', later w w' → fails (Db.sessions (db w')) = true →
                     skip_reason fails row w).
  { intros w' Hl Hf. right. right. right. eauto. }
  match goal with
  | |- wp (match ?c with Some _ => _ | None => ?rest end) _ _ =>
      assert (Hrest : (fails (Db.sessions (db w)) = false →
                Db.select_page_by_title (title_of row) (db w) = []) →
              wp rest (row_outcome fails row w) w1)
  end.
  { intros Hsel.
    apply wp_bind. eapply wp_mono.
    { instantiate (1 := λ r w', both later (keeps core_of) w1 w' ∧
                         ((∃ a, r = Ok a) ∨
                          fails (Db.sessions (db w1)) = true)).
      destruct (_ && _); [apply cached_outcome|].
      apply wp_ret. split; [reflexivity|eauto]. }
    intros r w2 [H2 Hr].
    assert (H2' : both later (keeps core_of) w w2) by (etransitivity; eauto).
    destruct r as [project_id|e].
    2:{ destruct Hr as [[a Ha]|Hf]; [discriminate|].
        apply Hskip; [exact H2'|discriminate|].
        apply (Hfault w1); [apply H1|exact Hf]. }
    clear H2 Hr.
    apply wp_bind. eapply wp_mono.
    { instantiate (1 := λ r w', both later (keeps core_of) w2 w' ∧
                         ((∃ a, r = Ok a) ∨
                          fails (Db.sessions (db w2)) = true)).
      destruct (_ && _); [apply cached_outcome|].
      apply wp_ret. split; [reflexivity|eauto]. }
    intros r w3 [H3 Hr].
    assert (H3' : both later (keeps core_of) w w3) by (etransitivity; eauto).
    destruct r as [namespace_id|e].
    2:{ destruct Hr as [[a Ha]|Hf]; [discriminate|].
        apply Hskip; [exact H3'|discriminate|].
        apply (Hfault w2); [apply H2'|exact Hf]. }
    clear H3 Hr H2' w2.
    apply wp_bind, wp_lift.
    destruct (views_of row) as [views|e] eqn:Hv.
    2:{ apply Hskip; [exact H3'|discriminate|].
        right. right. left. eauto. }
    apply wp_bind. unfold wp at 1. cbn [new_page fst snd].
    set (p := Page.mk _ _ _ _ _ _ _ _ _).
    set (w4 := set_heap _ w3).
    assert (Hp : heap w4 !! length (heap w3) = Some p).
    { unfold w4. cbn. apply list_lookup_middle. reflexivity. }
    apply wp_bind. unfold wp at 1.
    rewrite (create_eq fails _ p w4 Hp). cbn zeta.
    assert (H4 : both later (keeps core_of) w w3) by exact H3'.
    assert (Hpg : pages_of w4 = pages_of w).
    { destruct H3' as [_ Hc]. apply core_pages in Hc. exact Hc. }
    assert (Hseq : Db.page_seq (db w4) = Db.page_seq (db w)).
    { destruct H3' as [_ Hc]. apply core_seq in Hc. exact Hc. }
    assert (Hl4 : later w w4) by (apply H3').
    destruct (negb (fails (Db.sessions (db w4))) && _) eqn:Hfound.
    { cbn [fst snd]. apply wp_ret. split.
      - etransitivity; [apply Hl4|]. frame_side.
      - left. split; [exact Hpg|]. split; [discriminate|].
        right. left. apply andb_true_iff in Hfound as [_ Hfound].
        apply bool_decide_eq_true in Hfound.
        rewrite <- (select_page_pages _ (db w) (db w4)); [exact Hfound|].
        exact Hpg. }
    destruct (fails (S _)) eqn:Hins.
    { cbn [fst snd]. apply wp_ret. split.
      - etransitivity; [apply Hl4|]. frame_side.
      - left. split; [exact Hpg|]. split; [discriminate|].
        right. right. right. exists (S (Db.sessions (db w4))).
        split; [|exact Hins]. unfold later in Hl4. lia. }
    cbn [fst snd].
    set (w5 := mkWorld _ _ _ _).
    set (pr := Db.mkPageRow (Db.page_seq (db w)) (title_of row) project_id
                 views "stub" namespace_id (Page.text p)).
    assert (H5 : later w w5 ∧ pages_of w5 = pages_of w ++ [pr] ∧
                 keeps cat_core_of w w5).
    { split; [|split].
      - etransitivity; [apply Hl4|]. unfold w5. frame_side.
      - unfold w5, pages_of. cbn.
        change (Db.page_seq (db w3)) with (Db.page_seq (db w4)).
        change (Db.page (db w3)) with (pages_of w4).
        rewrite Hseq, Hpg. reflexivity.
      - destruct H3' as [_ Hc]. apply core_cat_core in Hc.
        unfold keeps in *. rewrite <- Hc. reflexivity. }
    assert (Hdone : ∀ b w', negb (Db.p_id pr =? 0) = b →
              both later (keeps pages_of) w5 w' →
              (if b
               then link_step fails row (Db.p_id pr) w5 = (Ok tt, w')
               else w' = w5) →
              row_outcome fails row w (Ok b) w').
    { intros b w' Hb [Hl Hk] Hstep. destruct H5 as (Hl5 & Hp5 & Hc5). split.
      - etransitivity; eauto.
      - right. exists pr, w5. unfold keeps in Hk. rewrite Hk, Hp5, Hb.
        repeat split; auto. }
    apply wp_bind. unfold wp at 1, deref. cbn [heap w5].
    rewrite list_lookup_insert_eq by (eapply lookup_lt_Some; exact Hp).
    cbn [fst snd Page.id Page.set_id Db.insert_page PageRepository._from_entity
         id_truthy p Db.d_id default].
    change (Db.page_seq (Db.tick (Db.tick (db w4))))
      with (Db.page_seq (db w4)).
    rewrite Hseq. change (Db.page_seq (db w)) with (Db.p_id pr).
    destruct (negb (Db.p_id pr =? 0)) eqn:Hid.
    2:{ apply wp_ret. apply Hdone; reflexivity. }
    assert (Hcat : ∃ w', link_step fails row (Db.p_id pr) w5 = (Ok tt, w') ∧
                         both later (keeps pages_of) w5 w').
    { unfold link_step. cbn zeta. destruct (Py.truthy _ && _).
      - pose proof (steps_categories_core fails (Db.p_id pr)
                      (Py.str (dict_get row "categories" Py.VNone)) w5)
          as Hcat.
        unfold wp in Hcat.
        destruct (RepositoryBasedETL._process_categories_for_page _ _ _ w5)
          as [r w'].
        cbn in Hcat. destruct Hcat as [[[] ->] [Hl Hk]].
        exists w'. split; [reflexivity|]. split; [exact Hl|].
        unfold keeps in *. congruence.
      - exists w5. split; reflexivity. }
    destruct Hcat as (w' & Hstep & Hw').
    apply wp_bind. unfold wp at 1.
    pose proof Hstep as Hstep'. unfold link_step in Hstep'.
    cbn zeta in Hstep'. rewrite Hstep'. cbn [fst snd].
    apply wp_ret. apply Hdone; [reflexivity|exact Hw'|exact Hstep]. }
  destruct (fails (Db.sessions (db w))) eqn:Hf.
  { apply Hrest. discriminate. }
  destruct (Db.select_page_by_title (title_of row) (db w)) eqn:Hs.
  { apply Hrest. reflexivity. }
  cbn. apply wp_ret. apply Hskip; [exact H1|discriminate|].
  right. left. rewrite Hs. discriminate.
Qed.

Lemma process_row_outcome fails row w :
  ∃ b w',
    RepositoryBasedETL.process_row_with_repository fails row w = (Ok b, w') ∧
    row_outcome fails row w (Ok b) w'.
Proof.
  pose proof (process_row_body_outcome fails row w) as H.
  unfold RepositoryBasedETL.process_row_with_repository, try_except.
  unfold wp in H.
  destruct (RepositoryBasedETL.process_row_body fails row w) as [[b|e] w'];
    cbn in *.
  - eauto.
  - exists false, w'. split; [reflexivity|].
    destruct H as [Hl [(Hp & _ & Hwhy)|(pr & w5 & H)]].
    + split; [exact Hl|]. left. split; [exact Hp|].
      split; [discriminate|exact Hwhy].
    + destruct H as (_ & _ & _ & _ & _ & _ & _ & Hr & _). discriminate.
Qed.

(** ** The view count *)

(** A view count that [int] rejects makes the record a skipped one: no page
    is inserted, whatever the storage does. *)
Lemma bad_view_count_skips fails row w e :
  views_of row = Raise e →
  ∃ w', RepositoryBasedETL.process_row_with_repository fails row w
        = (Ok false, w') ∧
        pages_of w' = pages_of w.
Proof.
  intros Hv.
  destruct (process_row_outcome fails row w) as (b & w' & E & _ & H).
  destruct H as [(Hp & Hb & _)|(pr & w5 & _ & _ & _ & Hv' & _)];
    [|congruence].
  exists w'. split; [|exact Hp].
  destruct b; [congruence|exact E].
Qed.

(** C2, at the failing inputs. [int(row.get('view_count', 0) or 0)] takes the
    default 0 only when the column is absent (or the value is falsy): on a
    NaN cell and on a non-numeric string it raises ValueError, the handler of
    the row processor returns false, and no page is created: the record is
    skipped, it is not stored with views = 0. *)
Theorem C2_missing_view_count_is_skipped :
  views_of nan_views_row = Raise ValueError ∧
  views_of text_views_row = Raise ValueError ∧
  views_of no_views_row = Ok 0 ∧
  (let r := RepositoryBasedETL.process_row_with_repository no_faults
              nan_views_row (RepositoryBasedETL.init Db.empty) in
   r.1 = Ok false ∧ pages_of r.2 = []) ∧
  (let r := RepositoryBasedETL.process_row_with_repository no_faults
              text_views_row (RepositoryBasedETL.init Db.empty) in
   r.1 = Ok false ∧ pages_of r.2 = []) ∧
  (let r := run_simple_etl no_faults
              (mkDataFrame ["title"; "view_count"] [[Py.VStr "Go"; Py.VNaN]])
              Db.empty in
   r.1 = Ok (mkStats 1 0 1) ∧ pages_of r.2 = []).
Proof. repeat split; vm_compute; reflexivity. Qed.

(** ** The reference caches at the start of a run *)

(** C3, at the failing input. [run_simple_etl] builds the loader and starts
    the loop: [_cache_projects_and_namespaces] is never called, both caches
    are empty when the first record is processed, and a project name that the
    store already holds is inserted again. With the caches loaded first, the
    same loop reuses the stored identifier. *)
Theorem C3_caches_start_empty :
  (∀ d, project_cache (RepositoryBasedETL.init d) = ∅ ∧
        namespace_cache (RepositoryBasedETL.init d) = ∅) ∧
  (∀ fails cols d,
     run_simple_etl fails (mkDataFrame cols []) d
     = (Ok (mkStats 0 0 0), RepositoryBasedETL.init d)) ∧
  (let r := run_simple_etl no_faults eng_frame seeded_store in
   r.1 = Ok (mkStats 1 1 0) ∧
   projects_of r.2 = [Db.mkNameRow 1 "Eng"; Db.mkNameRow 2 "Eng"] ∧
   Db.p_project_id <$> pages_of r.2 = [Some 2]) ∧
  (let r := bind (RepositoryBasedETL._cache_projects_and_namespaces no_faults)
              (λ _, iterrows no_faults (normalize_column <$> columns eng_frame)
                      (data eng_frame) (mkStats 1 0 0))
              (RepositoryBasedETL.init seeded_store) in
   r.1 = Ok (mkStats 1 1 0) ∧
   projects_of r.2 = [Db.mkNameRow 1 "Eng"] ∧
   Db.p_project_id <$> pages_of r.2 = [Some 1]).
Proof.
  split; [intros d; split; reflexivity|].
  split; [intros fails cols d; reflexivity|].
  split; vm_compute; repeat split; reflexivity.
Qed.

(** ** Exceptions at the boundary of a record *)

(** C7 as stated fails: the eighth session of this record, the insert of the
    link, meets a storage error, and the row processor returns true. *)
Lemma C7_counterexample :
  ¬ (∀ fails row w,
       (∃ n, (Db.sessions (db w) ≤ n)%nat ∧
             (n < Db.sessions
                    (db (RepositoryBasedETL.process_row_with_repository
                           fails row w).2))%nat ∧
             fails n = true) →
       (RepositoryBasedETL.process_row_with_repository fails row w).1
       = Ok false).
Proof.
  intros H.
  specialize (H (fails_at 7) cat_row (RepositoryBasedETL.init Db.empty)).
  assert (E : (RepositoryBasedETL.process_row_with_repository (fails_at 7)
                 cat_row (RepositoryBasedETL.init Db.empty)).1 = Ok true)
    by (vm_compute; reflexivity).
  rewrite E in H. discriminate H.
  exists 7%nat. vm_compute. repeat split; lia.
Qed.

(** C7, amended. An exception that reaches the boundary of a record (the
    [try] of [process_row_with_repository]) is caught there: the row
    processor returns false in the world the exception left, the driver
    counts the record as skipped and goes on with the rest of the frame; the
    row processor never raises, and the run always ends with a summary that
    counts every record once. The look-ups and the link insert catch their
    storage errors themselves and return [None]. *)
Theorem C7_boundary_catches fails row w e w1
    (Hraise : RepositoryBasedETL.process_row_body fails row w
              = (Raise e, w1)) :
  RepositoryBasedETL.process_row_with_repository fails row w
    = (Ok false, w1) ∧
  (∀ cols cells rows stats,
     to_dict cols cells = row →
     iterrows fails cols (cells :: rows) stats w
       = iterrows fails cols rows
           (mkStats (total_rows stats) (pages_created stats)
                    (pages_skipped stats + 1)) w1) ∧
  (∀ row' w', ∃ b w'',
     RepositoryBasedETL.process_row_with_repository fails row' w'
       = (Ok b, w'')) ∧
  (∀ df d, ∃ stats w',
     run_simple_etl fails df d = (Ok stats, w') ∧
     pages_created stats + pages_skipped stats
       = Z.of_nat (length (data df))) ∧
  (∀ title w', ∃ r,
     PageRepository.get_by_title fails title w'
       = (Ok r, set_db (Db.tick (db w')) w')) ∧
  (∀ name w', ∃ r,
     CategoryRepository.get_by_name fails name w'
       = (Ok r, set_db (Db.tick (db w')) w')) ∧
  (∀ page_id category_id w', ∃ r w'',
     CategoryRepository.link_page_to_category fails page_id category_id w'
       = (Ok r, w'')).
Proof.
  assert (E : RepositoryBasedETL.process_row_with_repository fails row w
              = (Ok false, w1)).
  { unfold RepositoryBasedETL.process_row_with_repository, try_except.
    rewrite Hraise. reflexivity. }
  split; [exact E|]. split.
  { intros cols cells rows stats Hrow. cbn [iterrows]. unfold bind.
    rewrite Hrow, E. reflexivity. }
  split; [intros; apply process_row_returns|]. split.
  { intros df d.
    destruct (run_summary fails df d) as (stats & w' & Hrun & Ht & Hsum & _).
    exists stats, w'. split; [exact Hrun|lia]. }
  split; [intros; rewrite get_by_title_eq; eauto|].
  split; [intros; rewrite get_by_name_eq; eauto|].
  intros. rewrite link_page_to_category_eq. destruct (fails _); eauto.
Qed.

Lemma C7_boundary_catches_witness :
  RepositoryBasedETL.process_row_with_repository (fails_at 1) proj_row
    (RepositoryBasedETL.init Db.empty)
  = (Ok false,
     mkWorld (Db.mkStore [] [] [] [] [] 1 1 1 1 2) [] ∅ ∅).
Proof.
  apply (C7_boundary_catches (fails_at 1) proj_row
           (RepositoryBasedETL.init Db.empty) SQLAlchemyError).
  vm_compute. reflexivity.
Defined.

(** ** Categories and links *)

Lemma quiet_calm fails n k : quiet fails n → calm fails n k.
Proof. intros H i _. apply H. lia. Qed.

Lemma head_take_1 {A} (l : list A) : head (take 1 l) = head l.
Proof. destruct l; reflexivity. Qed.

Lemma category_named_spec name d c :
  category_named name d = Some c →
  c ∈ Db.category d ∧ Py.lower (Db.c_name c) = Py.lower name.
Proof.
  unfold category_named, Db.select_category_by_name.
  rewrite head_take_1. intros H.
  apply head_Some_elem_of in H.
  apply list_elem_of_filter in H. tauto.
Qed.

Lemma category_named_prefix name d d' c :
  Db.category d `prefix_of` Db.category d' →
  category_named name d = Some c →
  category_named name d' = Some c.
Proof.
  unfold category_named, Db.select_category_by_name.
  rewrite !head_take_1. intros [k ->] H.
  rewrite filter_app.
  destruct (filter _ (Db.category d)); [discriminate|exact H].
Qed.

Lemma category_named_new name d row :
  category_named name d = None →
  Py.lower (Db.c_name row) = Py.lower name →
  head (take 1 (filter (λ r, Py.lower (Db.c_name r) = Py.lower name)
                       (Db.category d ++ [row]))) = Some row.
Proof.
  unfold category_named, Db.select_category_by_name.
  rewrite !head_take_1. intros H Hrow.
  rewrite filter_app.
  destruct (filter _ (Db.category d)); [|discriminate].
  rewrite app_nil_l, filter_cons_True by exact Hrow. reflexivity.
Qed.

Lemma process_category_calm fails page_id name w :
  calm fails (Db.sessions (db w)) 5 →
  ids_ok (db w) →
  wp (RepositoryBasedETL.process_category fails page_id name)
     (category_outcome page_id name w) w.
Proof.
  intros Hcalm [Hids Hseq].
  assert (H0 : fails (Db.sessions (db w)) = false).
  { rewrite <- (Nat.add_0_r (Db.sessions (db w))). apply Hcalm. lia. }
  assert (Hk : ∀ k, (k < 5)%nat → fails (k + Db.sessions (db w))%nat = false).
  { intros k Hk. rewrite Nat.add_comm. apply Hcalm, Hk. }
  pose proof (Hk 1%nat ltac:(lia)) as H1.
  pose proof (Hk 2%nat ltac:(lia)) as H2.
  pose proof (Hk 3%nat ltac:(lia)) as H3.
  pose proof (Hk 4%nat ltac:(lia)) as H4.
  cbn [Nat.add] in H1, H2, H3, H4. clear Hk Hcalm.
  unfold RepositoryBasedETL.process_category,
    CategoryRepository.get_or_create_by_name.
  apply wp_bind, wp_bind. unfold wp at 1.
  rewrite get_by_name_eq, H0. cbn [fst snd].
  destruct (category_named name (db w)) as [c|] eqn:Hc.
  - unfold category_named in Hc. rewrite Hc.
    apply wp_ret. cbn [fmap option_fmap option_map
                       CategoryRepository._to_entity Category.id].
    pose proof (category_named_spec name (db w) c Hc) as [Hin _].
    rewrite Forall_forall in Hids. pose proof (Hids c Hin) as Hid.
    apply Z.eqb_neq in Hid. rewrite Hid. cbn [negb].
    apply wp_bind. unfold wp at 1.
    rewrite link_page_to_category_eq. cbn [db set_db Db.sessions Db.tick].
    rewrite H1. cbn [fst snd]. apply wp_ret.
    split; [reflexivity|]. exists c. cbn.
    split; [exact Hc|]. split; [reflexivity|]. split; [reflexivity|].
    split; [split; [apply Forall_forall, Hids|exact Hseq]|].
    split; [unfold later; cbn; lia|].
    intros Hn. unfold category_named in Hn. congruence.
  - unfold category_named in Hc.
    destruct (Db.select_category_by_name name (db w)) eqn:Hs;
      [|cbn in Hc; discriminate Hc].
    cbn [head fmap option_fmap option_map].
    apply wp_bind.
    unfold CategoryRepository.create.
    apply wp_try_except, wp_bind. unfold wp at 1.
    rewrite get_by_name_eq. cbn [db set_db Db.sessions Db.tick].
    rewrite H1. cbn [fst snd].
    change (Db.select_category_by_name _ (Db.tick (db w)))
      with (Db.select_category_by_name name (db w)).
    rewrite Hs. cbn [head fmap option_fmap option_map].
    apply wp_bind, wp_get_session; cbn [db set_db Db.sessions Db.tick];
      rewrite H2; [discriminate|intros _].
    apply wp_ret.
    unfold wp at 1. rewrite get_by_name_eq.
    cbn [db set_db Db.sessions Db.tick Db.insert_category snd].
    rewrite H3. cbn [fst snd].
    unfold Db.select_category_by_name at 1.
    cbn [Db.category Db.tick Db.category_seq CategoryRepository._from_entity
         CategoryRepository.new_category id_truthy Category.id Category.name
         Category.status Category.text_content default Db.e_id Db.e_name
         Db.e_status Db.e_text_content].
    set (row := Db.mkCategoryRow _ _ _ _).
    rewrite (category_named_new name (db w) row)
      by (unfold category_named; rewrite ?Hs; reflexivity).
    cbn [fmap option_fmap option_map CategoryRepository._to_entity
         Category.id row Db.c_id].
    assert (Hid : (Db.category_seq (db w) =? 0) = false)
      by (apply Z.eqb_neq; lia).
    rewrite Hid. cbn [negb].
    apply wp_bind. unfold wp at 1.
    rewrite link_page_to_category_eq.
    cbn [db set_db Db.sessions Db.tick].
    rewrite H4. cbn [fst snd]. apply wp_ret.
    split; [reflexivity|]. exists row.
    split.
    { cbn. unfold category_named, Db.select_category_by_name. cbn [Db.category].
      apply (category_named_new name (db w) row); [|reflexivity].
      unfold category_named. rewrite Hs. reflexivity. }
    split; [reflexivity|].
    split; [cbn; apply prefix_app_r; reflexivity|].
    split.
    { split; cbn; [|lia]. apply Forall_app. split; [exact Hids|].
      apply Forall_singleton. cbn. lia. }
    split; [unfold later; cbn; lia|]. reflexivity.
Qed.

Lemma category_id_named name d c :
  category_named name d = Some c → category_id name d = Db.c_id c.
Proof. unfold category_id. intros ->. reflexivity. Qed.

Lemma for_each_categories_quiet fails page_id names w :
  quiet fails (Db.sessions (db w)) →
  ids_ok (db w) →
  wp (for_each names (RepositoryBasedETL.process_category fails page_id))
     (categories_outcome page_id names w) w.
Proof.
  revert w. induction names as [|name names IH]; intros w Hq Hids.
  - apply wp_ret. unfold categories_outcome. cbn [fmap list_fmap].
    rewrite app_nil_r.
    split; [reflexivity|]. split; [reflexivity|]. split; [constructor|].
    split; [reflexivity|]. split; [exact Hids|reflexivity].
  - cbn [for_each]. apply wp_bind.
    eapply wp_mono;
      [apply process_category_calm; [apply quiet_calm, Hq|exact Hids]|].
    intros r w1 (-> & c & Hc & Hl & Hp & Hids1 & Hlat & _).
    eapply wp_mono; [apply IH; [eapply quiet_le; eauto|exact Hids1]|].
    intros r w' (-> & Hl' & Hall & Hp' & Hids' & Hlat').
    assert (Hc' : category_named name (db w') = Some c)
      by (eapply category_named_prefix; eauto).
    split; [reflexivity|]. split; [|split; [|split; [|split]]].
    + rewrite Hl', Hl, <- app_assoc. cbn.
      rewrite (category_id_named _ _ _ Hc'). reflexivity.
    + constructor; [rewrite Hc'; eauto|exact Hall].
    + etransitivity; eauto.
    + exact Hids'.
    + etransitivity; eauto.
Qed.

(** ** A record that creates its page *)

(** On a quiet storage, a record with a title that no page answers to and a
    view count that is an integer creates its page. *)
Lemma process_row_creates fails row w v :
  quiet fails (Db.sessions (db w)) →
  title_of row ≠ "" →
  Db.select_page_by_title (title_of row) (db w) = [] →
  views_of row = Ok v →
  ∃ w' pr w5,
    RepositoryBasedETL.process_row_with_repository fails row w
      = (Ok (negb (Db.p_id pr =? 0)), w') ∧
    later w w' ∧
    pages_of w' = pages_of w ++ [pr] ∧
    Db.p_title pr = title_of row ∧
    Db.p_id pr = Db.page_seq (db w) ∧
    Db.p_views pr = v ∧
    Db.p_status pr = "stub" ∧
    later w w5 ∧ keeps cat_core_of w w5 ∧
    (if negb (Db.p_id pr =? 0)
     then link_step fails row (Db.p_id pr) w5 = (Ok tt, w')
     else w' = w5).
Proof.
  intros Hq Ht Hnew Hv.
  destruct (process_row_outcome fails row w) as (b & w' & E & Hl & H).
  destruct H as [(_ & _ & Hwhy)|(pr & w5 & H)].
  { exfalso. destruct Hwhy as [H|[H|[[e H]|(n & Hn & H)]]];
      [congruence|congruence|congruence|].
    rewrite (Hq n Hn) in H. discriminate. }
  destruct H as (Hp & Hti & Hid & Hv' & Hst & _ & _ & Hb & Hl5 & Hk & Hstep).
  exists w', pr, w5. inversion Hb; subst b.
  rewrite Hv in Hv'. inversion Hv'; subst v.
  repeat split; assumption.
Qed.

Lemma ids_ok_cat_core w w' :
  keeps cat_core_of w w' → ids_ok (db w) → ids_ok (db w').
Proof.
  unfold keeps, cat_core_of, categories_of, ids_ok.
  intros H [H1 H2]. inversion H as [[Hc Hs Hl]]. rewrite Hc, Hs. auto.
Qed.

Lemma cat_core_links w w' : keeps cat_core_of w w' → links_of w' = links_of w.
Proof. unfold keeps, cat_core_of. congruence. Qed.

Global Instance named_by_preorder names : PreOrder (named_by names).
Proof.
  split; [intros w c Hc; left; exact Hc|].
  intros w1 w2 w3 H12 H23 c Hc.
  destruct (H23 c Hc) as [H|H]; [apply H12, H|right; exact H].
Qed.

Lemma steps_loop_named fails page_id names :
  steps (named_by names)
    (for_each names (RepositoryBasedETL.process_category fails page_id)).
Proof.
  apply steps_for_each_in; [apply _|]. intros name Hname.
  apply steps_process_category; [apply _|..].
  - intros w c Hc. left. exact Hc.
  - intros w c Hc. unfold categories_of in Hc. cbn in Hc.
    apply elem_of_app in Hc as [Hc|Hc]; [left; exact Hc|].
    apply list_elem_of_singleton in Hc. subst c. right. exact Hname.
  - intros category_id w c Hc. left. exact Hc.
Qed.

Lemma category_named_None name d c :
  category_named name d = None →
  c ∈ Db.category d → Py.lower (Db.c_name c) ≠ Py.lower name.
Proof.
  unfold category_named, Db.select_category_by_name.
  rewrite head_take_1. intros Hn Hc Hlow.
  assert (Hin : c ∈ filter (λ r, Py.lower (Db.c_name r) = Py.lower name)
                      (Db.category d))
    by (apply list_elem_of_filter; auto).
  destruct (filter _ (Db.category d)); [|discriminate].
  apply not_elem_of_nil in Hin. exact Hin.
Qed.

Lemma cat_core_categories w w' :
  keeps cat_core_of w w' → categories_of w' = categories_of w.
Proof. unfold keeps, cat_core_of. congruence. Qed.

(** C5. A record that creates its page, on a storage that meets no error:
    the categories field is split on semicolons, the tokens are trimmed and
    the empty ones dropped, and the link table gains exactly one row per
    token, in the order of the tokens, duplicates kept, from the new page to
    the category that answers to the token (a row of the category table whose
    lower-cased name is the lower-cased token); when no category answered to
    the token before and no other token has its lower-casing, that category
    is named by the token itself. The row processor returns true. The field
    "A; B ;C" has the three tokens "A", "B", "C". *)
Theorem C5_category_fan_out fails row w v
    (Hquiet : quiet fails (Db.sessions (db w)))
    (Htitle : title_of row ≠ "")
    (Hnew : Db.select_page_by_title (title_of row) (db w) = [])
    (Hviews : views_of row = Ok v)
    (Hseq : Db.page_seq (db w) ≠ 0)
    (Hids : ids_ok (db w))
    (Hcats : Py.truthy (dict_get row "categories" Py.VNone) &&
             negb (Py.isna (dict_get row "categories" Py.VNone)) = true) :
  let names :=
    RepositoryBasedETL.category_names
      (Py.str (dict_get row "categories" Py.VNone)) in
  (∃ w',
     RepositoryBasedETL.process_row_with_repository fails row w
       = (Ok true, w') ∧
     (∃ pr, pages_of w' = pages_of w ++ [pr] ∧
            Db.p_id pr = Db.page_seq (db w) ∧
            Db.p_title pr = title_of row) ∧
     links_of w' =
       links_of w ++
       ((λ name, (Db.page_seq (db w), category_id name (db w'))) <$> names) ∧
     length (links_of w') = (length (links_of w) + length names)%nat ∧
     Forall (λ name,
               ∃ c, c ∈ categories_of w' ∧
                    Py.lower (Db.c_name c) = Py.lower name ∧
                    Db.c_id c = category_id name (db w') ∧
                    (category_named name (db w) = None →
                     (∀ name', name' ∈ names →
                               Py.lower name' = Py.lower name →
                               name' = name) →
                     Db.c_name c = name)) names) ∧
  RepositoryBasedETL.category_names "A; B ;C" = ["A"; "B"; "C"] ∧
  RepositoryBasedETL.category_names "A;;A; " = ["A"; "A"].
Proof.
  intros names. split; [|split; reflexivity].
  destruct (process_row_creates fails row w v Hquiet Htitle Hnew Hviews)
    as (w' & pr & w5 & E & Hl & Hp & Hti & Hid & _ & _ & Hl5 & Hk & Hstep).
  assert (Hnz : negb (Db.p_id pr =? 0) = true).
  { apply negb_true_iff, Z.eqb_neq. rewrite Hid. exact Hseq. }
  rewrite Hnz in E, Hstep.
  unfold link_step in Hstep. cbn zeta in Hstep. rewrite Hcats in Hstep.
  unfold RepositoryBasedETL._process_categories_for_page in Hstep.
  cbn zeta in Hstep. fold names in Hstep.
  pose proof (for_each_categories_quiet fails (Db.p_id pr) names w5
                (quiet_le _ _ _ Hquiet Hl5) (ids_ok_cat_core _ _ Hk Hids))
    as Hloop.
  destruct (steps_run _ _ w5 (steps_loop_named fails (Db.p_id pr) names))
    as (u & w0 & E0 & Hnamed).
  rewrite Hstep in E0. inversion E0; subst u w0. clear E0.
  apply (wp_run _ _ _ _ _ Hloop) in Hstep.
  destruct Hstep as (_ & Hlinks & Hall & _ & _ & _).
  rewrite (cat_core_links _ _ Hk), Hid in Hlinks.
  exists w'. split; [exact E|]. split; [eauto|]. split; [exact Hlinks|].
  split; [rewrite Hlinks, length_app, length_fmap; reflexivity|].
  eapply Forall_impl; [exact Hall|]. cbn.
  intros name [c Hc]. exists c.
  destruct (category_named_spec _ _ _ Hc) as [Hin Hlow].
  split; [exact Hin|]. split; [exact Hlow|].
  split; [symmetry; apply category_id_named, Hc|].
  intros Hfresh Hdistinct.
  destruct (Hnamed c Hin) as [Hold|Hadded].
  - exfalso. rewrite (cat_core_categories _ _ Hk) in Hold.
    exact (category_named_None _ _ _ Hfresh Hold Hlow).
  - apply Hdistinct; assumption.
Qed.

Lemma quiet_no_faults k : quiet no_faults k.
Proof. intros n _. reflexivity. Qed.

Lemma ids_ok_empty : ids_ok Db.empty.
Proof. split; [constructor|reflexivity]. Qed.

Lemma C5_category_fan_out_witness :
  ∃ w',
    RepositoryBasedETL.process_row_with_repository no_faults abc_row
      (RepositoryBasedETL.init Db.empty) = (Ok true, w') ∧
    links_of w' = [(1, 1); (1, 2); (1, 3)] ∧
    Db.c_name <$> categories_of w' = ["A"; "B"; "C"].
Proof.
  destruct (C5_category_fan_out no_faults abc_row
              (RepositoryBasedETL.init Db.empty) 0
              (quiet_no_faults _) ltac:(discriminate) eq_refl eq_refl
              ltac:(discriminate) ids_ok_empty eq_refl)
    as [(w' & E & _ & Hl & _) _].
  exists w'. split; [exact E|].
  vm_compute in E. inversion E. split; reflexivity.
Defined.

(** ** One category does not stop the others *)






(** ** Running the same frame twice *)

Lemma select_page_prefix title d d' :
  Db.page d `prefix_of` Db.page d' →
  Db.select_page_by_title title d ≠ [] →
  Db.select_page_by_title title d' ≠ [].
Proof.
  unfold Db.select_page_by_title. intros [k ->] H.
  rewrite filter_app.
  destruct (filter _ (Db.page d)); [contradiction H; reflexivity|].
  discriminate.
Qed.

Lemma select_page_last title d d' pr :
  Db.page d' = Db.page d ++ [pr] →
  Db.p_title pr = title →
  Db.select_page_by_title title d' ≠ [].
Proof.
  unfold Db.select_page_by_title. intros -> Ht.
  rewrite filter_app, filter_cons_True by (rewrite Ht; reflexivity).
  destruct (filter _ (Db.page d)); discriminate.
Qed.

Lemma not_creatable_prefix row d d' :
  Db.page d `prefix_of` Db.page d' →
  ¬ creatable row d → ¬ creatable row d'.
Proof.
  intros Hp Hn (Ht & Hs & Hv). apply Hn. split; [exact Ht|]. split; [|exact Hv].
  destruct (Db.select_page_by_title (title_of row) d) eqn:E; [reflexivity|].
  exfalso. apply (select_page_prefix (title_of row) _ _ Hp);
    [rewrite E; discriminate|].
  exact Hs.
Qed.

(** A page that answers to the title of the record makes the row processor
    return false after its existence check: one session, nothing written. *)
Lemma process_row_existing fails row w :
  fails (Db.sessions (db w)) = false →
  Db.select_page_by_title (title_of row) (db w) ≠ [] →
  RepositoryBasedETL.process_row_with_repository fails row w
  = (Ok false,
     if decide (title_of row = "") then w else set_db (Db.tick (db w)) w).
Proof.
  intros Hf Hs.
  destruct (decide (title_of row = "")) as [Hb|Hb].
  { apply process_row_blank, Hb. }
  unfold RepositoryBasedETL.process_row_with_repository,
    RepositoryBasedETL.process_row_body, try_except, bind.
  assert (Ht : Py.truthy (Py.VStr (title_of row)) = true).
  { cbn. apply negb_true_iff, String.eqb_neq, Hb. }
  rewrite Ht. cbn [negb]. rewrite get_by_title_eq, Hf.
  destruct (Db.select_page_by_title (title_of row) (db w));
    [contradiction Hs; reflexivity|].
  reflexivity.
Qed.

(** A record for which the row processor returned true has a page that
    answers to its title, whatever the storage did. *)
Lemma process_row_true_found fails row w w' :
  RepositoryBasedETL.process_row_with_repository fails row w = (Ok true, w') →
  Db.select_page_by_title (title_of row) (db w') ≠ [].
Proof.
  intros E.
  destruct (process_row_outcome fails row w) as (b & w0 & E0 & _ & H).
  rewrite E in E0. inversion E0; subst b w0.
  destruct H as [(_ & Hb & _)|(pr & w5 & Hp & Hti & _)];
    [contradiction Hb; reflexivity|].
  eapply select_page_last; eauto.
Qed.

(** One record on a quiet storage: afterwards it is not creatable. *)
Lemma process_row_settles fails row w :
  quiet fails (Db.sessions (db w)) →
  ∃ b w',
    RepositoryBasedETL.process_row_with_repository fails row w = (Ok b, w') ∧
    later w w' ∧
    pages_of w `prefix_of` pages_of w' ∧
    ¬ creatable row (db w') ∧
    (¬ creatable row (db w) → b = false ∧ pages_of w' = pages_of w).
Proof.
  intros Hq.
  destruct (process_row_outcome fails row w) as (b & w' & E & Hl & H).
  exists b, w'. split; [exact E|]. split; [exact Hl|].
  destruct H as [(Hp & Hb & Hwhy)|(pr & w5 & Hp & Hti & _ & Hv & _ & Ht & Hs & _)].
  - assert (Hn : ¬ creatable row (db w)).
    { intros (Ht & Hs & v & Hv).
      destruct Hwhy as [H|[H|[[e H]|(n & Hn & H)]]];
        [congruence|congruence|congruence|].
      rewrite (Hq n Hn) in H. discriminate. }
    split; [unfold pages_of in *; rewrite Hp; reflexivity|].
    split.
    + intros (Ht & Hs & Hv). apply Hn. split; [exact Ht|]. split; [|exact Hv].
      rewrite <- (select_page_pages _ _ _ Hp). exact Hs.
    + intros _. split; [|exact Hp]. destruct b; [contradiction Hb|]; reflexivity.
  - split; [rewrite Hp; apply prefix_app_r; reflexivity|].
    split.
    + intros (_ & Hs' & _).
      apply (select_page_last (title_of row) (db w) (db w') pr Hp Hti Hs').
    + intros Hn. exfalso. apply Hn. split; [exact Ht|].
      split; [apply Hs, quiet_here, Hq|eauto].
Qed.

Lemma iterrows_settles fails cols rows stats w :
  quiet fails (Db.sessions (db w)) →
  ∃ stats' w',
    iterrows fails cols rows stats w = (Ok stats', w') ∧
    later w w' ∧
    pages_of w `prefix_of` pages_of w' ∧
    Forall (λ cells, ¬ creatable (to_dict cols cells) (db w')) rows.
Proof.
  revert stats w. induction rows as [|cells rows IH]; intros stats w Hq.
  - exists stats, w. split; [reflexivity|]. split; [reflexivity|].
    split; [reflexivity|constructor].
  - destruct (process_row_settles fails (to_dict cols cells) w Hq)
      as (b & w1 & E & Hl & Hp & Hn & _).
    destruct (IH (count b stats) w1 (quiet_le _ _ _ Hq Hl))
      as (stats' & w' & E' & Hl' & Hp' & Hall).
    exists stats', w'. split.
    { cbn [iterrows]. unfold bind. rewrite E. destruct b; exact E'. }
    split; [etransitivity; eauto|]. split; [etransitivity; eauto|].
    constructor; [|exact Hall].
    eapply not_creatable_prefix; [exact Hp'|exact Hn].
Qed.

Lemma not_creatable_pages row d d' :
  Db.page d' = Db.page d → ¬ creatable row d → ¬ creatable row d'.
Proof.
  intros Hp. apply not_creatable_prefix. rewrite Hp. reflexivity.
Qed.

Lemma iterrows_settled fails cols rows stats w :
  quiet fails (Db.sessions (db w)) →
  Forall (λ cells, ¬ creatable (to_dict cols cells) (db w)) rows →
  ∃ stats' w',
    iterrows fails cols rows stats w = (Ok stats', w') ∧
    pages_of w' = pages_of w ∧
    total_rows stats' = total_rows stats ∧
    pages_created stats' = pages_created stats ∧
    pages_skipped stats' = pages_skipped stats + Z.of_nat (length rows).
Proof.
  revert stats w. induction rows as [|cells rows IH]; intros stats w Hq Hall.
  - exists stats, w. cbn. repeat split; lia.
  - inversion Hall as [|? ? Hn Hall']; subst.
    destruct (process_row_settles fails (to_dict cols cells) w Hq)
      as (b & w1 & E & Hl & _ & _ & Hfalse).
    destruct (Hfalse Hn) as [-> Hp].
    destruct (IH (count false stats) w1 (quiet_le _ _ _ Hq Hl))
      as (stats' & w' & E' & Hp' & Ht & Hc & Hs).
    { eapply Forall_impl; [exact Hall'|]. cbn. intros cells'.
      apply not_creatable_pages. exact Hp. }
    exists stats', w'. split.
    { cbn [iterrows]. unfold bind. rewrite E. exact E'. }
    rewrite length_cons, Nat2Z.inj_succ. cbn in Ht, Hc, Hs.
    repeat split; [congruence|lia..].
Qed.

(** C1. On a storage that meets no error, running the same frame a second
    time, from the store the first run left, creates no page: the second
    summary has [pages_created = 0], every record is counted as skipped, and
    the page table is the one the first run left. For one record: when a
    page answers to its title (lower-cased on both sides), the row processor
    returns false after its existence check, with nothing written; and a
    record for which the row processor returned true has such a page from
    then on. *)
Theorem C1_second_run_creates_nothing fails df d
    (Hquiet : quiet fails (Db.sessions d)) :
  (∃ stats1 w1 stats2 w2,
     run_simple_etl fails df d = (Ok stats1, w1) ∧
     run_simple_etl fails df (db w1) = (Ok stats2, w2) ∧
     pages_created stats2 = 0 ∧
     pages_skipped stats2 = total_rows stats2 ∧
     pages_of w2 = pages_of w1 ∧
     length (pages_of w2) = length (pages_of w1)) ∧
  (∀ row w,
     title_of row ≠ "" →
     fails (Db.sessions (db w)) = false →
     Db.select_page_by_title (title_of row) (db w) ≠ [] →
     RepositoryBasedETL.process_row_with_repository fails row w
     = (Ok false, set_db (Db.tick (db w)) w)) ∧
  (∀ row w w',
     RepositoryBasedETL.process_row_with_repository fails row w
       = (Ok true, w') →
     Db.select_page_by_title (title_of row) (db w') ≠ [] ∧
     ∀ w'', pages_of w' `prefix_of` pages_of w'' →
            Db.select_page_by_title (title_of row) (db w'') ≠ []).
Proof.
  split; [|split].
  - unfold run_simple_etl.
    set (cols := normalize_column <$> columns df).
    set (s0 := mkStats (Z.of_nat (length (data df))) 0 0).
    destruct (iterrows_settles fails cols (data df) s0
                (RepositoryBasedETL.init d) Hquiet)
      as (stats1 & w1 & E1 & Hl1 & _ & Hall).
    destruct (iterrows_settled fails cols (data df) s0
                (RepositoryBasedETL.init (db w1)))
      as (stats2 & w2 & E2 & Hp & Ht & Hc & Hs).
    { eapply quiet_le; [exact Hquiet|exact Hl1]. }
    { exact Hall. }
    exists stats1, w1, stats2, w2.
    split; [exact E1|]. split; [exact E2|]. cbn in Ht, Hc, Hs.
    split; [exact Hc|]. split; [lia|].
    change (pages_of w2 = pages_of w1) in Hp.
    split; [exact Hp|]. rewrite Hp. reflexivity.
  - intros row w Ht Hf Hs.
    rewrite (process_row_existing fails row w Hf Hs).
    destruct (decide (title_of row = "")); [contradiction|reflexivity].
  - intros row w w' E.
    pose proof (process_row_true_found fails row w w' E) as Hfound.
    split; [exact Hfound|].
    intros w'' Hp. eapply select_page_prefix; eauto.
Qed.

Lemma C1_second_run_creates_nothing_witness :
  ∃ stats1 w1 stats2 w2,
    run_simple_etl no_faults twice_frame Db.empty = (Ok stats1, w1) ∧
    run_simple_etl no_faults twice_frame (db w1) = (Ok stats2, w2) ∧
    stats1 = mkStats 4 1 3 ∧ stats2 = mkStats 4 0 4 ∧
    pages_of w2 = pages_of w1 ∧ Db.p_title <$> pages_of w1 = ["Go"].
Proof.
  destruct (C1_second_run_creates_nothing no_faults twice_frame Db.empty
              (quiet_no_faults _))
    as [(stats1 & w1 & stats2 & w2 & E1 & E2 & _ & _ & Hp & _) _].
  exists stats1, w1, stats2, w2.
  split; [exact E1|]. split; [exact E2|].
  vm_compute in E1. inversion E1; subst stats1 w1.
  vm_compute in E2. inversion E2; subst stats2 w2.
  repeat split; reflexivity.
Defined.

(** ** The reference cache *)




Global Instance keeps_caches_ok_preorder : PreOrder keeps_caches_ok.
Proof.
  split; [intros w H; exact H|].
  intros a b c H1 H2 H. apply H2, H1, H.
Qed.









(** * Further properties of the loader *)

Global Instance page_seq_grows_preorder : PreOrder page_seq_grows.
Proof.
  split; [intros w; unfold page_seq_grows; lia|].
  intros a b c H1 H2. unfold page_seq_grows in *. lia.
Qed.

Lemma framed_grows : framed grows.
Proof.
  unfold grows. repeat apply framed_both;
    auto using framed_pages, framed_projects, framed_namespaces,
      framed_categories, framed_links.
Qed.

Lemma cache_framed_grows : cache_framed grows.
Proof. unfold grows. frame_side. Qed.

Lemma framed_page_seq_grows : framed page_seq_grows.
Proof.
  split; try (intros ? w; unfold page_seq_grows; cbn; lia);
    try (intros ? ? w; unfold page_seq_grows; cbn; lia).
  - intros w. unfold page_seq_grows. cbn. lia.
  - intros data w. unfold page_seq_grows. cbn.
    destruct (Db.d_id data); lia.
  - intros t name w. unfold page_seq_grows. destruct t; cbn; lia.
Qed.

Lemma cache_framed_page_seq_grows : cache_framed page_seq_grows.
Proof. intros c name i w. destruct c; unfold page_seq_grows; cbn; lia. Qed.

Lemma steps_iterrows_framed fails R cols rows stats :
  PreOrder R → framed R → cache_framed R →
  steps R (iterrows fails cols rows stats).
Proof.
  intros HP HR HC.
  apply steps_iterrows; [exact HP|exact HR|..]; intros name;
    apply moves_get_or_create_cached_gen;
    solve [exact HP | apply HR | exact HC].
Qed.

(** X1. The loader only appends: whatever the storage does, each of the five
    tables of the store a record or a run starts from is a prefix of the
    table it ends with. No row is deleted, changed or reordered. *)
Theorem run_only_appends fails :
  (∀ row w,
     let w' := (RepositoryBasedETL.process_row_with_repository fails row w).2 in
     pages_of w `prefix_of` pages_of w' ∧
     projects_of w `prefix_of` projects_of w' ∧
     namespaces_of w `prefix_of` namespaces_of w' ∧
     categories_of w `prefix_of` categories_of w' ∧
     links_of w `prefix_of` links_of w') ∧
  (∀ df d,
     let w' := (run_simple_etl fails df d).2 in
     Db.page d `prefix_of` pages_of w' ∧
     Db.project d `prefix_of` projects_of w' ∧
     Db.namespace d `prefix_of` namespaces_of w' ∧
     Db.category d `prefix_of` categories_of w' ∧
     Db.page_category d `prefix_of` links_of w').
Proof.
  split.
  - intros row w w'. subst w'.
    destruct (steps_run grows _ w
                (steps_process_row_framed fails grows row _ framed_grows
                   cache_framed_grows))
      as (b & w' & E & H1 & H2 & H3 & H4 & H5).
    rewrite E. cbn [snd]. auto.
  - intros df d w'. subst w'. unfold run_simple_etl.
    destruct (steps_run grows _ (RepositoryBasedETL.init d)
                (steps_iterrows_framed fails grows
                   (normalize_column <$> columns df) (data df)
                   (mkStats (Z.of_nat (length (data df))) 0 0)
                   _ framed_grows cache_framed_grows))
      as (s & w' & E & H1 & H2 & H3 & H4 & H5).
    rewrite E. cbn [snd]. auto.
Qed.

Lemma process_row_counts_page fails row w :
  0 < Db.page_seq (db w) →
  ∃ b w',
    RepositoryBasedETL.process_row_with_repository fails row w = (Ok b, w') ∧
    0 < Db.page_seq (db w') ∧
    length (pages_of w') = (length (pages_of w) + (if b then 1 else 0))%nat.
Proof.
  intros Hseq.
  destruct (process_row_outcome fails row w) as (b & w' & E & _ & H).
  destruct (steps_run page_seq_grows _ w
              (steps_process_row_framed fails page_seq_grows row _
                 framed_page_seq_grows cache_framed_page_seq_grows))
    as (b1 & w1 & E1 & Hg).
  rewrite E in E1. inversion E1; subst b1 w1. clear E1.
  unfold page_seq_grows in Hg.
  exists b, w'. split; [exact E|]. split; [lia|].
  destruct H as [(Hp & Hb & _)|(pr & w5 & Hp & _ & Hid & _ & _ & _ & _ & Hb & _)].
  - rewrite Hp. destruct b; [contradiction Hb; reflexivity|lia].
  - rewrite Hp, length_app. cbn [length].
    assert (Hnz : negb (Db.p_id pr =? 0) = true).
    { apply negb_true_iff, Z.eqb_neq. lia. }
    rewrite Hnz in Hb. inversion Hb. reflexivity.
Qed.

Lemma iterrows_counts_pages fails cols rows stats w :
  0 < Db.page_seq (db w) →
  ∃ stats' w',
    iterrows fails cols rows stats w = (Ok stats', w') ∧
    Z.of_nat (length (pages_of w'))
    = Z.of_nat (length (pages_of w))
      + (pages_created stats' - pages_created stats).
Proof.
  revert stats w. induction rows as [|cells rows IH]; intros stats w Hseq.
  - exists stats, w. split; [reflexivity|lia].
  - destruct (process_row_counts_page fails (to_dict cols cells) w Hseq)
      as (b & w1 & E & Hseq1 & Hlen).
    destruct (IH (count b stats) w1 Hseq1) as (stats' & w' & E' & Hlen').
    exists stats', w'. split.
    { cbn [iterrows]. unfold bind. rewrite E. destruct b; exact E'. }
    rewrite Hlen', Hlen. destruct b; cbn; lia.
Qed.

(** X2. With page identifiers that start above zero, the [pages_created] of the
    summary is exactly the number of rows that the run added to the page
    table, whatever the storage does. *)
Theorem pages_created_is_rows_added fails df d
    (Hseq : 0 < Db.page_seq d) :
  ∃ stats w',
    run_simple_etl fails df d = (Ok stats, w') ∧
    Z.of_nat (length (pages_of w'))
    = Z.of_nat (length (Db.page d)) + pages_created stats.
Proof.
  unfold run_simple_etl.
  destruct (iterrows_counts_pages fails (normalize_column <$> columns df)
              (data df) (mkStats (Z.of_nat (length (data df))) 0 0)
              (RepositoryBasedETL.init d) Hseq)
    as (stats & w' & E & Hlen).
  exists stats, w'. split; [exact E|]. cbn in Hlen.
  unfold pages_of in *. cbn in Hlen. lia.
Qed.

Lemma pages_created_is_rows_added_witness :
  ∃ stats w',
    run_simple_etl (fails_at 2) twice_frame Db.empty = (Ok stats, w') ∧
    Z.of_nat (length (pages_of w')) = 0 + pages_created stats ∧
    pages_created stats = 1.
Proof.
  destruct (pages_created_is_rows_added (fails_at 2) twice_frame Db.empty
              ltac:(reflexivity))
    as (stats & w' & E & Hlen).
  exists stats, w'. split; [exact E|]. split; [exact Hlen|].
  vm_compute in E. inversion E. reflexivity.
Defined.

Lemma select_page_none title d :
  Db.select_page_by_title title d = [] →
  Py.lower title ∉ lower_titles d.
Proof.
  unfold Db.select_page_by_title, lower_titles. intros Hs Hin.
  apply list_elem_of_fmap in Hin as (r & Hr & Hin).
  assert (Hf : r ∈ filter (λ r, Py.lower (Db.p_title r) = Py.lower title)
                     (Db.page d))
    by (apply list_elem_of_filter; auto).
  destruct (filter _ (Db.page d)); [|discriminate].
  apply not_elem_of_nil in Hf. exact Hf.
Qed.

(** One record keeps the titles of the page table distinct up to case, as
    long as its existence check meets no storage error. *)
Lemma process_row_titles_unique fails row w :
  fails (Db.sessions (db w)) = false →
  NoDup (lower_titles (db w)) →
  NoDup (lower_titles
           (db (RepositoryBasedETL.process_row_with_repository fails row w).2)).
Proof.
  intros Hf Hnd.
  destruct (process_row_outcome fails row w) as (b & w' & E & _ & H).
  rewrite E. cbn [snd].
  destruct H as [(Hp & _)|(pr & w5 & Hp & Hti & _ & _ & _ & _ & Hs & _)].
  - unfold lower_titles. unfold pages_of in Hp. rewrite Hp. exact Hnd.
  - unfold lower_titles. unfold pages_of in Hp. rewrite Hp, fmap_app.
    apply NoDup_app. split; [exact Hnd|]. split.
    + intros x Hx Hx'. cbn in Hx'. apply list_elem_of_singleton in Hx'.
      subst x. rewrite Hti in Hx.
      exact (select_page_none _ _ (Hs Hf) Hx).
    + cbn. apply NoDup_singleton.
Qed.

Lemma iterrows_titles_unique fails cols rows stats w :
  quiet fails (Db.sessions (db w)) →
  NoDup (lower_titles (db w)) →
  NoDup (lower_titles (db (iterrows fails cols rows stats w).2)).
Proof.
  revert stats w. induction rows as [|cells rows IH]; intros stats w Hq Hnd.
  - exact Hnd.
  - pose proof (process_row_titles_unique fails (to_dict cols cells) w
                  (quiet_here _ _ Hq) Hnd) as H1.
    destruct (steps_run later _ w
                (steps_process_row_framed fails later (to_dict cols cells) _
                   framed_later ltac:(frame_side)))
      as (b & w1 & E & Hl).
    rewrite E in H1. cbn [snd] in H1.
    cbn [iterrows]. unfold bind. rewrite E.
    apply IH; [eapply quiet_le; eauto|exact H1].
Qed.

(** X3. On a storage that meets no error, a run keeps the uniqueness of titles:
    when no two pages of the store have titles that are equal once
    lower-cased, no two pages of the store after the run have. *)
Theorem run_keeps_titles_unique fails df d
    (Hquiet : quiet fails (Db.sessions d))
    (Hunique : NoDup (lower_titles d)) :
  NoDup (lower_titles (db (run_simple_etl fails df d).2)).
Proof.
  unfold run_simple_etl. apply iterrows_titles_unique; assumption.
Qed.

Lemma run_keeps_titles_unique_witness :
  NoDup (lower_titles (db (run_simple_etl no_faults twice_frame Db.empty).2)).
Proof.
  apply (run_keeps_titles_unique no_faults twice_frame Db.empty).
  - apply quiet_no_faults.
  - constructor.
Defined.

Lemma foldl_insert_lookup_notin (kvs : list (string * Py.value)) (m : Row) k :
  k ∉ kvs.*1 →
  foldl (λ (m : Row) kv, <[kv.1 := kv.2]> m) m kvs !! k = m !! k.
Proof.
  revert m. induction kvs as [|[k' v] kvs IH]; intros m Hk; [reflexivity|].
  cbn in *. apply not_elem_of_cons in Hk as [Hne Hk].
  rewrite IH by exact Hk. apply lookup_insert_ne. congruence.
Qed.

Lemma to_dict_lookup_notin cols cells k :
  k ∉ cols → to_dict cols cells !! k = None.
Proof.
  intros Hk. unfold to_dict. rewrite foldl_insert_lookup_notin.
  - apply lookup_empty.
  - intros Hin. apply Hk.
    apply list_elem_of_fmap in Hin as ([k' v] & -> & Hin).
    apply elem_of_zip_l in Hin. exact Hin.
Qed.

Lemma iterrows_all_blank fails cols rows stats w :
  Forall (λ cells, title_of (to_dict cols cells) = "") rows →
  iterrows fails cols rows stats w
  = (Ok (mkStats (total_rows stats) (pages_created stats)
                 (pages_skipped stats + Z.of_nat (length rows))), w).
Proof.
  revert stats. induction rows as [|cells rows IH]; intros stats Hall.
  - cbn. rewrite Z.add_0_r. destruct stats; reflexivity.
  - inversion Hall as [|? ? Hb Hall']; subst.
    cbn [iterrows]. unfold bind. rewrite process_row_blank by exact Hb.
    rewrite IH by exact Hall'. cbn [total_rows pages_created pages_skipped].
    rewrite length_cons, Nat2Z.inj_succ. do 2 f_equal. f_equal. lia.
Qed.

(** X4. A frame none of whose headers normalizes to "title" creates nothing:
    every record is counted as skipped and the run does not touch the
    storage at all, not even for a read. *)
Theorem run_without_title_column fails df d
    (Hmissing : "title" ∉ normalize_column <$> columns df) :
  run_simple_etl fails df d
  = (Ok (mkStats (Z.of_nat (length (data df))) 0
                 (Z.of_nat (length (data df)))),
     RepositoryBasedETL.init d).
Proof.
  unfold run_simple_etl. rewrite iterrows_all_blank; [reflexivity|].
  apply Forall_forall. intros cells _. unfold title_of, dict_get.
  rewrite to_dict_lookup_notin by exact Hmissing. reflexivity.
Qed.

Lemma run_without_title_column_witness :
  run_simple_etl (fails_at 0)
    (mkDataFrame ["Name"; "View Count"]
       [[Py.VStr "Go"; Py.VInt 5]; [Py.VStr "Rocq"; Py.VInt 7]]) Db.empty
  = (Ok (mkStats 2 0 2), RepositoryBasedETL.init Db.empty).
Proof.
  apply (run_without_title_column (fails_at 0)
           (mkDataFrame ["Name"; "View Count"]
              [[Py.VStr "Go"; Py.VInt 5]; [Py.VStr "Rocq"; Py.VInt 7]])
           Db.empty).
  vm_compute. intros H.
  repeat (apply elem_of_cons in H as [H|H]; [discriminate H|]).
  apply not_elem_of_nil in H. exact H.
Defined.

(** X5. A record whose title cell is NaN has the title "nan", not a blank
    one. On a storage without errors where no page answers to "nan", what
    becomes of it rests on its view count: if [int] reads the view count,
    the record creates a page with the title "nan" and those views; if
    [int] rejects the view count, the record is skipped and no page is
    created. *)
Theorem nan_title_creates_page_nan fails row w
    (Hcell : row !! "title" = Some Py.VNaN)
    (Hquiet : quiet fails (Db.sessions (db w)))
    (Hnew : Db.select_page_by_title "nan" (db w) = []) :
  title_of row = "nan" ∧
  (∀ v, views_of row = Ok v →
     ∃ w' pr,
       RepositoryBasedETL.process_row_with_repository fails row w
         = (Ok (negb (Db.page_seq (db w) =? 0)), w') ∧
       pages_of w' = pages_of w ++ [pr] ∧
       Db.p_title pr = "nan" ∧ Db.p_views pr = v) ∧
  (∀ e, views_of row = Raise e →
     ∃ w',
       RepositoryBasedETL.process_row_with_repository fails row w
         = (Ok false, w') ∧
       pages_of w' = pages_of w).
Proof.
  assert (Ht : title_of row = "nan").
  { unfold title_of, dict_get. rewrite Hcell. reflexivity. }
  split; [exact Ht|]. split.
  - intros v Hviews.
    destruct (process_row_creates fails row w v Hquiet) as
      (w' & pr & w5 & E & _ & Hp & Hti & Hid & Hv & _);
      [rewrite Ht; discriminate|rewrite Ht; exact Hnew|exact Hviews|].
    exists w', pr. rewrite Hid in E. rewrite Ht in Hti. auto.
  - intros e Hviews. exact (bad_view_count_skips fails row w e Hviews).
Qed.

Lemma nan_title_creates_page_nan_witness :
  (∃ w',
     RepositoryBasedETL.process_row_with_repository no_faults
       {[ "title" := Py.VNaN; "view_count" := Py.VInt 3 ]}
       (RepositoryBasedETL.init Db.empty) = (Ok true, w') ∧
     Db.p_title <$> pages_of w' = ["nan"]) ∧
  (∃ w',
     RepositoryBasedETL.process_row_with_repository no_faults
       {[ "title" := Py.VNaN; "view_count" := Py.VNaN ]}
       (RepositoryBasedETL.init Db.empty) = (Ok false, w') ∧
     pages_of w' = []).
Proof.
  split.
  - assert (Hcell : ({[ "title" := Py.VNaN; "view_count" := Py.VInt 3 ]}
                       : Row) !! "title" = Some Py.VNaN)
      by (vm_compute; reflexivity).
    assert (Hviews : views_of
                       {[ "title" := Py.VNaN; "view_count" := Py.VInt 3 ]}
                     = Ok 3) by (vm_compute; reflexivity).
    destruct (nan_title_creates_page_nan no_faults
                {[ "title" := Py.VNaN; "view_count" := Py.VInt 3 ]}
                (RepositoryBasedETL.init Db.empty) Hcell
                (quiet_no_faults _) eq_refl) as (_ & Hok & _).
    destruct (Hok 3 Hviews) as (w' & pr & E & Hp & Ht & _).
    exists w'. split; [exact E|].
    rewrite Hp. cbn. rewrite Ht. reflexivity.
  - assert (Hcell : ({[ "title" := Py.VNaN; "view_count" := Py.VNaN ]}
                       : Row) !! "title" = Some Py.VNaN)
      by (vm_compute; reflexivity).
    assert (Hviews : views_of
                       {[ "title" := Py.VNaN; "view_count" := Py.VNaN ]}
                     = Raise ValueError) by (vm_compute; reflexivity).
    destruct (nan_title_creates_page_nan no_faults
                {[ "title" := Py.VNaN; "view_count" := Py.VNaN ]}
                (RepositoryBasedETL.init Db.empty) Hcell
                (quiet_no_faults _) eq_refl) as (_ & _ & Hbad).
    exact (Hbad ValueError Hviews).
Defined.

(** ** The reference cache *)

(** X6. A name that the reference cache has resolved once is answered from the
    dictionary from then on: the next call for it returns the same
    identifier and leaves the world as it is, so it opens no session and
    cannot fail, whatever the storage does by then. *)
Theorem cached_name_is_resolved_once fails fails' name cache table w i w'
    (Hcall : RepositoryBasedETL._get_or_create_cached fails name cache table w
             = (Ok (Some i), w')) :
  RepositoryBasedETL._get_or_create_cached fails' name cache table w'
  = (Ok (Some i), w').
Proof.
  revert Hcall. unfold RepositoryBasedETL._get_or_create_cached.
  destruct (negb (Py.truthy (Py.VStr name)) || Py.isna (Py.VStr name));
    [discriminate|].
  destruct (cache_of cache w !! name) as [j|] eqn:E.
  { intros [= -> ->]. rewrite E. reflexivity. }
  unfold bind, get_session, cache_store, ret.
  destruct (fails _); [discriminate|].
  destruct (Db.insert_name table name (Db.tick (db w))) as [j d'].
  intros [= -> <-].
  destruct cache; cbn [cache_of project_cache namespace_cache];
    rewrite lookup_insert_eq; reflexivity.
Qed.

Lemma cached_name_is_resolved_once_witness :
  let w' := (RepositoryBasedETL._get_or_create_cached no_faults "Eng"
               ProjectCache Db.TProject
               (RepositoryBasedETL.init Db.empty)).2 in
  RepositoryBasedETL._get_or_create_cached (λ _, true) "Eng"
    ProjectCache Db.TProject w' = (Ok (Some 1), w').
Proof.
  intros w'.
  apply (cached_name_is_resolved_once no_faults (λ _, true) "Eng"
           ProjectCache Db.TProject (RepositoryBasedETL.init Db.empty)).
  reflexivity.
Defined.

Lemma for_each_cache_store c (rows : list Db.name_row) w :
  for_each rows (λ row, cache_store c (Db.n_name row) (Db.n_id row)) w
  = (Ok tt,
     let cache :=
       foldl (λ (m : gmap string Z) row, <[Db.n_name row := Db.n_id row]> m)
             (cache_of c w) rows in
     match c with
     | ProjectCache => mkWorld (db w) (heap w) cache (namespace_cache w)
     | NamespaceCache => mkWorld (db w) (heap w) (project_cache w) cache
     end).
Proof.
  revert w. induction rows as [|row rows IH]; intros w.
  - destruct c, w; reflexivity.
  - cbn [for_each foldl]. unfold bind at 1. unfold cache_store at 1.
    rewrite IH. destruct c; reflexivity.
Qed.

Lemma foldl_names_lookup (rows : list Db.name_row) (m : gmap string Z) row :
  row ∈ rows →
  ∃ row', row' ∈ rows ∧ Db.n_name row' = Db.n_name row ∧
    foldl (λ (m : gmap string Z) row, <[Db.n_name row := Db.n_id row]> m)
          m rows !! Db.n_name row = Some (Db.n_id row').
Proof.
  induction rows as [|x rows IH] using rev_ind; intros Hin.
  { apply not_elem_of_nil in Hin. contradiction. }
  rewrite foldl_app. cbn [foldl].
  destruct (decide (Db.n_name x = Db.n_name row)) as [Heq|Hne].
  - exists x. split; [apply elem_of_app; right; left|].
    split; [exact Heq|]. rewrite <- Heq. apply lookup_insert_eq.
  - apply elem_of_app in Hin as [Hin|Hin].
    + destruct (IH Hin) as (row' & Hin' & Hn & Hl).
      exists row'. split; [apply elem_of_app; left; exact Hin'|].
      split; [exact Hn|]. rewrite lookup_insert_ne by exact Hne. exact Hl.
    + apply list_elem_of_singleton in Hin. subst. contradiction.
Qed.

Lemma foldl_names_keeps (rows : list Db.name_row) (m : gmap string Z) name :
  name ∉ Db.n_name <$> rows →
  foldl (λ (m : gmap string Z) row, <[Db.n_name row := Db.n_id row]> m)
        m rows !! name = m !! name.
Proof.
  revert m. induction rows as [|x rows IH]; intros m Hn; [reflexivity|].
  cbn in *. apply not_elem_of_cons in Hn as [Hne Hn].
  rewrite IH by exact Hn. apply lookup_insert_ne. congruence.
Qed.

(** X7. When its session meets no storage error, the seeding method reads both
    tables in that one session and writes nothing to the storage; from then
    on every non-empty name of a stored project (namespace) is resolved to
    the identifier of a stored row of that name without a session, and a
    name of neither table is cached as it was. *)
Theorem seeding_caches_stored_names fails fails' w
    (Hok : fails (Db.sessions (db w)) = false) :
  ∃ w',
    RepositoryBasedETL._cache_projects_and_namespaces fails w = (Ok tt, w') ∧
    db w' = Db.tick (db w) ∧
    (∀ c row, row ∈ Db.select_names (table_of c) (db w) →
       Db.n_name row ≠ "" →
       ∃ row', row' ∈ Db.select_names (table_of c) (db w) ∧
         Db.n_name row' = Db.n_name row ∧
         RepositoryBasedETL._get_or_create_cached fails' (Db.n_name row) c
           (table_of c) w' = (Ok (Some (Db.n_id row')), w')) ∧
    (∀ c name, name ∉ Db.n_name <$> Db.select_names (table_of c) (db w) →
       cache_of c w' !! name = cache_of c w !! name).
Proof.
  unfold RepositoryBasedETL._cache_projects_and_namespaces.
  unfold bind at 1. rewrite get_session_ok by exact Hok. cbn [fst snd].
  unfold bind. rewrite for_each_cache_store. cbn zeta.
  rewrite for_each_cache_store.
  cbn [cache_of db heap project_cache namespace_cache set_db Db.select_names
       Db.tick Db.project Db.namespace].
  eexists. split; [reflexivity|]. split; [reflexivity|]. split.
  - intros c row Hin Hne.
    destruct (foldl_names_lookup (Db.select_names (table_of c) (db w))
                (cache_of c w) row Hin) as (row' & Hin' & Hn & Hl).
    exists row'. split; [exact Hin'|]. split; [exact Hn|].
    unfold RepositoryBasedETL._get_or_create_cached.
    assert (Ht : negb (Py.truthy (Py.VStr (Db.n_name row)))
                 || Py.isna (Py.VStr (Db.n_name row)) = false).
    { cbn. rewrite orb_false_r, negb_involutive.
      apply String.eqb_neq. exact Hne. }
    rewrite Ht.
    destruct c; cbn [cache_of project_cache namespace_cache table_of
                     Db.select_names] in *; rewrite Hl; reflexivity.
  - intros c name Hn.
    destruct c; cbn [cache_of project_cache namespace_cache table_of
                     Db.select_names] in *;
      apply foldl_names_keeps; exact Hn.
Qed.

Lemma seeding_caches_stored_names_witness :
  ∃ w',
    RepositoryBasedETL._cache_projects_and_namespaces no_faults
      (RepositoryBasedETL.init seeded_store) = (Ok tt, w') ∧
    RepositoryBasedETL._get_or_create_cached (λ _, true) "Eng" ProjectCache
      Db.TProject w' = (Ok (Some 1), w').
Proof.
  destruct (seeding_caches_stored_names no_faults (λ _, true)
              (RepositoryBasedETL.init seeded_store) eq_refl)
    as (w' & E & _ & Hres & _).
  exists w'. split; [exact E|].
  destruct (Hres ProjectCache (Db.mkNameRow 1 "Eng")) as (row' & Hin & _ & Hc).
  { left. }
  { discriminate. }
  apply list_elem_of_singleton in Hin. subst row'. exact Hc.
Defined.

(** ** The reading and writing methods of the repositories *)

Lemma filter_fmap_same {A} (P : A → Prop) `{!∀ x, Decision (P x)}
    (f : A → A) (l : list A) :
  (∀ x, P (f x) ↔ P x) → filter P (f <$> l) = f <$> filter P l.
Proof.
  intros Hf. induction l as [|x l IH]; [reflexivity|].
  cbn [fmap list_fmap]. rewrite !filter_cons.
  destruct (decide (P (f x))) as [Hp|Hp], (decide (P x)) as [Hq|Hq];
    rewrite ?IH; try reflexivity; exfalso.
  - apply Hq, Hf, Hp.
  - apply Hp, Hf, Hq.
Qed.

Lemma filter_all {A} (P : A → Prop) `{!∀ x, Decision (P x)} (l : list A) :
  Forall P l → filter P l = l.
Proof.
  induction 1 as [|x l Hx _ IH]; [reflexivity|].
  rewrite filter_cons_True by exact Hx. rewrite IH. reflexivity.
Qed.

Lemma filter_none {A} (P : A → Prop) `{!∀ x, Decision (P x)} (l : list A) :
  Forall (λ x, ¬ P x) l → filter P l = [].
Proof.
  induction 1 as [|x l Hx _ IH]; [reflexivity|].
  rewrite filter_cons_False by exact Hx. exact IH.
Qed.

Lemma fmap_if_none {A} (P : A → Prop) `{!∀ x, Decision (P x)}
    (f : A → A) (l : list A) :
  Forall (λ x, ¬ P x) l → (λ x, if decide (P x) then f x else x) <$> l = l.
Proof.
  induction 1 as [|x l Hx _ IH]; [reflexivity|].
  cbn [fmap list_fmap]. destruct (decide (P x)); [contradiction|].
  f_equal. exact IH.
Qed.

Lemma with_pages_same d : Db.with_pages (Db.page d) d = d.
Proof. destruct d; reflexivity. Qed.

Lemma with_categories_same d : Db.with_categories (Db.category d) d = d.
Proof. destruct d; reflexivity. Qed.

Lemma left_names_cons ref t : ∃ x xs, Db.left_names ref t = x :: xs.
Proof. unfold Db.left_names. destruct (filter _ t); cbn; eauto. Qed.

(** The two LEFT JOINs neither hide a page nor change which page comes
    first. *)
Lemma select_page_by_id_head i d :
  (λ r, r.1.1) <$> head (Db.select_page_by_id i d)
  = head (filter (λ r, Db.p_id r = i) (Db.page d)).
Proof.
  unfold Db.select_page_by_id.
  destruct (filter _ (Db.page d)) as [|p l]; [reflexivity|].
  rewrite bind_cons.
  destruct (left_names_cons (Db.p_project_id p) (Db.project d))
    as (pr & prs & ->).
  rewrite bind_cons.
  destruct (left_names_cons (Db.p_namespace_id p) (Db.namespace d))
    as (n & ns & ->).
  rewrite bind_cons. reflexivity.
Qed.

Section RepositoryMethods.
Variable fails : nat → bool.

Lemma rowcount_call_eq (statement : Db.store → nat * Db.store) w :
  try_except is_SQLAlchemyError
    (let* rowcount := _execute_update fails statement in
     if (0 <? rowcount)%nat then ret true else ret false)
    (ret false) w
  = if fails (Db.sessions (db w))
    then (Ok false, set_db (Db.tick (db w)) w)
    else (Ok (0 <? (statement (Db.tick (db w))).1)%nat,
          set_db (statement (Db.tick (db w))).2 w).
Proof.
  unfold try_except, bind, _execute_update, get_session.
  destruct (fails _); [reflexivity|].
  destruct (statement _) as [n d']. cbn [fst snd].
  destruct (0 <? n)%nat; reflexivity.
Qed.

Lemma query_list_eq {A B} (q : Db.store → list A) (f : A → B) w :
  try_except is_SQLAlchemyError
    (let* result := _execute_query fails q in ret (f <$> result))
    (ret []) w
  = (Ok (if fails (Db.sessions (db w)) then []
         else f <$> q (Db.tick (db w))),
     set_db (Db.tick (db w)) w).
Proof.
  unfold try_except, bind, _execute_query, get_session.
  destruct (fails _); reflexivity.
Qed.

Lemma query_first_eq {A B} (q : Db.store → list A) (f : A → B) (dflt : B) w :
  try_except is_SQLAlchemyError
    (let* result := _execute_query fails q in
     match result with
     | r :: _ => ret (f r)
     | [] => ret dflt
     end)
    (ret dflt) w
  = (Ok (if fails (Db.sessions (db w)) then dflt
         else default dflt (f <$> head (q (Db.tick (db w))))),
     set_db (Db.tick (db w)) w).
Proof.
  unfold try_except, bind, _execute_query, get_session.
  destruct (fails _); [reflexivity|].
  destruct (q _); reflexivity.
Qed.

Lemma get_by_id_eq page_id w :
  PageRepository.get_by_id fails page_id w =
    (Ok (if fails (Db.sessions (db w)) then None
         else PageRepository._to_entity <$>
                head (filter (λ r, Db.p_id r = page_id) (Db.page (db w)))),
     set_db (Db.tick (db w)) w).
Proof.
  unfold PageRepository.get_by_id, try_except, bind, _execute_query,
    get_session.
  destruct (fails _); [reflexivity|].
  change (Db.select_page_by_id page_id (Db.tick (db w)))
    with (Db.select_page_by_id page_id (db w)).
  rewrite <- select_page_by_id_head.
  destruct (Db.select_page_by_id page_id (db w)); reflexivity.
Qed.

Lemma category_get_by_id_eq category_id w :
  CategoryRepository.get_by_id fails category_id w =
    (Ok (if fails (Db.sessions (db w)) then None
         else CategoryRepository._to_entity <$>
                head (filter (λ r, Db.c_id r = category_id)
                        (Db.category (db w)))),
     set_db (Db.tick (db w)) w).
Proof.
  unfold CategoryRepository.get_by_id, try_except, bind, _execute_query,
    get_session.
  destruct (fails _); [reflexivity|].
  change (Db.select_category_by_id category_id (Db.tick (db w)))
    with (filter (λ r, Db.c_id r = category_id) (Db.category (db w))).
  destruct (filter _ (Db.category (db w))); reflexivity.
Qed.

Lemma count_eq w :
  PageRepository.count fails w =
    (Ok (if fails (Db.sessions (db w)) then 0
         else Z.of_nat (length (Db.page (db w)))),
     set_db (Db.tick (db w)) w).
Proof.
  unfold PageRepository.count, try_except, bind, _execute_query, get_session.
  destruct (fails _); reflexivity.
Qed.

Lemma category_count_eq w :
  CategoryRepository.count fails w =
    (Ok (if fails (Db.sessions (db w)) then 0
         else Z.of_nat (length (Db.category (db w)))),
     set_db (Db.tick (db w)) w).
Proof.
  unfold CategoryRepository.count, try_except, bind, _execute_query,
    get_session.
  destruct (fails _); reflexivity.
Qed.
End RepositoryMethods.

(** No reading method of the two repositories raises or writes: each
    returns an answer and leaves the tables, the sequences, the objects and
    the caches as they were; all it uses up is one session. *)
Theorem reads_never_raise_nor_write fails w :
  let w' := set_db (Db.tick (db w)) w in
  (∀ page_id, ∃ r, PageRepository.get_by_id fails page_id w = (Ok r, w')) ∧
  (∀ title, ∃ r, PageRepository.get_by_title fails title w = (Ok r, w')) ∧
  (∀ limit offset,
     ∃ r, PageRepository.get_all fails limit offset w = (Ok r, w')) ∧
  (∀ project_id limit,
     ∃ r, PageRepository.get_by_project fails project_id limit w
          = (Ok r, w')) ∧
  (∀ limit, ∃ r, PageRepository.get_top_viewed fails limit w = (Ok r, w')) ∧
  (∃ r, PageRepository.count fails w = (Ok r, w')) ∧
  (∀ category_id,
     ∃ r, CategoryRepository.get_by_id fails category_id w = (Ok r, w')) ∧
  (∀ name, ∃ r, CategoryRepository.get_by_name fails name w = (Ok r, w')) ∧
  (∀ limit offset,
     ∃ r, CategoryRepository.get_all fails limit offset w = (Ok r, w')) ∧
  (∃ r, CategoryRepository.count fails w = (Ok r, w')).
Proof.
  intros w'. repeat split; intros.
  - rewrite get_by_id_eq. eauto.
  - rewrite get_by_title_eq. eauto.
  - unfold PageRepository.get_all. rewrite query_list_eq. eauto.
  - unfold PageRepository.get_by_project. rewrite query_list_eq. eauto.
  - unfold PageRepository.get_top_viewed. rewrite query_list_eq. eauto.
  - rewrite count_eq. eauto.
  - rewrite category_get_by_id_eq. eauto.
  - rewrite get_by_name_eq. eauto.
  - unfold CategoryRepository.get_all. rewrite query_list_eq. eauto.
  - rewrite category_count_eq. eauto.
Qed.

(** X8. A reading method whose session meets a storage error answers as if the
    table were empty: no entity, the empty list, the count 0. The caller
    cannot tell the error from an absent row. *)
Theorem failed_reads_look_empty fails w
    (Hfail : fails (Db.sessions (db w)) = true) :
  let w' := set_db (Db.tick (db w)) w in
  (∀ page_id, PageRepository.get_by_id fails page_id w = (Ok None, w')) ∧
  (∀ title, PageRepository.get_by_title fails title w = (Ok None, w')) ∧
  (∀ limit offset,
     PageRepository.get_all fails limit offset w = (Ok [], w')) ∧
  (∀ project_id limit,
     PageRepository.get_by_project fails project_id limit w = (Ok [], w')) ∧
  (∀ limit, PageRepository.get_top_viewed fails limit w = (Ok [], w')) ∧
  PageRepository.count fails w = (Ok 0, w') ∧
  (∀ category_id,
     CategoryRepository.get_by_id fails category_id w = (Ok None, w')) ∧
  (∀ name, CategoryRepository.get_by_name fails name w = (Ok None, w')) ∧
  (∀ limit offset,
     CategoryRepository.get_all fails limit offset w = (Ok [], w')) ∧
  CategoryRepository.count fails w = (Ok 0, w').
Proof.
  intros w'. repeat split; intros.
  - rewrite get_by_id_eq, Hfail. reflexivity.
  - rewrite get_by_title_eq, Hfail. reflexivity.
  - unfold PageRepository.get_all. rewrite query_list_eq, Hfail. reflexivity.
  - unfold PageRepository.get_by_project.
    rewrite query_list_eq, Hfail. reflexivity.
  - unfold PageRepository.get_top_viewed.
    rewrite query_list_eq, Hfail. reflexivity.
  - rewrite count_eq, Hfail. reflexivity.
  - rewrite category_get_by_id_eq, Hfail. reflexivity.
  - rewrite get_by_name_eq, Hfail. reflexivity.
  - unfold CategoryRepository.get_all.
    rewrite query_list_eq, Hfail. reflexivity.
  - rewrite category_count_eq, Hfail. reflexivity.
Qed.

Lemma failed_reads_look_empty_witness :
  let w := RepositoryBasedETL.init
             (Db.mkStore [Db.mkPageRow 1 "Go" None 5 "stub" None ""]
                         [] [] [] [] 2 1 1 1 0) in
  PageRepository.get_by_title (fails_at 0) "Go" w
    = (Ok None, set_db (Db.tick (db w)) w) ∧
  PageRepository.count (fails_at 0) w = (Ok 0, set_db (Db.tick (db w)) w).
Proof.
  intros w.
  destruct (failed_reads_look_empty (fails_at 0) w eq_refl)
    as (_ & Ht & _ & _ & _ & Hc & _).
  split; [apply Ht|exact Hc].
Defined.

(** X9. A writing method by identifier whose session meets a storage error
    returns False (0 for the count of [delete_by_project]) and leaves every
    table as it was. *)
Theorem failed_writes_change_nothing fails w
    (Hfail : fails (Db.sessions (db w)) = true) :
  let w' := set_db (Db.tick (db w)) w in
  (∀ page_id increment,
     PageRepository.update_views fails page_id increment w
     = (Ok false, w')) ∧
  (∀ page_id new_text,
     PageRepository.update_text fails page_id new_text w = (Ok false, w')) ∧
  (∀ page_id, PageRepository.delete fails page_id w = (Ok false, w')) ∧
  (∀ project_id,
     PageRepository.delete_by_project fails project_id w = (Ok 0%nat, w')) ∧
  (∀ category_id new_text,
     CategoryRepository.update_text_content fails category_id new_text w
     = (Ok false, w')) ∧
  (∀ category_id,
     CategoryRepository.delete fails category_id w = (Ok false, w')).
Proof.
  intros w'. repeat split; intros.
  - unfold PageRepository.update_views. rewrite rowcount_call_eq, Hfail.
    reflexivity.
  - unfold PageRepository.update_text. rewrite rowcount_call_eq, Hfail.
    reflexivity.
  - unfold PageRepository.delete. rewrite rowcount_call_eq, Hfail.
    reflexivity.
  - unfold PageRepository.delete_by_project, try_except, _execute_update.
    rewrite get_session_fail by exact Hfail. reflexivity.
  - unfold CategoryRepository.update_text_content.
    rewrite rowcount_call_eq, Hfail. reflexivity.
  - unfold CategoryRepository.delete. rewrite rowcount_call_eq, Hfail.
    reflexivity.
Qed.

Lemma failed_writes_change_nothing_witness :
  let w := RepositoryBasedETL.init
             (Db.mkStore [Db.mkPageRow 1 "Go" None 5 "stub" None ""]
                         [] [] [] [] 2 1 1 1 0) in
  PageRepository.delete (fails_at 0) 1 w
    = (Ok false, set_db (Db.tick (db w)) w).
Proof.
  intros w.
  destruct (failed_writes_change_nothing (fails_at 0) w eq_refl)
    as (_ & _ & Hd & _).
  apply Hd.
Defined.

Lemma head_filter_update i j (f : Db.page_row → Db.page_row) l :
  (∀ r, Db.p_id (f r) = Db.p_id r) →
  head (filter (λ r, Db.p_id r = j)
          ((λ r, if decide (Db.p_id r = i) then f r else r) <$> l))
  = (λ r, if decide (j = i) then f r else r)
      <$> head (filter (λ r, Db.p_id r = j) l).
Proof.
  intros Hf. induction l as [|x l IH]; [reflexivity|].
  cbn [fmap list_fmap]. rewrite !filter_cons.
  destruct (decide (Db.p_id x = i)) as [Hi|Hi].
  - rewrite Hf. destruct (decide (Db.p_id x = j)) as [Hj|Hj]; [|exact IH].
    cbn. destruct (decide (j = i)); [reflexivity|congruence].
  - destruct (decide (Db.p_id x = j)) as [Hj|Hj]; [|exact IH].
    cbn. destruct (decide (j = i)); [congruence|reflexivity].
Qed.

Lemma length_filter_update i (f : Db.page_row → Db.page_row) l :
  (∀ r, Db.p_id (f r) = Db.p_id r) →
  length (filter (λ r, Db.p_id r = i)
            ((λ r, if decide (Db.p_id r = i) then f r else r) <$> l))
  = length (filter (λ r, Db.p_id r = i) l).
Proof.
  intros Hf. rewrite filter_fmap_same, length_fmap; [reflexivity|].
  intros r. destruct (decide (Db.p_id r = i)); [rewrite Hf|]; reflexivity.
Qed.

Lemma rowcount_positive {A} (P : A → Prop) `{!∀ x, Decision (P x)} l :
  (0 <? length (filter P l))%nat = true ↔ ∃ x, x ∈ l ∧ P x.
Proof.
  rewrite Nat.ltb_lt. split.
  - destruct (filter P l) as [|x l'] eqn:E; [cbn; lia|]. intros _.
    assert (Hx : x ∈ filter P l) by (rewrite E; left).
    apply list_elem_of_filter in Hx as [Hp Hx]. eauto.
  - intros (x & Hx & Hp).
    assert (Hin : x ∈ filter P l) by (apply list_elem_of_filter; auto).
    destruct (filter P l); [apply not_elem_of_nil in Hin; contradiction|].
    cbn. lia.
Qed.

Lemma filter_after_filter {A} (P Q : A → Prop) `{!∀ x, Decision (P x)}
    `{!∀ x, Decision (Q x)} (l : list A) :
  (∀ x, P x → Q x) → filter P (filter Q l) = filter P l.
Proof.
  intros Hpq. rewrite list_filter_filter. apply list_filter_iff.
  intros x. split; [tauto|]. auto.
Qed.

Lemma filter_after_excluding {A} (P Q : A → Prop) `{!∀ x, Decision (P x)}
    `{!∀ x, Decision (Q x)} (l : list A) :
  (∀ x, P x → ¬ Q x) → filter P (filter Q l) = [].
Proof.
  intros Hpq. apply filter_none, Forall_forall.
  intros x Hx Hp. apply list_elem_of_filter in Hx as [Hq _].
  exact (Hpq x Hp Hq).
Qed.

Lemma calm_here fails k n : calm fails k (S n) → fails k = false.
Proof.
  intros H. rewrite <- (Nat.add_0_r k). apply H. lia.
Qed.

Lemma calm_next fails k n : calm fails k (S (S n)) → fails (S k) = false.
Proof.
  intros H. replace (S k) with (k + 1)%nat by lia. apply H. lia.
Qed.

(** X10. Deleting a page by identifier, on a storage without errors: the answer
    is True exactly when a page had that identifier; afterwards [get_by_id]
    finds no page under it, and finds under every other identifier the page
    it found before. *)
Theorem deleted_page_is_gone fails page_id w
    (Hcalm : calm fails (Db.sessions (db w)) 2) :
  ∃ b w1,
    PageRepository.delete fails page_id w = (Ok b, w1) ∧
    (b = true ↔ page_id ∈ Db.p_id <$> pages_of w) ∧
    (PageRepository.get_by_id fails page_id w1).1 = Ok None ∧
    (∀ other_id, other_id ≠ page_id →
       (PageRepository.get_by_id fails other_id w1).1
       = (PageRepository.get_by_id fails other_id w).1).
Proof.
  pose proof (calm_here _ _ _ Hcalm) as H0.
  pose proof (calm_next _ _ _ Hcalm) as H1.
  unfold PageRepository.delete. rewrite rowcount_call_eq, H0.
  eexists _, _. split; [reflexivity|].
  cbn [Db.delete_page fst snd Db.tick Db.page]. split; [|split].
  - rewrite rowcount_positive. unfold pages_of. rewrite list_elem_of_fmap.
    split; intros (r & Ha & Hb); exists r; auto.
  - rewrite get_by_id_eq. cbn [fst db set_db Db.with_pages Db.sessions Db.page Db.tick].
    rewrite H1. rewrite filter_after_excluding; [reflexivity|].
    intros r Hr Hn. exact (Hn Hr).
  - intros other_id Hne. rewrite !get_by_id_eq.
    cbn [fst db set_db Db.with_pages Db.sessions Db.page Db.tick].
    rewrite H0, H1. rewrite filter_after_filter; [reflexivity|].
    intros r Hr. congruence.
Qed.

Lemma deleted_page_is_gone_witness :
  let w := RepositoryBasedETL.init
             (Db.mkStore [Db.mkPageRow 1 "Go" None 5 "stub" None "";
                          Db.mkPageRow 2 "Rocq" None 7 "stub" None ""]
                         [] [] [] [] 3 1 1 1 0) in
  ∃ w1,
    PageRepository.delete no_faults 1 w = (Ok true, w1) ∧
    (PageRepository.get_by_id no_faults 1 w1).1 = Ok None ∧
    (PageRepository.get_by_id no_faults 2 w1).1
    = Ok (Some (Page.mk (Some 2) "Rocq" None 7 "stub" None "" None None)).
Proof.
  intros w.
  destruct (deleted_page_is_gone no_faults 1 w) as (b & w1 & E & Hb & Hg & Ho).
  { intros i _. reflexivity. }
  exists w1. split; [|split].
  - rewrite E. f_equal. f_equal. apply Hb. left.
  - exact Hg.
  - rewrite Ho by discriminate. reflexivity.
Defined.

(** X11. A write addressed to an identifier that no page has returns False and
    leaves the page table as it was, with or without a storage error. *)
Theorem write_to_absent_page_changes_nothing fails page_id w
    (Habsent : page_id ∉ Db.p_id <$> pages_of w) :
  let w' := set_db (Db.tick (db w)) w in
  PageRepository.delete fails page_id w = (Ok false, w') ∧
  (∀ increment,
     PageRepository.update_views fails page_id increment w
     = (Ok false, w')) ∧
  (∀ new_text,
     PageRepository.update_text fails page_id new_text w = (Ok false, w')).
Proof.
  intros w'.
  assert (Hall : Forall (λ r, ¬ Db.p_id r = page_id) (Db.page (db w))).
  { apply Forall_forall. intros r Hr Hid. apply Habsent.
    apply list_elem_of_fmap. exists r. auto. }
  assert (Hnone : filter (λ r, Db.p_id r = page_id) (Db.page (db w)) = [])
    by (apply filter_none; exact Hall).
  unfold PageRepository.delete, PageRepository.update_views,
    PageRepository.update_text.
  repeat split; intros; rewrite rowcount_call_eq;
    destruct (fails _); try reflexivity;
    cbn [Db.delete_page Db.update_page_views Db.update_page_text fst snd
         Db.tick Db.page]; rewrite Hnone; cbn [length Nat.ltb Nat.leb];
    unfold w'; do 2 f_equal.
  - rewrite filter_all by exact Hall.
    exact (with_pages_same (Db.tick (db w))).
  - rewrite fmap_if_none by exact Hall.
    exact (with_pages_same (Db.tick (db w))).
  - rewrite fmap_if_none by exact Hall.
    exact (with_pages_same (Db.tick (db w))).
Qed.

Lemma write_to_absent_page_changes_nothing_witness :
  let w := RepositoryBasedETL.init
             (Db.mkStore [Db.mkPageRow 1 "Go" None 5 "stub" None ""]
                         [] [] [] [] 2 1 1 1 0) in
  PageRepository.update_views no_faults 7 1 w
  = (Ok false, set_db (Db.tick (db w)) w).
Proof.
  intros w.
  destruct (write_to_absent_page_changes_nothing no_faults 7 w)
    as (_ & Hv & _).
  { cbn. intros H. apply list_elem_of_singleton in H. discriminate H. }
  apply Hv.
Defined.

Lemma views_read_back fails page_id increment p w
    (Hcalm : calm fails (Db.sessions (db w)) 2)
    (Hget : (PageRepository.get_by_id fails page_id w).1 = Ok (Some p)) :
  ∃ w1,
    PageRepository.update_views fails page_id increment w = (Ok true, w1) ∧
    (PageRepository.get_by_id fails page_id w1).1
    = Ok (Some (Page.mk (Page.id p) (Page.title p) (Page.project_id p)
                        (Page.views p + increment) (Page.status p)
                        (Page.namespace_id p) (Page.text p)
                        (Page.created_at p) (Page.updated_at p))) ∧
    (∀ other_id, other_id ≠ page_id →
       (PageRepository.get_by_id fails other_id w1).1
       = (PageRepository.get_by_id fails other_id w).1).
Proof.
  pose proof (calm_here _ _ _ Hcalm) as H0.
  pose proof (calm_next _ _ _ Hcalm) as H1.
  rewrite get_by_id_eq, H0 in Hget. cbn [fst] in Hget.
  destruct (head (filter (λ r, Db.p_id r = page_id) (Db.page (db w))))
    as [r|] eqn:Hr; [|discriminate].
  injection Hget as <-.
  unfold PageRepository.update_views. rewrite rowcount_call_eq, H0.
  cbn [Db.update_page_views fst snd Db.tick Db.page].
  assert (Hpos : (0 <? length (filter (λ r, Db.p_id r = page_id)
                                 (Db.page (db w))))%nat = true).
  { destruct (filter _ (Db.page (db w))); [discriminate|reflexivity]. }
  rewrite Hpos. eexists. split; [reflexivity|]. split.
  - rewrite get_by_id_eq.
    cbn [fst db set_db Db.with_pages Db.sessions Db.page Db.tick]. rewrite H1.
    rewrite head_filter_update by reflexivity. rewrite Hr. cbn.
    destruct (decide (page_id = page_id)); [reflexivity|contradiction].
  - intros other_id Hne. rewrite !get_by_id_eq.
    cbn [fst db set_db Db.with_pages Db.sessions Db.page Db.tick]. rewrite H0, H1.
    rewrite head_filter_update by reflexivity.
    destruct (decide (other_id = page_id)); [contradiction|].
    destruct (head (filter (λ r, Db.p_id r = other_id) (Db.page (db w))));
      reflexivity.
Qed.

(** Two increments of the views of a page add up: on a storage without
    errors they leave the page table that the one increment by their sum
    leaves, and all three calls give the same answer. *)
Theorem update_views_adds_up fails page_id a b w
    (Hcalm : calm fails (Db.sessions (db w)) 2) :
  ∃ r w1 w2 w3,
    PageRepository.update_views fails page_id a w = (Ok r, w1) ∧
    PageRepository.update_views fails page_id b w1 = (Ok r, w2) ∧
    PageRepository.update_views fails page_id (a + b) w = (Ok r, w3) ∧
    pages_of w2 = pages_of w3.
Proof.
  pose proof (calm_here _ _ _ Hcalm) as H0.
  pose proof (calm_next _ _ _ Hcalm) as H1.
  unfold PageRepository.update_views. rewrite !rowcount_call_eq, H0.
  eexists _, _, _, _. split; [reflexivity|].
  rewrite rowcount_call_eq.
  cbn [Db.update_page_views fst snd Db.tick Db.page db set_db Db.with_pages
       Db.sessions].
  rewrite H1. rewrite length_filter_update by reflexivity.
  split; [reflexivity|]. split; [reflexivity|].
  unfold pages_of. cbn [db set_db Db.with_pages Db.page].
  rewrite <- list_fmap_compose. apply Forall_fmap_ext_1, Forall_forall.
  intros x _. cbn.
  destruct (decide (Db.p_id x = page_id)) as [Hx|Hx]; cbn.
  - destruct (decide (Db.p_id x = page_id)); [|contradiction].
    f_equal. lia.
  - destruct (decide (Db.p_id x = page_id)); [contradiction|reflexivity].
Qed.

Lemma update_views_adds_up_witness :
  let w := RepositoryBasedETL.init
             (Db.mkStore [Db.mkPageRow 1 "Go" None 5 "stub" None ""]
                         [] [] [] [] 2 1 1 1 0) in
  ∃ w1 w2,
    PageRepository.update_views no_faults 1 2 w = (Ok true, w1) ∧
    PageRepository.update_views no_faults 1 3 w1 = (Ok true, w2) ∧
    pages_of w2 = [Db.mkPageRow 1 "Go" None 10 "stub" None ""].
Proof.
  intros w.
  destruct (update_views_adds_up no_faults 1 2 3 w)
    as (r & w1 & w2 & w3 & E1 & E2 & E3 & Hp).
  { intros i _. reflexivity. }
  assert (Hr : r = true) by (vm_compute in E3; congruence).
  subst r. exists w1, w2. split; [exact E1|]. split; [exact E2|].
  rewrite Hp. vm_compute in E3. injection E3 as <-. reflexivity.
Defined.

Lemma text_read_back fails page_id new_text p w
    (Hcalm : calm fails (Db.sessions (db w)) 2)
    (Hget : (PageRepository.get_by_id fails page_id w).1 = Ok (Some p)) :
  ∃ w1,
    PageRepository.update_text fails page_id new_text w = (Ok true, w1) ∧
    (PageRepository.get_by_id fails page_id w1).1
    = Ok (Some (Page.mk (Page.id p) (Page.title p) (Page.project_id p)
                        (Page.views p) (Page.status p)
                        (Page.namespace_id p) new_text
                        (Page.created_at p) (Page.updated_at p))) ∧
    (∀ other_id, other_id ≠ page_id →
       (PageRepository.get_by_id fails other_id w1).1
       = (PageRepository.get_by_id fails other_id w).1).
Proof.
  pose proof (calm_here _ _ _ Hcalm) as H0.
  pose proof (calm_next _ _ _ Hcalm) as H1.
  rewrite get_by_id_eq, H0 in Hget. cbn [fst] in Hget.
  destruct (head (filter (λ r, Db.p_id r = page_id) (Db.page (db w))))
    as [r|] eqn:Hr; [|discriminate].
  injection Hget as <-.
  unfold PageRepository.update_text. rewrite rowcount_call_eq, H0.
  cbn [Db.update_page_text fst snd Db.tick Db.page].
  assert (Hpos : (0 <? length (filter (λ r, Db.p_id r = page_id)
                                 (Db.page (db w))))%nat = true).
  { destruct (filter _ (Db.page (db w))); [discriminate|reflexivity]. }
  rewrite Hpos. eexists. split; [reflexivity|]. split.
  - rewrite get_by_id_eq.
    cbn [fst db set_db Db.with_pages Db.sessions Db.page Db.tick]. rewrite H1.
    rewrite head_filter_update by reflexivity. rewrite Hr. cbn.
    destruct (decide (page_id = page_id)); [reflexivity|contradiction].
  - intros other_id Hne. rewrite !get_by_id_eq.
    cbn [fst db set_db Db.with_pages Db.sessions Db.page Db.tick]. rewrite H0, H1.
    rewrite head_filter_update by reflexivity.
    destruct (decide (other_id = page_id)); [contradiction|].
    destruct (head (filter (λ r, Db.p_id r = other_id) (Db.page (db w))));
      reflexivity.
Qed.

(** X12. The two updates of a page that [get_by_id] finds, on a storage without
    errors: [update_views] returns True and the page is read back with its
    views raised by the increment; [update_text] returns True and the page
    is read back with the new text; either way nothing else of the page
    changed and every other identifier reads as before. *)
Theorem page_updates_read_back fails page_id p w
    (Hcalm : calm fails (Db.sessions (db w)) 2)
    (Hget : (PageRepository.get_by_id fails page_id w).1 = Ok (Some p)) :
  (∀ increment, ∃ w1,
     PageRepository.update_views fails page_id increment w = (Ok true, w1) ∧
     (PageRepository.get_by_id fails page_id w1).1
     = Ok (Some (Page.mk (Page.id p) (Page.title p) (Page.project_id p)
                         (Page.views p + increment) (Page.status p)
                         (Page.namespace_id p) (Page.text p)
                         (Page.created_at p) (Page.updated_at p))) ∧
     (∀ other_id, other_id ≠ page_id →
        (PageRepository.get_by_id fails other_id w1).1
        = (PageRepository.get_by_id fails other_id w).1)) ∧
  (∀ new_text, ∃ w1,
     PageRepository.update_text fails page_id new_text w = (Ok true, w1) ∧
     (PageRepository.get_by_id fails page_id w1).1
     = Ok (Some (Page.mk (Page.id p) (Page.title p) (Page.project_id p)
                         (Page.views p) (Page.status p)
                         (Page.namespace_id p) new_text
                         (Page.created_at p) (Page.updated_at p))) ∧
     (∀ other_id, other_id ≠ page_id →
        (PageRepository.get_by_id fails other_id w1).1
        = (PageRepository.get_by_id fails other_id w).1)).
Proof.
  split.
  - intros increment. apply views_read_back; assumption.
  - intros new_text. apply text_read_back; assumption.
Qed.

Lemma page_updates_read_back_witness :
  let w := RepositoryBasedETL.init
             (Db.mkStore [Db.mkPageRow 1 "Go" None 5 "stub" None "old"]
                         [] [] [] [] 2 1 1 1 0) in
  ∃ w1 w2,
    PageRepository.update_views no_faults 1 10 w = (Ok true, w1) ∧
    (PageRepository.get_by_id no_faults 1 w1).1
    = Ok (Some (Page.mk (Some 1) "Go" None 15 "stub" None "old" None None)) ∧
    PageRepository.update_text no_faults 1 "new" w = (Ok true, w2) ∧
    (PageRepository.get_by_id no_faults 1 w2).1
    = Ok (Some (Page.mk (Some 1) "Go" None 5 "stub" None "new" None None)).
Proof.
  intros w.
  destruct (page_updates_read_back no_faults 1
              (Page.mk (Some 1) "Go" None 5 "stub" None "old" None None) w)
    as (Hv & Ht).
  { intros i _. reflexivity. }
  { reflexivity. }
  destruct (Hv 10) as (w1 & E1 & Hg1 & _).
  destruct (Ht "new") as (w2 & E2 & Hg2 & _).
  exists w1, w2. auto.
Defined.

(** X13. Deleting the pages of a project, on a storage without errors: the
    number returned is the number of rows that left the page table, the
    pages of other projects and of no project stay in their order, and the
    project has no page afterwards. *)
Theorem delete_by_project_counts fails project_id w
    (Hcalm : calm fails (Db.sessions (db w)) 2) :
  ∃ n w1,
    PageRepository.delete_by_project fails project_id w = (Ok n, w1) ∧
    (length (pages_of w1) + n = length (pages_of w))%nat ∧
    pages_of w1
    = filter (λ r, Db.p_project_id r ≠ Some project_id) (pages_of w) ∧
    (∀ limit,
       (PageRepository.get_by_project fails project_id limit w1).1 = Ok []).
Proof.
  pose proof (calm_here _ _ _ Hcalm) as H0.
  pose proof (calm_next _ _ _ Hcalm) as H1.
  unfold PageRepository.delete_by_project, try_except, _execute_update.
  rewrite get_session_ok by exact H0.
  eexists _, _. split; [reflexivity|].
  unfold pages_of.
  cbn [Db.delete_pages_by_project fst snd Db.tick Db.page db set_db
       Db.with_pages].
  split; [|split; [reflexivity|]].
  - rewrite Nat.add_comm, <- length_app.
    apply Permutation_length, filter_app_complement.
  - intros limit. unfold PageRepository.get_by_project.
    rewrite query_list_eq.
    cbn [fst db set_db Db.with_pages Db.sessions Db.tick Db.page
         Db.select_pages_by_project].
    rewrite H1. unfold Db.select_pages_by_project.
    cbn [Db.page Db.tick Db.with_pages].
    rewrite filter_after_excluding; [|intros r Hr Hn; exact (Hn Hr)].
    unfold Db.order_by_views_desc. cbn. rewrite take_nil. reflexivity.
Qed.

Lemma delete_by_project_counts_witness :
  let w := RepositoryBasedETL.init
             (Db.mkStore [Db.mkPageRow 1 "Go" (Some 1) 5 "stub" None "";
                          Db.mkPageRow 2 "Rocq" None 7 "stub" None "";
                          Db.mkPageRow 3 "Ada" (Some 1) 1 "stub" None ""]
                         [Db.mkNameRow 1 "Eng"] [] [] [] 4 2 1 1 0) in
  ∃ w1,
    PageRepository.delete_by_project no_faults 1 w = (Ok 2%nat, w1) ∧
    pages_of w1 = [Db.mkPageRow 2 "Rocq" None 7 "stub" None ""].
Proof.
  intros w.
  destruct (delete_by_project_counts no_faults 1 w)
    as (n & w1 & E & Hn & Hp & _).
  { intros i _. reflexivity. }
  exists w1. rewrite Hp in Hn. vm_compute in Hn.
  assert (n = 2%nat) as -> by lia.
  split; [exact E|]. rewrite Hp. reflexivity.
Defined.

(** ** Listings *)

Global Instance id_le_total : Total Db.id_le.
Proof. intros a b. unfold Db.id_le. lia. Qed.
Global Instance id_le_trans : Transitive Db.id_le.
Proof. intros a b c. unfold Db.id_le. lia. Qed.
Global Instance views_ge_total : Total Db.views_ge.
Proof. intros a b. unfold Db.views_ge. lia. Qed.
Global Instance views_ge_trans : Transitive Db.views_ge.
Proof. intros a b c. unfold Db.views_ge. lia. Qed.
Global Instance cid_le_total : Total Db.cid_le.
Proof. intros a b. unfold Db.cid_le. lia. Qed.
Global Instance cid_le_trans : Transitive Db.cid_le.
Proof. intros a b c. unfold Db.cid_le. lia. Qed.

Lemma sorted_window {A} (R : relation A) `{!RelDecision R}
    `{!Transitive R} `{!Total R} (limit offset : nat) (l : list A) :
  let s := take limit (drop offset (merge_sort R l)) in
  (length s ≤ limit)%nat ∧ StronglySorted R s ∧ s ⊆+ l ∧
  (offset = 0%nat → (length l ≤ limit)%nat → s ≡ₚ l).
Proof.
  intros s. unfold s. split; [rewrite length_take; lia|]. split; [|split].
  - pose proof (StronglySorted_merge_sort R l) as Hs.
    rewrite <- (take_drop offset (merge_sort R l)) in Hs.
    apply StronglySorted_app_1_r in Hs.
    rewrite <- (take_drop limit (drop offset (merge_sort R l))) in Hs.
    apply StronglySorted_app_1_l in Hs. exact Hs.
  - etrans; [apply sublist_submseteq, sublist_take|].
    etrans; [apply sublist_submseteq, sublist_drop|].
    apply Permutation_submseteq, merge_sort_Permutation.
  - intros -> Hlen. rewrite drop_0, take_ge.
    + apply merge_sort_Permutation.
    + rewrite (Permutation_length (merge_sort_Permutation R l)). exact Hlen.
Qed.

Lemma sorted_top {A} (R : relation A) `{!RelDecision R}
    `{!Transitive R} `{!Total R} (limit : nat) (l : list A) :
  let s := merge_sort R l in
  take limit s ++ drop limit s ≡ₚ l ∧
  length (take limit s) = (limit `min` length l)%nat ∧
  StronglySorted R (take limit s) ∧
  (∀ x y, x ∈ take limit s → y ∈ drop limit s → R x y).
Proof.
  intros s. unfold s.
  pose proof (StronglySorted_merge_sort R l) as Hs.
  rewrite <- (take_drop limit (merge_sort R l)) in Hs.
  split; [rewrite take_drop; apply merge_sort_Permutation|].
  split; [rewrite length_take,
            (Permutation_length (merge_sort_Permutation R l)); reflexivity|].
  split; [apply StronglySorted_app_1_l in Hs; exact Hs|].
  intros x y Hx Hy. eapply StronglySorted_app_1_elem_of; eauto.
Qed.

(** X14. [get_all] of either repository, when its session meets no error,
    returns a window of the table in the order of the identifiers: at most
    [limit] rows, each a row of the table and none more often than the
    table holds it; from offset 0 and with a limit that is not below the
    size of the table, it is the whole table. *)
Theorem get_all_is_a_sorted_window fails limit offset w
    (Hok : fails (Db.sessions (db w)) = false) :
  (∃ rows,
     PageRepository.get_all fails limit offset w
     = (Ok (PageRepository._to_entity <$> rows), set_db (Db.tick (db w)) w) ∧
     (length rows ≤ limit)%nat ∧
     StronglySorted Db.id_le rows ∧
     rows ⊆+ pages_of w ∧
     (offset = 0%nat → (length (pages_of w) ≤ limit)%nat →
      rows ≡ₚ pages_of w)) ∧
  (∃ rows,
     CategoryRepository.get_all fails limit offset w
     = (Ok (CategoryRepository._to_entity <$> rows),
        set_db (Db.tick (db w)) w) ∧
     (length rows ≤ limit)%nat ∧
     StronglySorted Db.cid_le rows ∧
     rows ⊆+ categories_of w ∧
     (offset = 0%nat → (length (categories_of w) ≤ limit)%nat →
      rows ≡ₚ categories_of w)).
Proof.
  split.
  - exists (Db.select_pages limit offset (db w)). split.
    + unfold PageRepository.get_all. rewrite query_list_eq, Hok. reflexivity.
    + apply (sorted_window Db.id_le).
  - exists (Db.select_categories limit offset (db w)). split.
    + unfold CategoryRepository.get_all. rewrite query_list_eq, Hok.
      reflexivity.
    + apply (sorted_window Db.cid_le).
Qed.

Lemma get_all_is_a_sorted_window_witness :
  let w := RepositoryBasedETL.init
             (Db.mkStore [Db.mkPageRow 3 "Ada" None 1 "stub" None "";
                          Db.mkPageRow 1 "Go" None 5 "stub" None "";
                          Db.mkPageRow 2 "Rocq" None 7 "stub" None ""]
                         [] [] [] [] 4 1 1 1 0) in
  ∃ rows,
    PageRepository.get_all no_faults 2 1 w
    = (Ok (PageRepository._to_entity <$> rows), set_db (Db.tick (db w)) w) ∧
    (length rows ≤ 2)%nat ∧ StronglySorted Db.id_le rows.
Proof.
  intros w.
  destruct (get_all_is_a_sorted_window no_faults 2 1 w eq_refl)
    as ((rows & E & Hl & Hs & _) & _).
  exists rows. auto.
Defined.

(** Paging through [get_all] loses and repeats nothing: on a storage
    without errors, the window of [a] rows at an offset followed by the
    window of [b] rows right after it is the window of [a + b] rows at that
    offset. *)
Theorem get_all_windows_concatenate fails a b offset w
    (Hcalm : calm fails (Db.sessions (db w)) 3) :
  ∃ l1 l2 w1 w2,
    PageRepository.get_all fails a offset w = (Ok l1, w1) ∧
    PageRepository.get_all fails b (offset + a) w1 = (Ok l2, w2) ∧
    (PageRepository.get_all fails (a + b) offset w2).1 = Ok (l1 ++ l2).
Proof.
  assert (H0 : fails (Db.sessions (db w)) = false)
    by (rewrite <- (Nat.add_0_r (Db.sessions (db w))); apply Hcalm; lia).
  assert (H1 : fails (S (Db.sessions (db w))) = false)
    by (replace (S (Db.sessions (db w))) with (Db.sessions (db w) + 1)%nat
          by lia; apply Hcalm; lia).
  assert (H2 : fails (S (S (Db.sessions (db w)))) = false)
    by (replace (S (S (Db.sessions (db w))))
          with (Db.sessions (db w) + 2)%nat by lia; apply Hcalm; lia).
  unfold PageRepository.get_all. rewrite query_list_eq, H0.
  eexists _, _, _, _. split; [reflexivity|].
  rewrite query_list_eq. cbn [db set_db Db.sessions Db.tick]. rewrite H1.
  split; [reflexivity|].
  rewrite query_list_eq. cbn [fst db set_db Db.sessions Db.tick]. rewrite H2.
  unfold Db.select_pages. cbn [Db.page Db.tick].
  rewrite <- fmap_app. do 2 f_equal.
  rewrite <- drop_drop. symmetry. apply take_take_drop.
Qed.

Lemma get_all_windows_concatenate_witness :
  let w := RepositoryBasedETL.init
             (Db.mkStore [Db.mkPageRow 3 "Ada" None 1 "stub" None "";
                          Db.mkPageRow 1 "Go" None 5 "stub" None "";
                          Db.mkPageRow 2 "Rocq" None 7 "stub" None ""]
                         [] [] [] [] 4 1 1 1 0) in
  ∃ l1 l2 w1 w2,
    PageRepository.get_all no_faults 1 0 w = (Ok l1, w1) ∧
    PageRepository.get_all no_faults 2 1 w1 = (Ok l2, w2) ∧
    (PageRepository.get_all no_faults 3 0 w2).1 = Ok (l1 ++ l2).
Proof.
  intros w.
  apply (get_all_windows_concatenate no_faults 1 2 0 w).
  intros i _. reflexivity.
Defined.

(** X15. [count] and [get_all] agree: on a storage without errors, [get_all]
    with the count as its limit returns that many pages, and they are the
    pages of the table. *)
Theorem count_bounds_get_all fails w
    (Hcalm : calm fails (Db.sessions (db w)) 2) :
  ∃ c w1 pages,
    PageRepository.count fails w = (Ok c, w1) ∧
    (PageRepository.get_all fails (Z.to_nat c) 0 w1).1 = Ok pages ∧
    Z.of_nat (length pages) = c ∧
    pages ≡ₚ PageRepository._to_entity <$> pages_of w.
Proof.
  pose proof (calm_here _ _ _ Hcalm) as H0.
  pose proof (calm_next _ _ _ Hcalm) as H1.
  rewrite count_eq, H0. eexists _, _, _. split; [reflexivity|].
  unfold PageRepository.get_all. rewrite query_list_eq.
  cbn [fst db set_db Db.sessions Db.tick]. rewrite H1.
  split; [reflexivity|].
  rewrite Nat2Z.id.
  destruct (sorted_window Db.id_le (length (Db.page (db w))) 0
              (Db.page (db w))) as (_ & _ & _ & Hperm).
  specialize (Hperm eq_refl (le_n _)).
  unfold Db.select_pages, Db.order_by_id. cbn [Db.page Db.tick].
  split.
  - rewrite length_fmap, (Permutation_length Hperm). reflexivity.
  - unfold pages_of. rewrite Hperm. reflexivity.
Qed.

Lemma count_bounds_get_all_witness :
  let w := RepositoryBasedETL.init
             (Db.mkStore [Db.mkPageRow 3 "Ada" None 1 "stub" None "";
                          Db.mkPageRow 1 "Go" None 5 "stub" None ""]
                         [] [] [] [] 4 1 1 1 0) in
  ∃ w1 pages,
    PageRepository.count no_faults w = (Ok 2, w1) ∧
    (PageRepository.get_all no_faults 2 0 w1).1 = Ok pages ∧
    length pages = 2%nat.
Proof.
  intros w.
  destruct (count_bounds_get_all no_faults w)
    as (c & w1 & pages & E & Hg & Hl & _).
  { intros i _. reflexivity. }
  assert (c = 2) as -> by (vm_compute in E; congruence).
  exists w1, pages. split; [exact E|]. split; [exact Hg|]. lia.
Defined.

(** X16. [get_top_viewed], when its session meets no error, returns the most
    viewed pages, most viewed first: as many as the limit and the table
    allow, and no page left out has more views than a page returned. *)
Theorem top_viewed_are_the_most_viewed fails limit w
    (Hok : fails (Db.sessions (db w)) = false) :
  ∃ rows rest,
    PageRepository.get_top_viewed fails limit w
    = (Ok (PageRepository._to_entity <$> rows), set_db (Db.tick (db w)) w) ∧
    rows ++ rest ≡ₚ pages_of w ∧
    length rows = (limit `min` length (pages_of w))%nat ∧
    StronglySorted Db.views_ge rows ∧
    (∀ r r', r ∈ rows → r' ∈ rest → Db.p_views r' ≤ Db.p_views r).
Proof.
  exists (Db.select_top_viewed limit (db w)),
         (drop limit (Db.order_by_views_desc (Db.page (db w)))).
  split.
  - unfold PageRepository.get_top_viewed. rewrite query_list_eq, Hok.
    reflexivity.
  - apply (sorted_top Db.views_ge).
Qed.

Lemma top_viewed_are_the_most_viewed_witness :
  let w := RepositoryBasedETL.init
             (Db.mkStore [Db.mkPageRow 3 "Ada" None 1 "stub" None "";
                          Db.mkPageRow 1 "Go" None 5 "stub" None "";
                          Db.mkPageRow 2 "Rocq" None 7 "stub" None ""]
                         [] [] [] [] 4 1 1 1 0) in
  ∃ rows,
    PageRepository.get_top_viewed no_faults 2 w
    = (Ok (PageRepository._to_entity <$> rows), set_db (Db.tick (db w)) w) ∧
    length rows = 2%nat.
Proof.
  intros w.
  destruct (top_viewed_are_the_most_viewed no_faults 2 w eq_refl)
    as (rows & rest & E & _ & Hl & _).
  exists rows. split; [exact E|exact Hl].
Defined.

(** X17. [get_by_project], when its session meets no error, returns pages of
    that project only, most viewed first: as many as the limit and the
    project allow, and no page of the project left out has more views than
    a page returned. *)
Theorem project_pages_are_its_most_viewed fails project_id limit w
    (Hok : fails (Db.sessions (db w)) = false) :
  ∃ rows rest,
    PageRepository.get_by_project fails project_id limit w
    = (Ok (PageRepository._to_entity <$> rows), set_db (Db.tick (db w)) w) ∧
    rows ++ rest
    ≡ₚ filter (λ r, Db.p_project_id r = Some project_id) (pages_of w) ∧
    Forall (λ p, Page.project_id p = Some project_id)
           (PageRepository._to_entity <$> rows) ∧
    length rows
    = (limit `min`
       length (filter (λ r, Db.p_project_id r = Some project_id)
                 (pages_of w)))%nat ∧
    StronglySorted Db.views_ge rows ∧
    (∀ r r', r ∈ rows → r' ∈ rest → Db.p_views r' ≤ Db.p_views r).
Proof.
  exists (Db.select_pages_by_project project_id limit (db w)),
         (drop limit
            (Db.order_by_views_desc
               (filter (λ r, Db.p_project_id r = Some project_id)
                  (Db.page (db w))))).
  split.
  - unfold PageRepository.get_by_project. rewrite query_list_eq, Hok.
    reflexivity.
  - destruct (sorted_top Db.views_ge limit
                (filter (λ r, Db.p_project_id r = Some project_id)
                   (Db.page (db w)))) as (Hp & Hl & Hs & Hd).
    split; [exact Hp|]. split; [|auto].
    apply Forall_fmap, Forall_forall. intros r Hr. cbn.
    assert (Hin : r ∈ filter (λ r, Db.p_project_id r = Some project_id)
                        (Db.page (db w))).
    { rewrite <- Hp. apply elem_of_app. left. exact Hr. }
    apply list_elem_of_filter in Hin. tauto.
Qed.

Lemma project_pages_are_its_most_viewed_witness :
  let w := RepositoryBasedETL.init
             (Db.mkStore [Db.mkPageRow 1 "Go" (Some 1) 5 "stub" None "";
                          Db.mkPageRow 2 "Rocq" None 7 "stub" None "";
                          Db.mkPageRow 3 "Ada" (Some 1) 9 "stub" None ""]
                         [Db.mkNameRow 1 "Eng"] [] [] [] 4 2 1 1 0) in
  ∃ rows,
    PageRepository.get_by_project no_faults 1 5 w
    = (Ok (PageRepository._to_entity <$> rows), set_db (Db.tick (db w)) w) ∧
    length rows = 2%nat.
Proof.
  intros w.
  destruct (project_pages_are_its_most_viewed no_faults 1 5 w eq_refl)
    as (rows & rest & E & _ & _ & Hl & _).
  exists rows. split; [exact E|exact Hl].
Defined.

(** ** Creating pages *)

Lemma take_1_nil {A} (l : list A) : take 1 l = [] → l = [].
Proof. destruct l; [reflexivity|discriminate]. Qed.

(** X18. A page that [create] has stored is found again under its title, in any
    casing: when the existence check and the later lookup meet no storage
    error, [get_by_title] returns the page with the fields of the object
    and the identifier that [create] wrote into the object. *)
Theorem created_page_is_found_by_title fails page p title w created w1
    (Hp : heap w !! page = Some p)
    (Hcreate : PageRepository.create fails page w = (Ok (Some created), w1))
    (Hcheck : fails (Db.sessions (db w)) = false)
    (Hok : fails (Db.sessions (db w1)) = false)
    (Hsame : Py.lower title = Py.lower (Page.title p)) :
  created = page ∧
  ∃ i,
    heap w1 !! page = Some (Page.set_id (Some i) p) ∧
    (PageRepository.get_by_title fails title w1).1
    = Ok (Some (Page.mk (Some i) (Page.title p) (Page.project_id p)
                        (Page.views p) (Page.status p)
                        (Page.namespace_id p) (Page.text p) None None)).
Proof.
  rewrite (create_eq fails page p w Hp) in Hcreate. cbn zeta in Hcreate.
  rewrite Hcheck in Hcreate. cbn [negb andb] in Hcreate.
  destruct (bool_decide _) eqn:Hdec in Hcreate; [discriminate|].
  apply bool_decide_eq_false in Hdec.
  assert (Hnone : Db.select_page_by_title (Page.title p) (db w) = []).
  { destruct (Db.select_page_by_title _ _); [reflexivity|].
    exfalso. apply Hdec. discriminate. }
  destruct (fails (S _)); [discriminate|].
  injection Hcreate as <- <-. split; [reflexivity|].
  eexists. split.
  { cbn [heap]. apply list_lookup_insert_eq. eapply lookup_lt_Some, Hp. }
  rewrite get_by_title_eq. cbn [fst]. rewrite Hok.
  unfold Db.select_page_by_title in *.
  apply take_1_nil in Hnone.
  cbn [db Db.insert_page snd Db.page Db.tick].
  rewrite Hsame, filter_app, Hnone, app_nil_l.
  rewrite filter_cons_True by reflexivity.
  reflexivity.
Qed.

Lemma created_page_is_found_by_title_witness :
  let w := mkWorld Db.empty [sample_page] ∅ ∅ in
  ∃ w1,
    PageRepository.create no_faults 0%nat w = (Ok (Some 0%nat), w1) ∧
    (PageRepository.get_by_title no_faults "GO" w1).1
    = Ok (Some (Page.mk (Some 1) "Go" (Some 1) 5 "stub" None "lang"
                        None None)).
Proof.
  intros w.
  pose (w1 := (PageRepository.create no_faults 0%nat w).2).
  destruct (created_page_is_found_by_title no_faults 0%nat sample_page "GO"
              w 0%nat w1 eq_refl eq_refl eq_refl eq_refl eq_refl)
    as (_ & i & Hh & Hg).
  exists w1. split; [reflexivity|].
  assert (i = 1) as ->.
  { vm_compute in Hh. congruence. }
  exact Hg.
Defined.

(** X19. The existence check of [create] counts a storage error as "no such
    page": when the check fails and the insert does not, the page is stored
    whether or not a page of that title exists. *)
Theorem failed_check_lets_a_duplicate_in fails page p w
    (Hp : heap w !! page = Some p)
    (Hfail : fails (Db.sessions (db w)) = true)
    (Hok : fails (S (Db.sessions (db w))) = false) :
  ∃ w1 row,
    PageRepository.create fails page w = (Ok (Some page), w1) ∧
    pages_of w1 = pages_of w ++ [row] ∧
    Db.p_title row = Page.title p.
Proof.
  rewrite (create_eq fails page p w Hp). cbn zeta.
  rewrite Hfail, Hok. cbn [negb andb].
  eexists _, _. split; [reflexivity|]. split; reflexivity.
Qed.

Lemma failed_check_lets_a_duplicate_in_witness :
  let w := mkWorld
             (Db.mkStore [Db.mkPageRow 1 "Go" None 5 "stub" None ""]
                         [] [] [] [] 2 1 1 1 0)
             [sample_page] ∅ ∅ in
  ∃ w1,
    PageRepository.create (fails_at 0) 0%nat w = (Ok (Some 0%nat), w1) ∧
    Db.p_title <$> pages_of w1 = ["Go"; "Go"].
Proof.
  intros w.
  destruct (failed_check_lets_a_duplicate_in (fails_at 0) 0%nat sample_page w
              eq_refl eq_refl eq_refl) as (w1 & row & E & Hpages & Ht).
  exists w1. split; [exact E|].
  rewrite Hpages, fmap_app. cbn. rewrite Ht. reflexivity.
Defined.

Lemma create_outcome fails page w :
  (page < length (heap w))%nat →
  ∃ r w1,
    PageRepository.create fails page w = (Ok r, w1) ∧
    length (heap w1) = length (heap w) ∧
    ((r = None ∧ pages_of w1 = pages_of w) ∨
     (r = Some page ∧ ∃ row, pages_of w1 = pages_of w ++ [row])).
Proof.
  intros Hlt. destruct (lookup_lt_is_Some_2 _ _ Hlt) as [p Hp].
  rewrite (create_eq fails page p w Hp). cbn zeta.
  destruct (_ && _).
  { eexists _, _. split; [reflexivity|]. split; [reflexivity|]. left. auto. }
  destruct (fails (S _)).
  { eexists _, _. split; [reflexivity|]. split; [reflexivity|]. left. auto. }
  eexists _, _. split; [reflexivity|].
  split; [cbn [heap]; apply length_insert|].
  right. split; [reflexivity|]. eexists. reflexivity.
Qed.

Lemma create_batch_loop_outcome fails pages created_pages w :
  Forall (λ page, (page < length (heap w))%nat) pages →
  ∃ created w1,
    PageRepository.create_batch_loop fails pages created_pages w
    = (Ok (created_pages ++ created), w1) ∧
    created `sublist_of` pages ∧
    pages_of w `prefix_of` pages_of w1 ∧
    length (pages_of w1) = (length (pages_of w) + length created)%nat.
Proof.
  revert created_pages w.
  induction pages as [|page pages IH]; intros created_pages w Hall.
  { exists [], w. rewrite app_nil_r. cbn. split; [reflexivity|].
    split; [reflexivity|]. split; [reflexivity|lia]. }
  inversion Hall as [|? ? Hlt Hall']; subst.
  destruct (create_outcome fails page w Hlt) as (r & w1 & E & Hh & Hr).
  cbn [PageRepository.create_batch_loop]. unfold bind. rewrite E.
  assert (Hall1 : Forall (λ page, (page < length (heap w1))%nat) pages)
    by (rewrite Hh; exact Hall').
  destruct Hr as [[-> Hpages]|[-> [row Hpages]]].
  - destruct (IH created_pages w1 Hall1) as (created & w2 & E2 & Hs & Hp & Hl).
    exists created, w2. split; [exact E2|].
    split; [apply sublist_cons, Hs|].
    rewrite Hpages in Hp, Hl. auto.
  - destruct (IH (created_pages ++ [page]) w1 Hall1)
      as (created & w2 & E2 & Hs & Hp & Hl).
    exists (page :: created), w2.
    split; [rewrite <- app_assoc in E2; exact E2|].
    split; [apply sublist_skip, Hs|].
    rewrite Hpages in Hp, Hl. split.
    + etrans; [apply prefix_app_r; reflexivity|exact Hp].
    + rewrite Hl, length_app. cbn. lia.
Qed.

(** X20. [create_batch] never raises on page objects, whatever the storage does,
    and reports what it stored: the list returned holds some of the objects
    given, in their order, and the page table has grown at its end by
    exactly one row per object returned. *)
Theorem create_batch_reports_what_it_stored fails pages w
    (Hvalid : Forall (λ page, (page < length (heap w))%nat) pages) :
  ∃ created w1,
    PageRepository.create_batch fails pages w = (Ok created, w1) ∧
    created `sublist_of` pages ∧
    pages_of w `prefix_of` pages_of w1 ∧
    length (pages_of w1) = (length (pages_of w) + length created)%nat.
Proof.
  apply (create_batch_loop_outcome fails pages [] w Hvalid).
Qed.

Lemma create_batch_reports_what_it_stored_witness :
  let w := mkWorld Db.empty
             [sample_page;
              Page.mk None "GO" None 1 "stub" None "" None None;
              Page.mk None "Rocq" None 2 "stub" None "" None None] ∅ ∅ in
  ∃ w1,
    PageRepository.create_batch no_faults [0; 1; 2]%nat w
    = (Ok [0; 2]%nat, w1) ∧
    length (pages_of w1) = 2%nat.
Proof.
  intros w.
  destruct (create_batch_reports_what_it_stored no_faults [0; 1; 2]%nat w)
    as (created & w1 & E & _ & _ & Hl).
  { repeat constructor. }
  assert (created = [0; 2]%nat) as -> by (vm_compute in E; congruence).
  exists w1. split; [exact E|exact Hl].
Defined.

(** ** Deleting by title *)

Lemma NoDup_fmap_eq {A B} (f : A → B) (l : list A) x y :
  NoDup (f <$> l) → x ∈ l → y ∈ l → f x = f y → x = y.
Proof.
  induction l as [|a l IH]; intros Hnd Hx Hy Hf.
  { apply not_elem_of_nil in Hx. contradiction. }
  cbn in Hnd. apply NoDup_cons in Hnd as [Hna Hnd].
  apply elem_of_cons in Hx as [->|Hx], Hy as [->|Hy]; auto.
  - exfalso. apply Hna. rewrite Hf. apply list_elem_of_fmap. eauto.
  - exfalso. apply Hna. rewrite <- Hf. apply list_elem_of_fmap. eauto.
Qed.

Lemma select_page_head title d r :
  head (Db.select_page_by_title title d) = Some r →
  r ∈ Db.page d ∧ Py.lower (Db.p_title r) = Py.lower title.
Proof.
  unfold Db.select_page_by_title. rewrite head_take_1. intros H.
  apply head_Some_elem_of, list_elem_of_filter in H. tauto.
Qed.

Lemma select_page_head_None title d r :
  head (Db.select_page_by_title title d) = None →
  r ∈ Db.page d → Py.lower (Db.p_title r) ≠ Py.lower title.
Proof.
  unfold Db.select_page_by_title. rewrite head_take_1. intros H Hr Ht.
  assert (Hin : r ∈ filter (λ r, Py.lower (Db.p_title r) = Py.lower title)
                      (Db.page d)) by (apply list_elem_of_filter; auto).
  destruct (filter _ (Db.page d)); [|discriminate].
  apply not_elem_of_nil in Hin. exact Hin.
Qed.

Lemma delete_by_title_eq fails title w :
  PageRepository.delete_by_title fails title w =
    match (if fails (Db.sessions (db w)) then None
           else head (Db.select_page_by_title title (db w))) with
    | Some r =>
        if negb (Db.p_id r =? 0)
        then PageRepository.delete fails (Db.p_id r)
               (set_db (Db.tick (db w)) w)
        else (Ok false, set_db (Db.tick (db w)) w)
    | None => (Ok false, set_db (Db.tick (db w)) w)
    end.
Proof.
  unfold PageRepository.delete_by_title, try_except at 1, bind.
  rewrite get_by_title_eq.
  destruct (fails (Db.sessions (db w))); [reflexivity|].
  destruct (head (Db.select_page_by_title title (db w))) as [r|];
    [|reflexivity].
  cbn [fmap option_fmap option_map PageRepository._to_entity Page.id].
  destruct (negb (Db.p_id r =? 0)); [|reflexivity].
  unfold PageRepository.delete. rewrite rowcount_call_eq.
  destruct (fails _); reflexivity.
Qed.

(** X21. [delete_by_title] deletes nothing when no page answers to the title, and
    nothing either when the page that answers has the identifier 0, which
    the method takes for "no identifier": it returns False after one
    session and the page stays, whatever the storage does. *)
Theorem delete_by_title_spares_identifier_zero fails title w
    (Hzero : ∀ r, head (Db.select_page_by_title title (db w)) = Some r →
                  Db.p_id r = 0) :
  PageRepository.delete_by_title fails title w
  = (Ok false, set_db (Db.tick (db w)) w).
Proof.
  rewrite delete_by_title_eq.
  destruct (fails _); [reflexivity|].
  destruct (head (Db.select_page_by_title title (db w))) as [r|];
    [|reflexivity].
  rewrite (Hzero r eq_refl). reflexivity.
Qed.

Lemma delete_by_title_spares_identifier_zero_witness :
  let w := RepositoryBasedETL.init
             (Db.mkStore [Db.mkPageRow 0 "Go" None 5 "stub" None ""]
                         [] [] [] [] 1 1 1 1 0) in
  PageRepository.delete_by_title no_faults "go" w
  = (Ok false, set_db (Db.tick (db w)) w).
Proof.
  intros w.
  apply (delete_by_title_spares_identifier_zero no_faults "go" w).
  intros r [= <-]. reflexivity.
Defined.

(** X22. [delete_by_title] on a storage without errors, when no two pages share
    a title up to case: the answer is True exactly when a page with an
    identifier other than 0 answers to the title, and then no page answers
    to the title afterwards. *)
Theorem delete_by_title_removes_the_title fails title w
    (Hcalm : calm fails (Db.sessions (db w)) 3)
    (Hunique : NoDup (lower_titles (db w))) :
  ∃ b w1,
    PageRepository.delete_by_title fails title w = (Ok b, w1) ∧
    (b = true ↔
     ∃ r, r ∈ pages_of w ∧ Py.lower (Db.p_title r) = Py.lower title ∧
          Db.p_id r ≠ 0) ∧
    (b = true → (PageRepository.get_by_title fails title w1).1 = Ok None).
Proof.
  assert (H0 : fails (Db.sessions (db w)) = false)
    by (rewrite <- (Nat.add_0_r (Db.sessions (db w))); apply Hcalm; lia).
  assert (H1 : fails (S (Db.sessions (db w))) = false)
    by (replace (S (Db.sessions (db w))) with (Db.sessions (db w) + 1)%nat
          by lia; apply Hcalm; lia).
  assert (H2 : fails (S (S (Db.sessions (db w)))) = false)
    by (replace (S (S (Db.sessions (db w))))
          with (Db.sessions (db w) + 2)%nat by lia; apply Hcalm; lia).
  rewrite delete_by_title_eq, H0.
  destruct (head (Db.select_page_by_title title (db w))) as [r|] eqn:Hh.
  - destruct (select_page_head _ _ _ Hh) as [Hr Ht].
    assert (Hsame : ∀ r', r' ∈ Db.page (db w) →
                      Py.lower (Db.p_title r') = Py.lower title → r' = r).
    { intros r' Hr' Ht'.
      apply (NoDup_fmap_eq (λ r, Py.lower (Db.p_title r)) (Db.page (db w)));
        [exact Hunique|exact Hr'|exact Hr|congruence]. }
    destruct (Db.p_id r =? 0) eqn:Hid; cbn [negb].
    + apply Z.eqb_eq in Hid. eexists _, _. split; [reflexivity|].
      split; [|discriminate]. split; [discriminate|].
      intros (r' & Hr' & Ht' & Hne). rewrite (Hsame r' Hr' Ht') in Hne.
      contradiction.
    + apply Z.eqb_neq in Hid.
      unfold PageRepository.delete. rewrite rowcount_call_eq.
      cbn [db set_db Db.sessions Db.tick]. rewrite H1.
      cbn [Db.delete_page fst snd Db.page Db.tick].
      assert (Hpos : (0 <? length (filter (λ x, Db.p_id x = Db.p_id r)
                                     (Db.page (db w))))%nat = true).
      { apply rowcount_positive. eauto. }
      rewrite Hpos. eexists _, _. split; [reflexivity|].
      split; [split; [intros _; exists r; auto|reflexivity]|].
      intros _. rewrite get_by_title_eq.
      cbn [fst db set_db Db.sessions Db.with_pages Db.tick]. rewrite H2.
      unfold Db.select_page_by_title. cbn [Db.page Db.with_pages].
      rewrite filter_none; [reflexivity|].
      apply Forall_forall. intros x Hx Htx.
      apply list_elem_of_filter in Hx as [Hne Hx].
      apply Hne. rewrite (Hsame x Hx Htx). reflexivity.
  - eexists _, _. split; [reflexivity|].
    split; [|discriminate]. split; [discriminate|].
    intros (r' & Hr' & Ht' & _).
    exfalso. exact (select_page_head_None _ _ _ Hh Hr' Ht').
Qed.

Lemma delete_by_title_removes_the_title_witness :
  let w := RepositoryBasedETL.init
             (Db.mkStore [Db.mkPageRow 1 "Go" None 5 "stub" None "";
                          Db.mkPageRow 2 "Rocq" None 7 "stub" None ""]
                         [] [] [] [] 3 1 1 1 0) in
  ∃ w1,
    PageRepository.delete_by_title no_faults "GO" w = (Ok true, w1) ∧
    (PageRepository.get_by_title no_faults "GO" w1).1 = Ok None.
Proof.
  intros w.
  destruct (delete_by_title_removes_the_title no_faults "GO" w)
    as (b & w1 & E & Hb & Hg).
  { intros i _. reflexivity. }
  { apply NoDup_cons. split; [|apply NoDup_singleton].
    intros Hin. apply list_elem_of_singleton in Hin. discriminate Hin. }
  assert (b = true) as -> by (vm_compute in E; congruence).
  exists w1. split; [exact E|]. apply Hg. reflexivity.
Defined.

(** ** Categories *)

Lemma category_create_eq fails c w :
  CategoryRepository.create fails c w =
    let d := db w in
    if negb (fails (Db.sessions d)) &&
       bool_decide (Db.select_category_by_name (Category.name c) d ≠ [])
    then (Ok None, set_db (Db.tick d) w)
    else if fails (S (Db.sessions d))
    then (Ok None, set_db (Db.tick (Db.tick d)) w)
    else
      let r := Db.insert_category (CategoryRepository._from_entity c)
                                  (Db.tick (Db.tick d)) in
      (Ok (Some (Category.set_id (Some r.1) c)), set_db r.2 w).
Proof.
  unfold CategoryRepository.create, try_except, bind.
  rewrite get_by_name_eq.
  destruct (fails (Db.sessions (db w))) eqn:E1; cbn.
  - unfold get_session. cbn.
    destruct (fails (S (Db.sessions (db w)))); reflexivity.
  - destruct (Db.select_category_by_name (Category.name c) (db w)) eqn:E2;
      cbn.
    + unfold get_session. cbn.
      destruct (fails (S (Db.sessions (db w)))); reflexivity.
    + reflexivity.
Qed.

(** X23. A category that [create] has stored is found again under its name, in
    any casing: when the existence check and the later lookup meet no
    storage error, [get_by_name] returns exactly the category that [create]
    returned, which is the argument with its identifier set. *)
Theorem created_category_is_found_by_name fails category name w created w1
    (Hcreate : CategoryRepository.create fails category w
               = (Ok (Some created), w1))
    (Hcheck : fails (Db.sessions (db w)) = false)
    (Hok : fails (Db.sessions (db w1)) = false)
    (Hsame : Py.lower name = Py.lower (Category.name category)) :
  (∃ i, created = Category.set_id (Some i) category) ∧
  (CategoryRepository.get_by_name fails name w1).1 = Ok (Some created).
Proof.
  rewrite category_create_eq in Hcreate. cbn zeta in Hcreate.
  rewrite Hcheck in Hcreate. cbn [negb andb] in Hcreate.
  destruct (bool_decide _) eqn:Hdec in Hcreate; [discriminate|].
  apply bool_decide_eq_false in Hdec.
  assert (Hnone : Db.select_category_by_name (Category.name category) (db w)
                  = []).
  { destruct (Db.select_category_by_name _ _); [reflexivity|].
    exfalso. apply Hdec. discriminate. }
  destruct (fails (S _)); [discriminate|].
  injection Hcreate as <- <-. split; [eexists; reflexivity|].
  rewrite get_by_name_eq. cbn [fst]. rewrite Hok.
  unfold Db.select_category_by_name in *.
  apply take_1_nil in Hnone.
  cbn [db set_db Db.insert_category snd Db.category Db.tick].
  rewrite Hsame, filter_app, Hnone, app_nil_l.
  rewrite filter_cons_True by reflexivity.
  destruct category; reflexivity.
Qed.

Lemma created_category_is_found_by_name_witness :
  let w := RepositoryBasedETL.init Db.empty in
  ∃ w1,
    CategoryRepository.create no_faults
      (CategoryRepository.new_category "Logic") w
    = (Ok (Some (Category.mk (Some 1) "Logic" "" "stub")), w1) ∧
    (CategoryRepository.get_by_name no_faults "LOGIC" w1).1
    = Ok (Some (Category.mk (Some 1) "Logic" "" "stub")).
Proof.
  intros w.
  pose (w1 := (CategoryRepository.create no_faults
                 (CategoryRepository.new_category "Logic") w).2).
  destruct (created_category_is_found_by_name no_faults
              (CategoryRepository.new_category "Logic") "LOGIC" w
              (Category.mk (Some 1) "Logic" "" "stub") w1
              eq_refl eq_refl eq_refl eq_refl) as (_ & Hg).
  exists w1. split; [reflexivity|exact Hg].
Defined.

(** X24. [get_or_create_by_name] on a storage without errors returns a category
    that answers to the name, adding at most one row to the category table;
    asking again, for the name in any casing, returns the same category
    after one session and adds nothing. *)
Theorem get_or_create_by_name_is_idempotent fails name name' w
    (Hcalm : calm fails (Db.sessions (db w)) 5)
    (Hsame : Py.lower name' = Py.lower name) :
  ∃ c w1,
    CategoryRepository.get_or_create_by_name fails name w
    = (Ok (Some c), w1) ∧
    Py.lower (Category.name c) = Py.lower name ∧
    categories_of w `prefix_of` categories_of w1 ∧
    (length (categories_of w1) ≤ S (length (categories_of w)))%nat ∧
    CategoryRepository.get_or_create_by_name fails name' w1
    = (Ok (Some c), set_db (Db.tick (db w1)) w1).
Proof.
  assert (Hk : ∀ k, (k < 5)%nat → fails (k + Db.sessions (db w))%nat = false).
  { intros k Hk. rewrite Nat.add_comm. apply Hcalm, Hk. }
  pose proof (Hk 0%nat ltac:(lia)) as H0.
  pose proof (Hk 1%nat ltac:(lia)) as H1.
  pose proof (Hk 2%nat ltac:(lia)) as H2.
  pose proof (Hk 3%nat ltac:(lia)) as H3.
  pose proof (Hk 4%nat ltac:(lia)) as H4.
  cbn [Nat.add] in H0, H1, H2, H3, H4. clear Hk Hcalm.
  assert (Hsel : ∀ d, Db.select_category_by_name name' d
                      = Db.select_category_by_name name d).
  { intros d. unfold Db.select_category_by_name. rewrite Hsame. reflexivity. }
  unfold CategoryRepository.get_or_create_by_name. unfold bind at 1.
  rewrite get_by_name_eq, H0.
  destruct (Db.select_category_by_name name (db w)) as [|r l] eqn:Hs.
  - cbn [head fmap option_fmap option_map]. unfold bind at 1.
    rewrite category_create_eq. cbn zeta.
    cbn [db set_db Db.sessions Db.tick]. rewrite H1. cbn [negb andb].
    change (Db.select_category_by_name _ (Db.tick (db w)))
      with (Db.select_category_by_name name (db w)).
    rewrite Hs, bool_decide_eq_false_2 by (intros H; apply H; reflexivity).
    rewrite H2. rewrite get_by_name_eq.
    cbn [db set_db Db.sessions Db.tick Db.insert_category snd].
    rewrite H3.
    unfold Db.select_category_by_name in Hs. apply take_1_nil in Hs.
    unfold Db.select_category_by_name at 1.
    cbn [Db.category Db.tick]. rewrite filter_app, Hs, app_nil_l.
    rewrite filter_cons_True by reflexivity.
    eexists _, _. split; [reflexivity|].
    split; [reflexivity|].
    split; [unfold categories_of; cbn; apply prefix_app_r; reflexivity|].
    split; [unfold categories_of; cbn; rewrite length_app; cbn; lia|].
    unfold bind. rewrite get_by_name_eq.
    cbn [db set_db Db.sessions Db.tick]. rewrite H4, Hsel.
    unfold Db.select_category_by_name. cbn [Db.category Db.tick].
    rewrite filter_app, Hs, app_nil_l.
    rewrite filter_cons_True by reflexivity. reflexivity.
  - cbn [head fmap option_fmap option_map].
    assert (Hin : r ∈ filter (λ x, Py.lower (Db.c_name x) = Py.lower name)
                        (Db.category (db w))).
    { unfold Db.select_category_by_name in Hs.
      destruct (filter _ (Db.category (db w))) as [|x xs];
        [discriminate|]. injection Hs as -> _. left. }
    apply list_elem_of_filter in Hin as [Hr _].
    eexists _, _. split; [reflexivity|].
    split; [exact Hr|]. split; [reflexivity|].
    split; [unfold categories_of; cbn; lia|].
    unfold bind. rewrite get_by_name_eq.
    cbn [db set_db Db.sessions Db.tick]. rewrite H1, Hsel.
    change (Db.select_category_by_name name (Db.tick (db w)))
      with (Db.select_category_by_name name (db w)).
    rewrite Hs. reflexivity.
Qed.

Lemma get_or_create_by_name_is_idempotent_witness :
  let w := RepositoryBasedETL.init Db.empty in
  ∃ c w1,
    CategoryRepository.get_or_create_by_name no_faults "Logic" w
    = (Ok (Some c), w1) ∧
    CategoryRepository.get_or_create_by_name no_faults "LOGIC" w1
    = (Ok (Some c), set_db (Db.tick (db w1)) w1) ∧
    length (categories_of w1) = 1%nat.
Proof.
  intros w.
  destruct (get_or_create_by_name_is_idempotent no_faults "Logic" "LOGIC" w)
    as (c & w1 & E & _ & _ & _ & E').
  { intros i _. reflexivity. }
  { reflexivity. }
  exists c, w1. split; [exact E|]. split; [exact E'|].
  vm_compute in E. injection E as _ <-. reflexivity.
Defined.

Lemma head_filter_category_update i j (f : Db.category_row → Db.category_row)
    l :
  (∀ r, Db.c_id (f r) = Db.c_id r) →
  head (filter (λ r, Db.c_id r = j)
          ((λ r, if decide (Db.c_id r = i) then f r else r) <$> l))
  = (λ r, if decide (j = i) then f r else r)
      <$> head (filter (λ r, Db.c_id r = j) l).
Proof.
  intros Hf. induction l as [|x l IH]; [reflexivity|].
  cbn [fmap list_fmap]. rewrite !filter_cons.
  destruct (decide (Db.c_id x = i)) as [Hi|Hi].
  - rewrite Hf. destruct (decide (Db.c_id x = j)) as [Hj|Hj]; [|exact IH].
    cbn. destruct (decide (j = i)); [reflexivity|congruence].
  - destruct (decide (Db.c_id x = j)) as [Hj|Hj]; [|exact IH].
    cbn. destruct (decide (j = i)); [congruence|reflexivity].
Qed.

(** X25. The writes of the category repository by identifier, on a storage
    without errors: after [update_text_content] of a category that
    [get_by_id] finds, the category is read back with the new text and
    nothing else changed; after [delete], whose answer is True exactly when
    a category had the identifier, [get_by_id] finds none under it; either
    way every other identifier reads as before. *)
Theorem category_writes_read_back fails category_id w
    (Hcalm : calm fails (Db.sessions (db w)) 2) :
  (∀ new_text c,
     (CategoryRepository.get_by_id fails category_id w).1 = Ok (Some c) →
     ∃ w1,
       CategoryRepository.update_text_content fails category_id new_text w
       = (Ok true, w1) ∧
       (CategoryRepository.get_by_id fails category_id w1).1
       = Ok (Some (Category.mk (Category.id c) (Category.name c) new_text
                               (Category.status c))) ∧
       (∀ other_id, other_id ≠ category_id →
          (CategoryRepository.get_by_id fails other_id w1).1
          = (CategoryRepository.get_by_id fails other_id w).1)) ∧
  (∃ b w1,
     CategoryRepository.delete fails category_id w = (Ok b, w1) ∧
     (b = true ↔ category_id ∈ Db.c_id <$> categories_of w) ∧
     (CategoryRepository.get_by_id fails category_id w1).1 = Ok None ∧
     (∀ other_id, other_id ≠ category_id →
        (CategoryRepository.get_by_id fails other_id w1).1
        = (CategoryRepository.get_by_id fails other_id w).1)).
Proof.
  pose proof (calm_here _ _ _ Hcalm) as H0.
  pose proof (calm_next _ _ _ Hcalm) as H1.
  split.
  - intros new_text c Hget.
    rewrite category_get_by_id_eq, H0 in Hget. cbn [fst] in Hget.
    destruct (head (filter (λ r, Db.c_id r = category_id)
                      (Db.category (db w)))) as [r|] eqn:Hr; [|discriminate].
    injection Hget as <-.
    unfold CategoryRepository.update_text_content.
    rewrite rowcount_call_eq, H0.
    cbn [Db.update_category_text fst snd Db.tick Db.category].
    assert (Hpos : (0 <? length (filter (λ r, Db.c_id r = category_id)
                                   (Db.category (db w))))%nat = true).
    { destruct (filter _ (Db.category (db w))); [discriminate|reflexivity]. }
    rewrite Hpos. eexists. split; [reflexivity|]. split.
    + rewrite category_get_by_id_eq.
      cbn [fst db set_db Db.with_categories Db.sessions Db.category Db.tick].
      rewrite H1. rewrite head_filter_category_update by reflexivity.
      rewrite Hr. cbn.
      destruct (decide (category_id = category_id));
        [reflexivity|contradiction].
    + intros other_id Hne. rewrite !category_get_by_id_eq.
      cbn [fst db set_db Db.with_categories Db.sessions Db.category Db.tick].
      rewrite H0, H1. rewrite head_filter_category_update by reflexivity.
      destruct (decide (other_id = category_id)); [contradiction|].
      destruct (head (filter (λ r, Db.c_id r = other_id)
                        (Db.category (db w)))); reflexivity.
  - unfold CategoryRepository.delete. rewrite rowcount_call_eq, H0.
    eexists _, _. split; [reflexivity|].
    cbn [Db.delete_category fst snd Db.tick Db.category]. split; [|split].
    + rewrite rowcount_positive. unfold categories_of.
      rewrite list_elem_of_fmap.
      split; intros (r & Ha & Hb); exists r; auto.
    + rewrite category_get_by_id_eq.
      cbn [fst db set_db Db.with_categories Db.sessions Db.category Db.tick].
      rewrite H1. rewrite filter_after_excluding; [reflexivity|].
      intros r Hr Hn. exact (Hn Hr).
    + intros other_id Hne. rewrite !category_get_by_id_eq.
      cbn [fst db set_db Db.with_categories Db.sessions Db.category Db.tick].
      rewrite H0, H1. rewrite filter_after_filter; [reflexivity|].
      intros r Hr. congruence.
Qed.

Lemma category_writes_read_back_witness :
  let w := RepositoryBasedETL.init
             (Db.mkStore [] [] []
                [Db.mkCategoryRow 1 "Logic" "" "stub";
                 Db.mkCategoryRow 2 "Types" "" "stub"] [] 1 1 1 3 0) in
  ∃ w1 w2,
    CategoryRepository.update_text_content no_faults 1 "new" w
    = (Ok true, w1) ∧
    (CategoryRepository.get_by_id no_faults 1 w1).1
    = Ok (Some (Category.mk (Some 1) "Logic" "new" "stub")) ∧
    CategoryRepository.delete no_faults 2 w = (Ok true, w2) ∧
    (CategoryRepository.get_by_id no_faults 2 w2).1 = Ok None.
Proof.
  intros w.
  destruct (category_writes_read_back no_faults 1 w) as (Hu & _).
  { intros i _. reflexivity. }
  destruct (Hu "new" (Category.mk (Some 1) "Logic" "" "stub") eq_refl)
    as (w1 & E1 & Hg1 & _).
  destruct (category_writes_read_back no_faults 2 w)
    as (_ & b & w2 & E2 & Hb & Hg2 & _).
  { intros i _. reflexivity. }
  assert (b = true) as -> by (vm_compute in E2; congruence).
  exists w1, w2. auto.
Defined.

(** ** What a run stores *)

Lemma iterrows_stores_records fails cols rows stats w :
  ∃ added,
    pages_of (iterrows fails cols rows stats w).2 = pages_of w ++ added ∧
    (length added ≤ length rows)%nat ∧
    Forall (λ r, ∃ cells, cells ∈ rows ∧
                   let row := to_dict cols cells in
                   Db.p_title r = title_of row ∧ title_of row ≠ "" ∧
                   views_of row = Ok (Db.p_views r) ∧
                   Db.p_status r = "stub") added.
Proof.
  revert stats w. induction rows as [|cells rows IH]; intros stats w.
  { exists []. rewrite app_nil_r. cbn. split; [reflexivity|].
    split; [lia|constructor]. }
  destruct (process_row_outcome fails (to_dict cols cells) w)
    as (b & w1 & E & _ & H).
  cbn [iterrows]. unfold bind. rewrite E.
  destruct (IH (if b
                then mkStats (total_rows stats) (pages_created stats + 1)
                             (pages_skipped stats)
                else mkStats (total_rows stats) (pages_created stats)
                             (pages_skipped stats + 1)) w1)
    as (added & Hp & Hl & Hall).
  assert (Hweak : Forall (λ r, ∃ cells0, cells0 ∈ cells :: rows ∧
                     let row := to_dict cols cells0 in
                     Db.p_title r = title_of row ∧ title_of row ≠ "" ∧
                     views_of row = Ok (Db.p_views r) ∧
                     Db.p_status r = "stub") added).
  { eapply Forall_impl; [exact Hall|].
    intros r (cells0 & Hin & Hr). exists cells0. split; [right; exact Hin|].
    exact Hr. }
  destruct H as [(Hsame & _)|(pr & w5 & Hnew & Ht & _ & Hv & Hs & Hne & _)].
  - exists added. rewrite Hp, Hsame. split; [reflexivity|].
    split; [cbn; lia|exact Hweak].
  - exists (pr :: added). rewrite Hp, Hnew, <- app_assoc.
    split; [reflexivity|]. split; [cbn; lia|].
    constructor; [|exact Hweak].
    exists cells. split; [left|]. cbn zeta. auto.
Qed.

(** X26. A run stores nothing that is not in the frame, whatever the storage
    does: the page table keeps its rows and gains, at its end, at most one
    page per record; each page gained has the stripped, non-empty title of a
    record, the view count that [int] reads from that record, and the status
    "stub". *)
Theorem run_stores_only_records_of_the_frame fails df d :
  ∃ added,
    pages_of (run_simple_etl fails df d).2 = Db.page d ++ added ∧
    (length added ≤ length (data df))%nat ∧
    Forall (λ r, ∃ cells, cells ∈ data df ∧
                   let row := to_dict (normalize_column <$> columns df)
                                cells in
                   Db.p_title r = title_of row ∧ title_of row ≠ "" ∧
                   views_of row = Ok (Db.p_views r) ∧
                   Db.p_status r = "stub") added.
Proof.
  unfold run_simple_etl. apply iterrows_stores_records.
Qed.

(** X27. A run on a storage without errors leaves no loadable record behind:
    for every record with a non-blank title and a view count that [int]
    reads, a page answers to its title when the run ends. *)
Theorem run_loads_every_loadable_record fails df d
    (Hquiet : quiet fails (Db.sessions d)) :
  ∃ stats w',
    run_simple_etl fails df d = (Ok stats, w') ∧
    ∀ cells, cells ∈ data df →
      let row := to_dict (normalize_column <$> columns df) cells in
      title_of row ≠ "" → (∃ v, views_of row = Ok v) →
      ∃ r, r ∈ pages_of w' ∧
           Py.lower (Db.p_title r) = Py.lower (title_of row).
Proof.
  unfold run_simple_etl.
  destruct (iterrows_settles fails (normalize_column <$> columns df)
              (data df) (mkStats (Z.of_nat (length (data df))) 0 0)
              (RepositoryBasedETL.init d) Hquiet)
    as (stats & w' & E & _ & _ & Hall).
  exists stats, w'. split; [exact E|].
  intros cells Hin. cbv zeta.
  set (row := to_dict (normalize_column <$> columns df) cells).
  intros Ht Hv.
  rewrite Forall_forall in Hall. pose proof (Hall cells Hin) as Hn.
  destruct (head (Db.select_page_by_title (title_of row) (db w')))
    as [r|] eqn:Hh.
  - exists r. apply select_page_head in Hh. exact Hh.
  - exfalso. apply Hn. split; [exact Ht|]. split; [|exact Hv].
    destruct (Db.select_page_by_title _ _); [reflexivity|discriminate].
Qed.

Lemma run_loads_every_loadable_record_witness :
  ∃ stats w',
    run_simple_etl no_faults twice_frame Db.empty = (Ok stats, w') ∧
    ∃ r, r ∈ pages_of w' ∧ Py.lower (Db.p_title r) = "go".
Proof.
  destruct (run_loads_every_loadable_record no_faults twice_frame Db.empty
              (quiet_no_faults _)) as (stats & w' & E & Hall).
  exists stats, w'. split; [exact E|].
  apply (Hall [Py.VStr "GO"; Py.VStr "7"]).
  - right. right. left.
  - vm_compute. discriminate.
  - exists 7. vm_compute. reflexivity.
Defined.

(** ** References to projects and namespaces *)



Global Instance keeps_refs_ok_preorder : PreOrder keeps_refs_ok.
Proof.
  split.
  - intros w H. exact H.
  - intros a b c Hab Hbc H. apply Hbc, Hab, H.
Qed.










(** ** Category names and column names *)

Lemma list_of_lstrip s :
  list_ascii_of_string (Py.lstrip s) = lstrip_list (list_ascii_of_string s).
Proof.
  induction s as [|c s IH]; [reflexivity|]. cbn.
  destruct (Py.isspace c); [exact IH|reflexivity].
Qed.

Lemma list_of_rev_app s acc :
  list_ascii_of_string (String.rev_app s acc)
  = reverse (list_ascii_of_string s) ++ list_ascii_of_string acc.
Proof.
  revert acc. induction s as [|c s IH]; intros acc; [reflexivity|].
  cbn [String.rev_app list_ascii_of_string].
  rewrite IH, reverse_cons, <- app_assoc. reflexivity.
Qed.

Lemma list_of_rev s :
  list_ascii_of_string (String.rev s) = reverse (list_ascii_of_string s).
Proof. unfold String.rev. rewrite list_of_rev_app, app_nil_r. reflexivity. Qed.

Lemma list_of_strip s :
  list_ascii_of_string (Py.strip s)
  = reverse (lstrip_list (reverse (lstrip_list (list_ascii_of_string s)))).
Proof.
  unfold Py.strip, Py.rstrip.
  rewrite list_of_rev, list_of_lstrip, list_of_rev, list_of_lstrip.
  reflexivity.
Qed.

Lemma list_ascii_inj s1 s2 :
  list_ascii_of_string s1 = list_ascii_of_string s2 → s1 = s2.
Proof.
  intros H. rewrite <- (string_of_list_ascii_of_string s1), H.
  apply string_of_list_ascii_of_string.
Qed.

Lemma lstrip_list_suffix l : lstrip_list l `suffix_of` l.
Proof.
  induction l as [|c l IH]; [reflexivity|]. cbn.
  destruct (Py.isspace c); [apply suffix_cons_r, IH|reflexivity].
Qed.

Lemma lstrip_list_clean l : starts_clean (lstrip_list l).
Proof.
  induction l as [|c l IH]; [exact I|]. cbn.
  destruct (Py.isspace c) eqn:E; [exact IH|exact E].
Qed.

Lemma lstrip_list_fixed l : starts_clean l → lstrip_list l = l.
Proof. destruct l as [|c l]; [reflexivity|]. cbn. intros ->. reflexivity. Qed.

Lemma strip_list_clean l :
  starts_clean (reverse (lstrip_list (reverse (lstrip_list l)))).
Proof.
  pose proof (lstrip_list_clean l) as Hu.
  destruct (lstrip_list_suffix (reverse (lstrip_list l))) as [p Hp].
  apply (f_equal reverse) in Hp.
  rewrite reverse_involutive, reverse_app in Hp.
  destruct (reverse (lstrip_list (reverse (lstrip_list l)))) as [|c r];
    [exact I|].
  rewrite Hp in Hu. exact Hu.
Qed.

Lemma strip_idem s : Py.strip (Py.strip s) = Py.strip s.
Proof.
  apply list_ascii_inj. rewrite (list_of_strip (Py.strip s)), list_of_strip.
  rewrite (lstrip_list_fixed (reverse _)) by apply strip_list_clean.
  rewrite reverse_involutive.
  apply lstrip_list_fixed, strip_list_clean.
Qed.

Lemma strip_chars c s :
  c ∈ list_ascii_of_string (Py.strip s) → c ∈ list_ascii_of_string s.
Proof.
  rewrite list_of_strip, elem_of_reverse. intros H.
  pose proof (elem_of_suffix _ _ _ H (lstrip_list_suffix _)) as H'.
  rewrite elem_of_reverse in H'.
  exact (elem_of_suffix _ _ _ H' (lstrip_list_suffix _)).
Qed.

Lemma split_no_sep sep s t :
  t ∈ Py.split sep s → sep ∉ list_ascii_of_string t.
Proof.
  revert t. induction s as [|c s IH]; intros t Ht.
  { apply list_elem_of_singleton in Ht. subst. apply not_elem_of_nil. }
  cbn [Py.split] in Ht. destruct (decide (c = sep)) as [->|Hne].
  - apply elem_of_cons in Ht as [->|Ht]; [apply not_elem_of_nil|].
    apply IH, Ht.
  - destruct (Py.split sep s) as [|h tl].
    + apply list_elem_of_singleton in Ht. subst. cbn.
      intros H. apply elem_of_cons in H as [H|H]; [congruence|].
      apply not_elem_of_nil in H. exact H.
    + apply elem_of_cons in Ht as [->|Ht].
      * cbn. intros H. apply elem_of_cons in H as [H|H]; [congruence|].
        apply (IH h); [left|exact H].
      * apply IH. right. exact Ht.
Qed.

(** X29. The names that [_process_categories_for_page] looks up are clean: no
    token is empty, none starts or ends with white space (stripping it
    again changes nothing), and none holds a semicolon. *)
Theorem category_names_are_clean categories_str name
    (Hin : name ∈ RepositoryBasedETL.category_names categories_str) :
  name ≠ "" ∧ Py.strip name = name ∧
  ";"%char ∉ list_ascii_of_string name.
Proof.
  unfold RepositoryBasedETL.category_names in Hin.
  apply list_elem_of_fmap in Hin as (cat & -> & Hin).
  apply list_elem_of_filter in Hin as [Ht Hin].
  split; [apply truthy_str, Ht|]. split; [apply strip_idem|].
  intros Hc. apply strip_chars in Hc. exact (split_no_sep _ _ _ Hin Hc).
Qed.

Lemma category_names_are_clean_witness :
  "B" ≠ "" ∧ Py.strip "B" = "B" ∧ ";"%char ∉ list_ascii_of_string "B".
Proof.
  apply (category_names_are_clean "A; B ;;  ;C" "B").
  vm_compute. right. left.
Defined.

Lemma lower_char_idem c : Py.lower_char (Py.lower_char c) = Py.lower_char c.
Proof. destruct c as [[] [] [] [] [] [] [] []]; reflexivity. Qed.

Lemma lower_chars c s :
  c ∈ list_ascii_of_string (Py.lower s) →
  ∃ c0, c0 ∈ list_ascii_of_string s ∧ c = Py.lower_char c0.
Proof.
  induction s as [|a s IH]; cbn; intros H.
  { apply not_elem_of_nil in H. contradiction. }
  apply elem_of_cons in H as [->|H].
  - exists a. split; [left|reflexivity].
  - destruct (IH H) as (c0 & Hc0 & ->). exists c0. split; [right|]; auto.
Qed.

Lemma replace_chars a b c s :
  c ∈ list_ascii_of_string (Py.replace a b s) →
  c = b ∨ (c ≠ a ∧ c ∈ list_ascii_of_string s).
Proof.
  induction s as [|x s IH]; cbn; intros H.
  { apply not_elem_of_nil in H. contradiction. }
  apply elem_of_cons in H as [->|H].
  - destruct (decide (x = a)); [left; reflexivity|].
    right. split; [assumption|left].
  - destruct (IH H) as [->|[Hne Hin]]; [left; reflexivity|].
    right. split; [exact Hne|right; exact Hin].
Qed.

(** X30. A column name as the driver normalizes it holds no space and no
    capital letter (lower-casing it again changes no character), whatever
    the header of the file was. *)
Theorem normalized_column_is_canonical col c
    (Hin : c ∈ list_ascii_of_string (normalize_column col)) :
  c ≠ " "%char ∧ Py.lower_char c = c.
Proof.
  unfold normalize_column in Hin.
  apply replace_chars in Hin as [->|[Hne Hin]].
  - split; [discriminate|reflexivity].
  - split; [exact Hne|].
    apply lower_chars in Hin as (c0 & _ & ->). apply lower_char_idem.
Qed.

Lemma normalized_column_is_canonical_witness :
  "v"%char ≠ " "%char ∧ Py.lower_char "v" = "v"%char.
Proof.
  apply (normalized_column_is_canonical " View Count " "v"%char).
  vm_compute. left.
Defined.
